(** * The connection engine of the Anode MCP client

    A shallow embedding of [class McpClient] (src/index.ts): the session
    state machine, the request/response correlator, the reconnect policy
    and the result unwrapping of [callTool].

    The class is event driven.  Each of its methods and each listener it
    installs on a socket, an event stream, a timer or a POST is a state
    transformer on one record that holds the fields of the instance and
    the part of the JavaScript host the instance talks to (the sockets it
    created, the armed timers, the POSTs in flight).  What the instance
    does to the outside is appended to a trace.

    [Module Bridge] embeds the stdio bridge that ships with the client in
    the same way. *)

From Stdlib Require Import ZArith List String Ascii Bool Lia DecimalString.
Import ListNotations.
Set Warnings "-register-all".
Open Scope string_scope.
Open Scope list_scope.

(** ** JavaScript values

    The values that cross the wire are JSON documents.  A number is kept
    as an integer when its value is one ([JNum]; this covers the request
    ids, which are the only numbers the client compares) and as its
    literal otherwise ([JFrac], never zero, never equal to an id). *)

Inductive js : Type :=
| JUndefined
| JNull
| JBool (b : bool)
| JNum (n : Z)
| JFrac (literal : string)
| JStr (s : string)
| JArr (items : list js)
| JObj (fields : list (string * js)).

(** [if (v)] *)
Definition truthy (v : js) : bool :=
  match v with
  | JUndefined | JNull => false
  | JBool b => b
  | JNum n => negb (n =? 0)%Z
  | JFrac _ => true
  | JStr s => negb (s =? EmptyString)%string
  | JArr _ | JObj _ => true
  end.

Fixpoint field (k : string) (fs : list (string * js)) : option js :=
  match fs with
  | [] => None
  | (k', v) :: fs' => if (k =? k')%string then Some v else field k fs'
  end.

(** [v.k] and [v?.k] for the property names the client reads ([id],
    [method], [result], [error], [message], [content], [type], [text],
    [serverInfo], [capabilities]): none of them is defined on a primitive
    or on an array.  Reading a property of [undefined] or [null] without
    [?.] throws; the callers below test for that case first. *)
Definition prop (v : js) (k : string) : js :=
  match v with
  | JObj fs => match field k fs with Some x => x | None => JUndefined end
  | _ => JUndefined
  end.

(** [k in v] for [k] one of ['id'], ['method']; [None] is the TypeError
    thrown when [v] is not an object. *)
Definition has_key (k : string) (v : js) : option bool :=
  match v with
  | JObj fs => Some (match field k fs with Some _ => true | None => false end)
  | JArr _ => Some false
  | _ => None
  end.

(** [v?.[0]] *)
Definition index0 (v : js) : js :=
  match v with
  | JArr (x :: _) => x
  | JStr (String ch _) => JStr (String ch EmptyString)
  | JObj fs => match field "0" fs with Some x => x | None => JUndefined end
  | _ => JUndefined
  end.

(** [v === 'text'] *)
Definition is_text (v : js) : bool :=
  match v with
  | JStr s => (s =? "text")%string
  | _ => false
  end.

Definition string_of_Z (z : Z) : string := NilZero.string_of_int (Z.to_int z).

(** ** Types of src/index.ts *)

Inductive Transport := websocket | http_sse.

Record McpClientConfig := {
  host : string;
  wsPort : Z;
  httpPort : Z;
  transport : Transport;
  autoReconnect : bool;
  reconnectInterval : Z;
  timeout : Z
}.

(** The constructor's defaults ([config.x ?? default]). *)
Definition default_config (h : string) : McpClientConfig :=
  {| host := h; wsPort := 8765; httpPort := 8766; transport := websocket;
     autoReconnect := true; reconnectInterval := 3000; timeout := 30000 |}.

Record McpRequest := {
  req_id : Z;
  req_method : string;
  req_params : js
}.

Inductive ConnectionState := disconnected | connecting | connected | error.

Definition state_eqb (a b : ConnectionState) : bool :=
  match a, b with
  | disconnected, disconnected | connecting, connecting
  | connected, connected | error, error => true
  | _, _ => false
  end.

Inductive JsError :=
| NewError (message : js)      (* [new Error(message)] *)
| TypeError                    (* thrown by the runtime on [undefined.x], [k in 1] *)
| SyntaxError                  (* thrown by the JSON decoder *)
| HostError (what : string).   (* an error object made by ws or fetch *)

Inductive Outcome :=
| Resolved (v : js)
| Rejected (e : JsError).

(** The keys of [McpClientEvents] and what [emit] passes to a handler. *)
Inductive EventName := ev_connect | ev_disconnect | ev_error | ev_notification | ev_stateChange.

Inductive Emission :=
| on_connect
| on_disconnect (reason : string)
| on_error (e : JsError)
| on_notification (n : js)
| on_stateChange (s : ConnectionState).

Definition event_of (e : Emission) : EventName :=
  match e with
  | on_connect => ev_connect
  | on_disconnect _ => ev_disconnect
  | on_error _ => ev_error
  | on_notification _ => ev_notification
  | on_stateChange _ => ev_stateChange
  end.

Definition event_eqb (a b : EventName) : bool :=
  match a, b with
  | ev_connect, ev_connect | ev_disconnect, ev_disconnect | ev_error, ev_error
  | ev_notification, ev_notification | ev_stateChange, ev_stateChange => true
  | _, _ => false
  end.

(** ** Promises, timers and listeners

    A promise is named by the number of its allocation.  The code that
    awaits the promise of a [request] is one of three: the caller of the
    public method, [callTool] (which then settles its own promise), or
    [connect] through [initialize] (which then settles the promise of
    that [connect]). *)

Inductive Awaiter :=
| by_caller
| by_callTool (tool_promise : nat)
| by_connect (connect_promise : nat).

(** An entry of [pendingRequests]: [resolve] and [reject] settle
    [p_promise], which [p_awaiter] awaits; [p_timeout] is the handle
    returned by [setTimeout]. *)
Record Pending := {
  p_promise : nat;
  p_awaiter : Awaiter;
  p_timeout : nat
}.

(** The two callbacks the class passes to [setTimeout]. *)
Inductive TimerAction :=
| request_timeout (id : Z) (promise : nat) (awaiter : Awaiter)
| reconnect_attempt.

Inductive ReadyState := CONNECTING | OPEN | CLOSING | CLOSED.

(** A socket made by [connectWebSocket]; [ws_opener] is the [connect]
    call that waits for its ['open'] or ['error'], until one came. *)
Record WebSocket := {
  readyState : ReadyState;
  ws_opener : option nat
}.

(** An event stream made by [connectHttpSse]. *)
Record EventSource := {
  es_closed : bool;
  es_opener : option nat
}.

(** What the instance does to the outside, in order. *)
Inductive Effect :=
| Emit (e : Emission)                       (* [this.emit(...)] was called *)
| Invoke (handler : nat) (e : Emission)     (* a registered handler ran *)
| Settle (promise : nat) (o : Outcome)      (* resolve or reject was called *)
| MkRequest (r : McpRequest)                (* a request envelope was built *)
| WsNew (s : nat) (url : string)
| WsSend (s : nat) (r : McpRequest)
| WsClose (s : nat) (code : Z) (reason : string)
| EsNew (e : nat) (url : string)
| EsClose (e : nat)
| Post (f : nat) (url : string) (r : McpRequest)
| SetTimeout (t : nat) (ms : Z)
| ClearTimeout (t : nat)
| ConsoleError (what : string).

(** ** The instance and its host *)

Record McpClient := {
  (* fields of the class *)
  config : McpClientConfig;
  ws : option nat;
  eventSource : option nat;
  requestId : Z;
  pendingRequests : list (Z * Pending);
  eventHandlers : EventName -> list nat;
  _state : ConnectionState;
  reconnectTimer : option nat;
  serverInfo : js;
  capabilities : js;
  (* the host *)
  sockets : list WebSocket;
  sources : list EventSource;
  timers : list (nat * TimerAction);
  timer_count : nat;
  fetches : list (nat * (nat * Awaiter));
  fetch_count : nat;
  promise_count : nat;
  trace : list Effect
}.

(** [new McpClient(config)] *)
Definition new_client (cfg : McpClientConfig) : McpClient :=
  {| config := cfg; ws := None; eventSource := None; requestId := 0;
     pendingRequests := []; eventHandlers := fun _ => []; _state := disconnected;
     reconnectTimer := None; serverInfo := JNull; capabilities := JNull;
     sockets := []; sources := []; timers := []; timer_count := 0;
     fetches := []; fetch_count := 0; promise_count := 0; trace := [] |}.

(** Assignments to one field. *)
Definition set_ws (v : option nat) (c : McpClient) : McpClient :=
  {| config := config c; ws := v; eventSource := eventSource c; requestId := requestId c;
     pendingRequests := pendingRequests c; eventHandlers := eventHandlers c; _state := _state c; reconnectTimer := reconnectTimer c;
     serverInfo := serverInfo c; capabilities := capabilities c; sockets := sockets c; sources := sources c;
     timers := timers c; timer_count := timer_count c; fetches := fetches c; fetch_count := fetch_count c;
     promise_count := promise_count c; trace := trace c |}.

Definition set_eventSource (v : option nat) (c : McpClient) : McpClient :=
  {| config := config c; ws := ws c; eventSource := v; requestId := requestId c;
     pendingRequests := pendingRequests c; eventHandlers := eventHandlers c; _state := _state c; reconnectTimer := reconnectTimer c;
     serverInfo := serverInfo c; capabilities := capabilities c; sockets := sockets c; sources := sources c;
     timers := timers c; timer_count := timer_count c; fetches := fetches c; fetch_count := fetch_count c;
     promise_count := promise_count c; trace := trace c |}.

Definition set_requestId (v : Z) (c : McpClient) : McpClient :=
  {| config := config c; ws := ws c; eventSource := eventSource c; requestId := v;
     pendingRequests := pendingRequests c; eventHandlers := eventHandlers c; _state := _state c; reconnectTimer := reconnectTimer c;
     serverInfo := serverInfo c; capabilities := capabilities c; sockets := sockets c; sources := sources c;
     timers := timers c; timer_count := timer_count c; fetches := fetches c; fetch_count := fetch_count c;
     promise_count := promise_count c; trace := trace c |}.

Definition set_pendingRequests (v : list (Z * Pending)) (c : McpClient) : McpClient :=
  {| config := config c; ws := ws c; eventSource := eventSource c; requestId := requestId c;
     pendingRequests := v; eventHandlers := eventHandlers c; _state := _state c; reconnectTimer := reconnectTimer c;
     serverInfo := serverInfo c; capabilities := capabilities c; sockets := sockets c; sources := sources c;
     timers := timers c; timer_count := timer_count c; fetches := fetches c; fetch_count := fetch_count c;
     promise_count := promise_count c; trace := trace c |}.

Definition set_eventHandlers (v : EventName -> list nat) (c : McpClient) : McpClient :=
  {| config := config c; ws := ws c; eventSource := eventSource c; requestId := requestId c;
     pendingRequests := pendingRequests c; eventHandlers := v; _state := _state c; reconnectTimer := reconnectTimer c;
     serverInfo := serverInfo c; capabilities := capabilities c; sockets := sockets c; sources := sources c;
     timers := timers c; timer_count := timer_count c; fetches := fetches c; fetch_count := fetch_count c;
     promise_count := promise_count c; trace := trace c |}.

Definition set_state (v : ConnectionState) (c : McpClient) : McpClient :=
  {| config := config c; ws := ws c; eventSource := eventSource c; requestId := requestId c;
     pendingRequests := pendingRequests c; eventHandlers := eventHandlers c; _state := v; reconnectTimer := reconnectTimer c;
     serverInfo := serverInfo c; capabilities := capabilities c; sockets := sockets c; sources := sources c;
     timers := timers c; timer_count := timer_count c; fetches := fetches c; fetch_count := fetch_count c;
     promise_count := promise_count c; trace := trace c |}.

Definition set_reconnectTimer (v : option nat) (c : McpClient) : McpClient :=
  {| config := config c; ws := ws c; eventSource := eventSource c; requestId := requestId c;
     pendingRequests := pendingRequests c; eventHandlers := eventHandlers c; _state := _state c; reconnectTimer := v;
     serverInfo := serverInfo c; capabilities := capabilities c; sockets := sockets c; sources := sources c;
     timers := timers c; timer_count := timer_count c; fetches := fetches c; fetch_count := fetch_count c;
     promise_count := promise_count c; trace := trace c |}.

Definition set_serverInfo (v : js) (c : McpClient) : McpClient :=
  {| config := config c; ws := ws c; eventSource := eventSource c; requestId := requestId c;
     pendingRequests := pendingRequests c; eventHandlers := eventHandlers c; _state := _state c; reconnectTimer := reconnectTimer c;
     serverInfo := v; capabilities := capabilities c; sockets := sockets c; sources := sources c;
     timers := timers c; timer_count := timer_count c; fetches := fetches c; fetch_count := fetch_count c;
     promise_count := promise_count c; trace := trace c |}.

Definition set_capabilities (v : js) (c : McpClient) : McpClient :=
  {| config := config c; ws := ws c; eventSource := eventSource c; requestId := requestId c;
     pendingRequests := pendingRequests c; eventHandlers := eventHandlers c; _state := _state c; reconnectTimer := reconnectTimer c;
     serverInfo := serverInfo c; capabilities := v; sockets := sockets c; sources := sources c;
     timers := timers c; timer_count := timer_count c; fetches := fetches c; fetch_count := fetch_count c;
     promise_count := promise_count c; trace := trace c |}.

Definition set_sockets (v : list WebSocket) (c : McpClient) : McpClient :=
  {| config := config c; ws := ws c; eventSource := eventSource c; requestId := requestId c;
     pendingRequests := pendingRequests c; eventHandlers := eventHandlers c; _state := _state c; reconnectTimer := reconnectTimer c;
     serverInfo := serverInfo c; capabilities := capabilities c; sockets := v; sources := sources c;
     timers := timers c; timer_count := timer_count c; fetches := fetches c; fetch_count := fetch_count c;
     promise_count := promise_count c; trace := trace c |}.

Definition set_sources (v : list EventSource) (c : McpClient) : McpClient :=
  {| config := config c; ws := ws c; eventSource := eventSource c; requestId := requestId c;
     pendingRequests := pendingRequests c; eventHandlers := eventHandlers c; _state := _state c; reconnectTimer := reconnectTimer c;
     serverInfo := serverInfo c; capabilities := capabilities c; sockets := sockets c; sources := v;
     timers := timers c; timer_count := timer_count c; fetches := fetches c; fetch_count := fetch_count c;
     promise_count := promise_count c; trace := trace c |}.

Definition set_timers (v : list (nat * TimerAction)) (c : McpClient) : McpClient :=
  {| config := config c; ws := ws c; eventSource := eventSource c; requestId := requestId c;
     pendingRequests := pendingRequests c; eventHandlers := eventHandlers c; _state := _state c; reconnectTimer := reconnectTimer c;
     serverInfo := serverInfo c; capabilities := capabilities c; sockets := sockets c; sources := sources c;
     timers := v; timer_count := timer_count c; fetches := fetches c; fetch_count := fetch_count c;
     promise_count := promise_count c; trace := trace c |}.

Definition set_timer_count (v : nat) (c : McpClient) : McpClient :=
  {| config := config c; ws := ws c; eventSource := eventSource c; requestId := requestId c;
     pendingRequests := pendingRequests c; eventHandlers := eventHandlers c; _state := _state c; reconnectTimer := reconnectTimer c;
     serverInfo := serverInfo c; capabilities := capabilities c; sockets := sockets c; sources := sources c;
     timers := timers c; timer_count := v; fetches := fetches c; fetch_count := fetch_count c;
     promise_count := promise_count c; trace := trace c |}.

Definition set_fetches (v : list (nat * (nat * Awaiter))) (c : McpClient) : McpClient :=
  {| config := config c; ws := ws c; eventSource := eventSource c; requestId := requestId c;
     pendingRequests := pendingRequests c; eventHandlers := eventHandlers c; _state := _state c; reconnectTimer := reconnectTimer c;
     serverInfo := serverInfo c; capabilities := capabilities c; sockets := sockets c; sources := sources c;
     timers := timers c; timer_count := timer_count c; fetches := v; fetch_count := fetch_count c;
     promise_count := promise_count c; trace := trace c |}.

Definition set_fetch_count (v : nat) (c : McpClient) : McpClient :=
  {| config := config c; ws := ws c; eventSource := eventSource c; requestId := requestId c;
     pendingRequests := pendingRequests c; eventHandlers := eventHandlers c; _state := _state c; reconnectTimer := reconnectTimer c;
     serverInfo := serverInfo c; capabilities := capabilities c; sockets := sockets c; sources := sources c;
     timers := timers c; timer_count := timer_count c; fetches := fetches c; fetch_count := v;
     promise_count := promise_count c; trace := trace c |}.

Definition set_promise_count (v : nat) (c : McpClient) : McpClient :=
  {| config := config c; ws := ws c; eventSource := eventSource c; requestId := requestId c;
     pendingRequests := pendingRequests c; eventHandlers := eventHandlers c; _state := _state c; reconnectTimer := reconnectTimer c;
     serverInfo := serverInfo c; capabilities := capabilities c; sockets := sockets c; sources := sources c;
     timers := timers c; timer_count := timer_count c; fetches := fetches c; fetch_count := fetch_count c;
     promise_count := v; trace := trace c |}.

Definition set_trace (v : list Effect) (c : McpClient) : McpClient :=
  {| config := config c; ws := ws c; eventSource := eventSource c; requestId := requestId c;
     pendingRequests := pendingRequests c; eventHandlers := eventHandlers c; _state := _state c; reconnectTimer := reconnectTimer c;
     serverInfo := serverInfo c; capabilities := capabilities c; sockets := sockets c; sources := sources c;
     timers := timers c; timer_count := timer_count c; fetches := fetches c; fetch_count := fetch_count c;
     promise_count := promise_count c; trace := v |}.


(** ** Host primitives *)

Definition log (e : Effect) (c : McpClient) : McpClient :=
  set_trace (trace c ++ [e]) c.

(** Allocation of a promise; its name is [promise_count] before the call. *)
Definition new_promise (c : McpClient) : McpClient :=
  set_promise_count (S (promise_count c)) c.

Fixpoint timer_get (t : nat) (l : list (nat * TimerAction)) : option TimerAction :=
  match l with
  | [] => None
  | (t', a) :: l' => if Nat.eqb t t' then Some a else timer_get t l'
  end.

Definition timer_remove (t : nat) (l : list (nat * TimerAction)) : list (nat * TimerAction) :=
  filter (fun e => negb (Nat.eqb t (fst e))) l.

(** [setTimeout(callback, ms)]; the handle is [timer_count] before the call. *)
Definition setTimeout (a : TimerAction) (ms : Z) (c : McpClient) : McpClient :=
  let t := timer_count c in
  log (SetTimeout t ms) (set_timer_count (S t) (set_timers (timers c ++ [(t, a)]) c)).

Definition clearTimeout (t : nat) (c : McpClient) : McpClient :=
  log (ClearTimeout t) (set_timers (timer_remove t (timers c)) c).

(** The [Map] of pending requests, in insertion order.  Its keys are the
    numbers [request] stores; [get] and [delete] receive whatever the
    [id] of a decoded message is, which equals a key only when it is the
    same number. *)
Fixpoint map_get (k : Z) (m : list (Z * Pending)) : option Pending :=
  match m with
  | [] => None
  | (k', v) :: m' => if (k =? k')%Z then Some v else map_get k m'
  end.

Fixpoint map_set (k : Z) (v : Pending) (m : list (Z * Pending)) : list (Z * Pending) :=
  match m with
  | [] => [(k, v)]
  | (k', v') :: m' => if (k =? k')%Z then (k, v) :: m' else (k', v') :: map_set k v m'
  end.

Definition map_delete (k : Z) (m : list (Z * Pending)) : list (Z * Pending) :=
  filter (fun e => negb (k =? fst e)%Z) m.

Definition pending_get (key : js) (m : list (Z * Pending)) : option Pending :=
  match key with
  | JNum k => map_get k m
  | _ => None
  end.

Definition pending_delete (key : js) (m : list (Z * Pending)) : list (Z * Pending) :=
  match key with
  | JNum k => map_delete k m
  | _ => m
  end.

Fixpoint list_set {A} (i : nat) (x : A) (l : list A) : list A :=
  match l, i with
  | [], _ => []
  | _ :: l', O => x :: l'
  | y :: l', S i' => y :: list_set i' x l'
  end.

Definition is_open (s : nat) (c : McpClient) : bool :=
  match nth_error (sockets c) s with
  | Some {| readyState := OPEN |} => true
  | _ => false
  end.

(** [ws.send(JSON.stringify(request))] on an open socket. *)
Definition ws_send (s : nat) (r : McpRequest) (c : McpClient) : McpClient :=
  log (WsSend s r) c.

(** [ws.close(code, reason)]: the socket starts closing; its ['close']
    event comes later, from the host. *)
Definition ws_close_call (s : nat) (code : Z) (reason : string) (c : McpClient) : McpClient :=
  let c :=
    match nth_error (sockets c) s with
    | Some sock =>
        match readyState sock with
        | CLOSED => c
        | _ => set_sockets (list_set s {| readyState := CLOSING; ws_opener := ws_opener sock |}
                              (sockets c)) c
        end
    | None => c
    end in
  log (WsClose s code reason) c.

(** [eventSource.close()] *)
Definition es_close_call (e : nat) (c : McpClient) : McpClient :=
  let c :=
    match nth_error (sources c) e with
    | Some src => set_sources (list_set e {| es_closed := true; es_opener := es_opener src |}
                                 (sources c)) c
    | None => c
    end in
  log (EsClose e) c.

Definition ws_url (cfg : McpClientConfig) : string :=
  ("ws://" ++ host cfg ++ ":" ++ string_of_Z (wsPort cfg))%string.

Definition sse_url (cfg : McpClientConfig) : string :=
  ("http://" ++ host cfg ++ ":" ++ string_of_Z (httpPort cfg) ++ "/mcp/events")%string.

Definition post_url (cfg : McpClientConfig) : string :=
  ("http://" ++ host cfg ++ ":" ++ string_of_Z (httpPort cfg) ++ "/mcp/message")%string.

(** [++n] on a JavaScript number that holds a non-negative integer: every
    integer up to 2^53 is a double, and 2^53 + 1 rounds back to 2^53. *)
Definition pre_increment (n : Z) : Z :=
  if (n <? 2 ^ 53)%Z then (n + 1)%Z else n.

(** ** The class

    [JSON_parse v] is the built-in [JSON.parse] applied to the value [v]
    (which it converts to a string first); [None] stands for the
    SyntaxError it throws.  Event handlers are observers: they are run
    with the payload and do not call back into the instance; what they
    throw is caught by [emit]. *)

Section Client.

Variable JSON_parse : js -> option js.

(** *** Event handling *)

Definition on (ev : EventName) (h : nat) (c : McpClient) : McpClient :=
  set_eventHandlers
    (fun k => if event_eqb k ev then eventHandlers c k ++ [h] else eventHandlers c k) c.

(** [indexOf] then [splice(index, 1)] *)
Fixpoint remove_first (h : nat) (l : list nat) : list nat :=
  match l with
  | [] => []
  | x :: l' => if Nat.eqb h x then l' else x :: remove_first h l'
  end.

Definition off (ev : EventName) (h : nat) (c : McpClient) : McpClient :=
  set_eventHandlers
    (fun k => if event_eqb k ev then remove_first h (eventHandlers c k) else eventHandlers c k) c.

Definition emit (e : Emission) (c : McpClient) : McpClient :=
  fold_left (fun c h => log (Invoke h e) c) (eventHandlers c (event_of e)) (log (Emit e) c).

Definition setState (s : ConnectionState) (c : McpClient) : McpClient :=
  if state_eqb (_state c) s then c
  else emit (on_stateChange s) (set_state s c).

(** *** Settling a promise and resuming the code that awaits it *)

Definition settle (p : nat) (o : Outcome) (c : McpClient) : McpClient :=
  log (Settle p o) c.

(** The [catch] block of [connect]. *)
Definition connect_catch (cp : nat) (e : JsError) (c : McpClient) : McpClient :=
  let c := setState error c in
  let c := emit (on_error e) c in
  settle cp (Rejected e) c.

(** [connect] after [await this.initialize()]. *)
Definition connect_resume_initialize (cp : nat) (o : Outcome) (c : McpClient) : McpClient :=
  match o with
  | Resolved JUndefined | Resolved JNull => connect_catch cp TypeError c
  | Resolved result =>
      let c := set_serverInfo (prop result "serverInfo") c in
      let c := set_capabilities (prop result "capabilities") c in
      let c := setState connected c in
      let c := emit on_connect c in
      settle cp (Resolved result) c
  | Rejected e => connect_catch cp e c
  end.

(** The part of [callTool] after [await this.request(...)], on a result:
    what the method returns or throws. *)
Definition callTool_unwrap (result : js) : Outcome :=
  match result with
  | JUndefined | JNull => Rejected TypeError
  | _ =>
      let content := index0 (prop result "content") in
      if is_text (prop content "type") && truthy (prop content "text") then
        match JSON_parse (prop content "text") with
        | Some v => Resolved v
        | None => Resolved (prop content "text")
        end
      else Resolved result
  end.

Definition callTool_resume (tp : nat) (o : Outcome) (c : McpClient) : McpClient :=
  match o with
  | Resolved result => settle tp (callTool_unwrap result) c
  | Rejected e => settle tp (Rejected e) c
  end.

Definition resume (k : Awaiter) (o : Outcome) (c : McpClient) : McpClient :=
  match k with
  | by_caller => c
  | by_callTool tp => callTool_resume tp o c
  | by_connect cp => connect_resume_initialize cp o c
  end.

(** [resolve(v)] or [reject(e)] of a request, followed by the code that
    awaits it. *)
Definition settle_request (rp : nat) (k : Awaiter) (o : Outcome) (c : McpClient) : McpClient :=
  resume k o (settle rp o c).

(** *** Request/response *)

(** [sendHttpRequest] up to [await fetch(...)]. *)
Definition sendHttpRequest (rp : nat) (k : Awaiter) (r : McpRequest) (c : McpClient) : McpClient :=
  let f := fetch_count c in
  let c := set_fetch_count (S f) c in
  let c := set_fetches (fetches c ++ [(f, (rp, k))]) c in
  log (Post f (post_url (config c)) r) c.

(** [response.ok] *)
Definition http_ok (status : Z) : bool := (200 <=? status)%Z && (status <=? 299)%Z.

(** What [request] makes of an answered POST: the rest of
    [sendHttpRequest] and the three lines after it in [request]. *)
Definition http_outcome (status : Z) (body : string) : Outcome :=
  if http_ok status then
    match JSON_parse (JStr body) with
    | None => Rejected SyntaxError
    | Some JUndefined | Some JNull => Rejected TypeError
    | Some response =>
        if truthy (prop response "error")
        then Rejected (NewError (prop (prop response "error") "message"))
        else Resolved (prop response "result")
    end
  else Rejected (NewError (JStr ("HTTP error: " ++ string_of_Z status)%string)).

Definition request (k : Awaiter) (method : string) (params : js) (c : McpClient) : McpClient :=
  let id := pre_increment (requestId c) in
  let c := set_requestId id c in
  let r := {| req_id := id; req_method := method; req_params := params |} in
  let c := log (MkRequest r) c in
  let rp := promise_count c in
  let c := new_promise c in
  match transport (config c) with
  | http_sse => sendHttpRequest rp k r c
  | websocket =>
      match ws c with
      | Some s =>
          if is_open s c then
            let t := timer_count c in
            let c := setTimeout (request_timeout id rp k) (timeout (config c)) c in
            let c := set_pendingRequests
                       (map_set id {| p_promise := rp; p_awaiter := k; p_timeout := t |}
                          (pendingRequests c)) c in
            ws_send s r c
          else settle_request rp k (Rejected (NewError (JStr "WebSocket not connected"))) c
      | None => settle_request rp k (Rejected (NewError (JStr "WebSocket not connected"))) c
      end
  end.

Definition initialize_params : js :=
  JObj [("protocolVersion", JStr "2024-11-05");
        ("capabilities", JObj []);
        ("clientInfo", JObj [("name", JStr "@anode/mcp-client"); ("version", JStr "1.0.0")])].

Definition initialize (cp : nat) (c : McpClient) : McpClient :=
  request (by_connect cp) "initialize" initialize_params c.

(** [callTool] up to its [await]; its own promise is [promise_count]
    before the call. *)
Definition callTool (name : string) (args : js) (c : McpClient) : McpClient :=
  let tp := promise_count c in
  let c := new_promise c in
  request (by_callTool tp) "tools/call" (JObj [("name", JStr name); ("arguments", args)]) c.

(** *** Connection management *)

Definition connectWebSocket (cp : nat) (c : McpClient) : McpClient :=
  let s := List.length (sockets c) in
  let c := set_sockets (sockets c ++ [{| readyState := CONNECTING; ws_opener := Some cp |}]) c in
  let c := log (WsNew s (ws_url (config c))) c in
  set_ws (Some s) c.

Definition connectHttpSse (cp : nat) (c : McpClient) : McpClient :=
  let e := List.length (sources c) in
  let c := set_sources (sources c ++ [{| es_closed := false; es_opener := Some cp |}]) c in
  let c := log (EsNew e (sse_url (config c))) c in
  set_eventSource (Some e) c.

(** [connect] up to its first [await]. *)
Definition connect (c : McpClient) : McpClient :=
  let cp := promise_count c in
  let c := new_promise c in
  if state_eqb (_state c) connected then
    settle cp (Rejected (NewError (JStr "Already connected"))) c
  else
    let c := setState connecting c in
    match transport (config c) with
    | websocket => connectWebSocket cp c
    | http_sse => connectHttpSse cp c
    end.

(** [connect] after the [await] of the transport. *)
Definition connect_resume_transport (cp : nat) (o : Outcome) (c : McpClient) : McpClient :=
  match o with
  | Resolved _ => initialize cp c
  | Rejected e => connect_catch cp e c
  end.

Definition stopReconnectTimer (c : McpClient) : McpClient :=
  match reconnectTimer c with
  | Some t => set_reconnectTimer None (clearTimeout t c)
  | None => c
  end.

Definition disconnected_error : Outcome := Rejected (NewError (JStr "Client disconnected")).

(** The body of the loop over [pendingRequests]. *)
Definition reject_pending (c : McpClient) (entry : Z * Pending) : McpClient :=
  let c := clearTimeout (p_timeout (snd entry)) c in
  settle (p_promise (snd entry)) disconnected_error c.

Definition awaits_tool (entry : Z * Pending) : bool :=
  match p_awaiter (snd entry) with by_callTool _ => true | _ => false end.

Definition awaits_connect (entry : Z * Pending) : bool :=
  match p_awaiter (snd entry) with by_connect _ => true | _ => false end.

Definition resume_rejected (c : McpClient) (entry : Z * Pending) : McpClient :=
  resume (p_awaiter (snd entry)) disconnected_error c.

(** [disconnect] runs to its end without awaiting; the code that awaits
    the rejected requests runs after it, the [callTool]s (one promise
    away from the request) before the [connect]s (two away). *)
Definition disconnect (c : McpClient) : McpClient :=
  let dp := promise_count c in
  let c := new_promise c in
  let c := stopReconnectTimer c in
  let c := match ws c with
           | Some s => set_ws None (ws_close_call s 1000 "Client disconnect" c)
           | None => c
           end in
  let c := match eventSource c with
           | Some e => set_eventSource None (es_close_call e c)
           | None => c
           end in
  let waiting := pendingRequests c in
  let c := fold_left reject_pending waiting c in
  let c := set_pendingRequests [] c in
  let c := setState disconnected c in
  let c := emit (on_disconnect "Client initiated") c in
  let c := settle dp (Resolved JUndefined) c in
  let c := fold_left resume_rejected (filter awaits_tool waiting) c in
  fold_left resume_rejected (filter awaits_connect waiting) c.

(** *** Message handling *)

Definition handleMessage (data : string) (c : McpClient) : McpClient :=
  match JSON_parse (JStr data) with
  | None => log (ConsoleError "Failed to parse message:") c
  | Some message =>
      match has_key "id" message with
      | None => log (ConsoleError "Failed to parse message:") c
      | Some true =>
          match pending_get (prop message "id") (pendingRequests c) with
          | Some pending =>
              let c := clearTimeout (p_timeout pending) c in
              let c := set_pendingRequests
                         (pending_delete (prop message "id") (pendingRequests c)) c in
              if truthy (prop message "error") then
                settle_request (p_promise pending) (p_awaiter pending)
                  (Rejected (NewError (prop (prop message "error") "message"))) c
              else
                settle_request (p_promise pending) (p_awaiter pending)
                  (Resolved (prop message "result")) c
          | None => c
          end
      | Some false =>
          match has_key "method" message with
          | Some true => emit (on_notification message) c
          | _ => c
          end
      end
  end.

Definition scheduleReconnect (c : McpClient) : McpClient :=
  match reconnectTimer c with
  | Some _ => c
  | None =>
      let t := timer_count c in
      let c := setTimeout reconnect_attempt (reconnectInterval (config c)) c in
      set_reconnectTimer (Some t) c
  end.

Definition handleDisconnect (reason : string) (c : McpClient) : McpClient :=
  let c := set_ws None c in
  let c := setState disconnected c in
  let c := emit (on_disconnect reason) c in
  if autoReconnect (config c) then scheduleReconnect c else c.

(** *** What the host delivers *)

(** A timer that is still armed fires: it is disarmed and its callback
    runs.  The callback of [scheduleReconnect] swallows the outcome of
    the [connect] it awaits. *)
Definition timer_fires (t : nat) (c : McpClient) : McpClient :=
  match timer_get t (timers c) with
  | None => c
  | Some a =>
      let c := set_timers (timer_remove t (timers c)) c in
      match a with
      | request_timeout id rp k =>
          let c := set_pendingRequests (map_delete id (pendingRequests c)) c in
          settle_request rp k (Rejected (NewError (JStr "Request timeout"))) c
      | reconnect_attempt =>
          let c := set_reconnectTimer None c in
          connect c
      end
  end.

(** The promise made in [connectWebSocket] settles at most once. *)
Definition ws_settle_opener (s : nat) (o : Outcome) (c : McpClient) : McpClient :=
  match nth_error (sockets c) s with
  | Some {| readyState := r; ws_opener := Some cp |} =>
      let c := set_sockets (list_set s {| readyState := r; ws_opener := None |} (sockets c)) c in
      connect_resume_transport cp o c
  | _ => c
  end.

Definition set_readyState (s : nat) (r : ReadyState) (c : McpClient) : McpClient :=
  match nth_error (sockets c) s with
  | Some sock => set_sockets (list_set s {| readyState := r; ws_opener := ws_opener sock |}
                                (sockets c)) c
  | None => c
  end.

Definition ready (s : nat) (c : McpClient) : option ReadyState :=
  option_map readyState (nth_error (sockets c) s).

(** ['open'] comes once, to a socket that is connecting. *)
Definition ws_on_open (s : nat) (c : McpClient) : McpClient :=
  match ready s c with
  | Some CONNECTING => ws_settle_opener s (Resolved JUndefined) (set_readyState s OPEN c)
  | _ => c
  end.

Definition ws_on_error (s : nat) (what : string) (c : McpClient) : McpClient :=
  ws_settle_opener s (Rejected (HostError what)) c.

Definition ws_on_message (s : nat) (data : string) (c : McpClient) : McpClient :=
  match ready s c with
  | Some _ => handleMessage data c
  | None => c
  end.

(** ['close'] comes once per socket, whoever closed it. *)
Definition ws_on_close (s : nat) (reason : string) (c : McpClient) : McpClient :=
  match ready s c with
  | Some CLOSED | None => c
  | Some _ => handleDisconnect reason (set_readyState s CLOSED c)
  end.

Definition es_settle_opener (e : nat) (o : Outcome) (c : McpClient) : McpClient :=
  match nth_error (sources c) e with
  | Some {| es_closed := false; es_opener := Some cp |} =>
      let c := set_sources (list_set e {| es_closed := false; es_opener := None |} (sources c)) c in
      connect_resume_transport cp o c
  | _ => c
  end.

Definition es_on_open (e : nat) (c : McpClient) : McpClient :=
  es_settle_opener e (Resolved JUndefined) c.

Definition es_on_error (e : nat) (c : McpClient) : McpClient :=
  es_settle_opener e (Rejected (NewError (JStr "SSE connection failed"))) c.

Definition es_on_message (e : nat) (data : string) (c : McpClient) : McpClient :=
  match nth_error (sources c) e with
  | Some {| es_closed := false |} => handleMessage data c
  | _ => c
  end.

Fixpoint fetch_get (f : nat) (l : list (nat * (nat * Awaiter))) : option (nat * Awaiter) :=
  match l with
  | [] => None
  | (f', x) :: l' => if Nat.eqb f f' then Some x else fetch_get f l'
  end.

Definition fetch_remove (f : nat) (l : list (nat * (nat * Awaiter))) :=
  filter (fun e => negb (Nat.eqb f (fst e))) l.

(** A POST in flight ends, with [o] what [request] makes of it. *)
Definition fetch_settles (f : nat) (o : Outcome) (c : McpClient) : McpClient :=
  match fetch_get f (fetches c) with
  | Some (rp, k) => settle_request rp k o (set_fetches (fetch_remove f (fetches c)) c)
  | None => c
  end.

Inductive Event :=
| call_connect
| call_disconnect
| call_request (method : string) (params : js)
| call_callTool (name : string) (args : js)
| call_on (ev : EventName) (h : nat)
| call_off (ev : EventName) (h : nat)
| ws_open (s : nat)
| ws_error (s : nat) (what : string)
| ws_message (s : nat) (data : string)
| ws_close (s : nat) (reason : string)
| es_open (e : nat)
| es_error (e : nat)
| es_message (e : nat) (data : string)
| timer (t : nat)
| fetch_failed (f : nat) (what : string)
| fetch_response (f : nat) (status : Z) (body : string).

Definition step (c : McpClient) (ev : Event) : McpClient :=
  match ev with
  | call_connect => connect c
  | call_disconnect => disconnect c
  | call_request method params => request by_caller method params c
  | call_callTool name args => callTool name args c
  | call_on ev h => on ev h c
  | call_off ev h => off ev h c
  | ws_open s => ws_on_open s c
  | ws_error s what => ws_on_error s what c
  | ws_message s data => ws_on_message s data c
  | ws_close s reason => ws_on_close s reason c
  | es_open e => es_on_open e c
  | es_error e => es_on_error e c
  | es_message e data => es_on_message e data c
  | timer t => timer_fires t c
  | fetch_failed f what => fetch_settles f (Rejected (HostError what)) c
  | fetch_response f status body => fetch_settles f (http_outcome status body) c
  end.

Definition run (evs : list Event) (c : McpClient) : McpClient :=
  fold_left step evs c.

End Client.

(** ** A JSON decoder

    The class is parametric in [JSON.parse].  The runs and the examples
    below instantiate it with this decoder of ASCII JSON texts (objects,
    arrays, strings with the one-letter escapes and [\u00XX], the three
    literals, decimal numerals).  A numeral whose decimal value is an
    integer is decoded to that integer, any other to [JFrac]. *)

Module Json.

Definition dquote : ascii := Eval compute in ascii_of_nat 34.
Definition backslash : ascii := Eval compute in ascii_of_nat 92.

Definition is_space (ch : ascii) : bool :=
  let n := nat_of_ascii ch in
  Nat.eqb n 32 || Nat.eqb n 9 || Nat.eqb n 10 || Nat.eqb n 13.

Fixpoint skip_space (s : string) : string :=
  match s with
  | String ch rest => if is_space ch then skip_space rest else s
  | EmptyString => s
  end.

Definition digit (ch : ascii) : option Z :=
  let n := nat_of_ascii ch in
  if Nat.leb 48 n && Nat.leb n 57 then Some (Z.of_nat (n - 48)) else None.

Definition hex (ch : ascii) : option nat :=
  let n := nat_of_ascii ch in
  if Nat.leb 48 n && Nat.leb n 57 then Some (n - 48)
  else if Nat.leb 65 n && Nat.leb n 70 then Some (n - 55)
  else if Nat.leb 97 n && Nat.leb n 102 then Some (n - 87)
  else None.

(** A run of digits: its value after [acc], how many there are, the rest. *)
Fixpoint digits (acc : Z) (count : nat) (s : string) : Z * nat * string :=
  match s with
  | String ch rest =>
      match digit ch with
      | Some d => digits (10 * acc + d) (S count) rest
      | None => (acc, count, s)
      end
  | EmptyString => (acc, count, s)
  end.

(** The characters of a string literal after its opening quote. *)
Fixpoint string_body (s : string) : option (string * string) :=
  match s with
  | EmptyString => None
  | String ch rest =>
      if Ascii.eqb ch dquote then Some (EmptyString, rest)
      else if Ascii.eqb ch backslash then
        match rest with
        | String e rest' =>
            let plain (x : ascii) :=
              match string_body rest' with
              | Some (body, r) => Some (String x body, r)
              | None => None
              end in
            if Ascii.eqb e dquote then plain dquote
            else if Ascii.eqb e backslash then plain backslash
            else if Ascii.eqb e "/" then plain "/"%char
            else if Ascii.eqb e "b" then plain (ascii_of_nat 8)
            else if Ascii.eqb e "f" then plain (ascii_of_nat 12)
            else if Ascii.eqb e "n" then plain (ascii_of_nat 10)
            else if Ascii.eqb e "r" then plain (ascii_of_nat 13)
            else if Ascii.eqb e "t" then plain (ascii_of_nat 9)
            else if Ascii.eqb e "u" then
              match rest' with
              | String h1 (String h2 (String h3 (String h4 rest''))) =>
                  match hex h1, hex h2, hex h3, hex h4 with
                  | Some 0, Some 0, Some a, Some b =>
                      match string_body rest'' with
                      | Some (body, r) => Some (String (ascii_of_nat (16 * a + b)) body, r)
                      | None => None
                      end
                  | _, _, _, _ => None
                  end
              | _ => None
              end
            else None
        | EmptyString => None
        end
      else if Nat.ltb (nat_of_ascii ch) 32 then None
      else
        match string_body rest with
        | Some (body, r) => Some (String ch body, r)
        | None => None
        end
  end.

(** [-? int frac? exp?] *)
Definition number (s : string) : option (js * string) :=
  let '(neg, s1) :=
    match s with
    | String "-" rest => (true, rest)
    | _ => (false, s)
    end in
  let '(ip, ic, s2) := digits 0 0 s1 in
  let leading_zero :=
    match s1 with
    | String "0" _ => Nat.ltb 1 ic
    | _ => false
    end in
  if Nat.eqb ic 0 || leading_zero then None else
  let frac :=
    match s2 with
    | String "." rest =>
        let '(m, fc, s3) := digits ip 0 rest in
        if Nat.eqb fc 0 then None else Some (m, fc, s3)
    | _ => Some (ip, 0, s2)
    end in
  match frac with
  | None => None
  | Some (m, fc, s3) =>
      let expo :=
        match s3 with
        | String ch rest =>
            if Ascii.eqb ch "e" || Ascii.eqb ch "E" then
              let '(eneg, r1) :=
                match rest with
                | String "-" r => (true, r)
                | String "+" r => (false, r)
                | _ => (false, rest)
                end in
              let '(e, ec, r2) := digits 0 0 r1 in
              if Nat.eqb ec 0 then None
              else Some (if eneg then (- e)%Z else e, r2)
            else Some (0%Z, s3)
        | EmptyString => Some (0%Z, s3)
        end in
      match expo with
      | None => None
      | Some (e, s4) =>
          let consumed := (String.length s - String.length s4)%nat in
          let scale := (e - Z.of_nat fc)%Z in
          let signed (v : Z) := if neg then (- v)%Z else v in
          if (0 <=? scale)%Z then Some (JNum (signed (m * 10 ^ scale)%Z), s4)
          else if (m mod 10 ^ (- scale) =? 0)%Z
          then Some (JNum (signed (m / 10 ^ (- scale))%Z), s4)
          else Some (JFrac (substring 0 consumed s), s4)
      end
  end.

(** Last occurrence of a key wins. *)
Fixpoint put (k : string) (v : js) (fs : list (string * js)) : list (string * js) :=
  match fs with
  | [] => [(k, v)]
  | (k', v') :: fs' => if (k =? k')%string then (k, v) :: fs' else (k', v') :: put k v fs'
  end.

Definition literal (word : string) (v : js) (s : string) : option (js * string) :=
  if prefix word s
  then Some (v, substring (String.length word) (String.length s - String.length word) s)
  else None.

Section Nested.
Variable value : string -> option (js * string).

(** Elements after the first, up to the closing bracket. *)
Fixpoint elements (fuel : nat) (acc : list js) (s : string) : option (js * string) :=
  match fuel with
  | O => None
  | S fuel' =>
      match skip_space s with
      | String "]" rest => Some (JArr (rev acc), rest)
      | String "," rest =>
          match value rest with
          | Some (v, rest') => elements fuel' (v :: acc) rest'
          | None => None
          end
      | _ => None
      end
  end.

Definition member (s : string) : option (string * js * string) :=
  match skip_space s with
  | String ch rest =>
      if Ascii.eqb ch dquote then
        match string_body rest with
        | Some (k, rest') =>
            match skip_space rest' with
            | String ":" rest'' =>
                match value rest'' with
                | Some (v, r) => Some (k, v, r)
                | None => None
                end
            | _ => None
            end
        | None => None
        end
      else None
  | EmptyString => None
  end.

Fixpoint members (fuel : nat) (acc : list (string * js)) (s : string) : option (js * string) :=
  match fuel with
  | O => None
  | S fuel' =>
      match skip_space s with
      | String "}" rest => Some (JObj acc, rest)
      | String "," rest =>
          match member rest with
          | Some (k, v, rest') => members fuel' (put k v acc) rest'
          | None => None
          end
      | _ => None
      end
  end.
End Nested.

Fixpoint value (fuel : nat) (s : string) : option (js * string) :=
  match fuel with
  | O => None
  | S fuel' =>
      match skip_space s with
      | EmptyString => None
      | String ch rest as s' =>
          if Ascii.eqb ch "{" then
            match skip_space rest with
            | String "}" rest' => Some (JObj [], rest')
            | _ =>
                match member (value fuel') rest with
                | Some (k, v, rest') => members (value fuel') fuel' [(k, v)] rest'
                | None => None
                end
            end
          else if Ascii.eqb ch "[" then
            match skip_space rest with
            | String "]" rest' => Some (JArr [], rest')
            | _ =>
                match value fuel' rest with
                | Some (v, rest') => elements (value fuel') fuel' [v] rest'
                | None => None
                end
            end
          else if Ascii.eqb ch dquote then
            match string_body rest with
            | Some (body, rest') => Some (JStr body, rest')
            | None => None
            end
          else if Ascii.eqb ch "t" then literal "true" (JBool true) s'
          else if Ascii.eqb ch "f" then literal "false" (JBool false) s'
          else if Ascii.eqb ch "n" then literal "null" JNull s'
          else number s'
      end
  end.

(** A whole text: one value and nothing but white space after it. *)
Definition decode (s : string) : option js :=
  match value (S (String.length s)) s with
  | Some (v, rest) =>
      match skip_space rest with
      | EmptyString => Some v
      | _ => None
      end
  | None => None
  end.

(** [String(v)] for the decoded values, up to the spelling of numerals. *)
Fixpoint to_string (v : js) : string :=
  match v with
  | JUndefined => "undefined"
  | JNull => "null"
  | JBool true => "true"
  | JBool false => "false"
  | JNum n => string_of_Z n
  | JFrac lit => lit
  | JStr s => s
  | JArr items =>
      let item (x : js) :=
        match x with
        | JUndefined | JNull => EmptyString
        | _ => to_string x
        end in
      (fix join (l : list js) : string :=
         match l with
         | [] => EmptyString
         | [x] => item x
         | x :: l' => (item x ++ "," ++ join l')%string
         end) items
  | JObj _ => "[object Object]"
  end.

Definition parse (v : js) : option js := decode (to_string v).

(** A string literal of JSON: [s] between double quotes. *)
Definition quoted (s : string) : string :=
  (String dquote s ++ String dquote EmptyString)%string.

End Json.

(** ** Observations on a trace *)

(** The ids of the request envelopes built so far, oldest first. *)
Definition request_ids (tr : list Effect) : list Z :=
  flat_map (fun e => match e with MkRequest r => [req_id r] | _ => [] end) tr.

(** The promises on which resolve or reject was called, one entry per call. *)
Definition settled (tr : list Effect) : list nat :=
  flat_map (fun e => match e with Settle p _ => [p] | _ => [] end) tr.

(** The states announced by [stateChange] events. *)
Definition state_changes (tr : list Effect) : list ConnectionState :=
  flat_map (fun e => match e with Emit (on_stateChange s) => [s] | _ => [] end) tr.

(** Each announced state differs from the one before it. *)
Fixpoint transitions (from : ConnectionState) (l : list ConnectionState) : Prop :=
  match l with
  | [] => True
  | s :: l' => from <> s /\ transitions s l'
  end.

Definition is_reconnect (e : nat * TimerAction) : bool :=
  match snd e with reconnect_attempt => true | _ => false end.

(** The handles of the armed reconnect timers. *)
Definition reconnect_timers (l : list (nat * TimerAction)) : list nat :=
  map fst (filter is_reconnect l).

Definition timeout_error : Outcome := Rejected (NewError (JStr "Request timeout")).

Definition not_connected_error : Outcome :=
  Rejected (NewError (JStr "WebSocket not connected")).


(** What the loop of [disconnect] does for the entries it visits. *)
Definition rejections (waiting : list (Z * Pending)) : list Effect :=
  flat_map (fun e => [ClearTimeout (p_timeout (snd e));
                      Settle (p_promise (snd e)) disconnected_error]) waiting.

(** The value of the request counter after [n] requests: [n], until it
    sticks at 2^53. *)
Definition nth_id (n : nat) : Z := Z.min (Z.of_nat n) (2 ^ 53).

(** ** Sample inputs *)

Module Sample.
Import Json.

Definition cfg : McpClientConfig := default_config "192.168.1.100".

Definition cfg_sse : McpClientConfig :=
  {| host := "192.168.1.100"; wsPort := 8765; httpPort := 8766; transport := http_sse;
     autoReconnect := true; reconnectInterval := 3000; timeout := 30000 |}.

(** [{"jsonrpc":"2.0","id":<id>,"result":<result>}] *)
Definition response (id : Z) (result : string) : string :=
  ("{" ++ quoted "jsonrpc" ++ ":" ++ quoted "2.0" ++ "," ++ quoted "id" ++ ":"
       ++ string_of_Z id ++ "," ++ quoted "result" ++ ":" ++ result ++ "}")%string.

(** The result of [initialize]. *)
Definition hello : string :=
  ("{" ++ quoted "protocolVersion" ++ ":" ++ quoted "2024-11-05" ++ ","
       ++ quoted "serverInfo" ++ ":{" ++ quoted "name" ++ ":" ++ quoted "anode" ++ ","
       ++ quoted "version" ++ ":" ++ quoted "1.0.0" ++ "},"
       ++ quoted "capabilities" ++ ":{}}")%string.

(** A client connects over a socket and the handshake completes. *)
Definition handshake : list Event :=
  [call_connect; ws_open 0; ws_message 0 (response 1 hello)].

(** [{"content":[{"type":"text","text":<text>}]}] as a decoded result. *)
Definition text_result (text : string) : js :=
  JObj [("content", JArr [JObj [("type", JStr "text"); ("text", JStr text)]])].

(** The text [{"a":1}]. *)
Definition a1 : string := ("{" ++ quoted "a" ++ ":1}")%string.

Definition image_result : js :=
  JObj [("content", JArr [JObj [("type", JStr "image"); ("data", JStr "iVBORw0KGgo=")]])].

(** A session that loses its socket with a [ping] outstanding, reconnects
    by its timer, shakes hands again and pings again. *)
Definition reconnecting : list Event :=
  handshake ++ [call_request "ping" JUndefined; ws_close 0 "gone"; timer 2;
                ws_open 1; ws_message 1 (response 3 hello);
                call_request "ping" JUndefined].

(** A session over http-sse: the stream opens, the handshake is answered
    by its POST, a [ping] is posted. *)
Definition over_sse : list Event :=
  [call_connect; es_open 0; fetch_response 0 200 (response 1 hello);
   call_request "ping" JUndefined].

(** A connected client with one [ping] outstanding (id 2, timer 1). *)
Definition pinging : McpClient :=
  run Json.parse (handshake ++ [call_request "ping" JUndefined]) (new_client cfg).

(** What [response id result] decodes to. *)
Definition reply (id : Z) (result : js) : js :=
  JObj [("jsonrpc", JStr "2.0"); ("id", JNum id); ("result", result)].

(** [{"jsonrpc":"2.0","method":"notifications/tools/list_changed"}] *)
Definition notice : string :=
  ("{" ++ quoted "jsonrpc" ++ ":" ++ quoted "2.0" ++ "," ++ quoted "method" ++ ":"
       ++ quoted "notifications/tools/list_changed" ++ "}")%string.

Definition notice_js : js :=
  JObj [("jsonrpc", JStr "2.0"); ("method", JStr "notifications/tools/list_changed")].

(** A connected client with handler 5 registered twice and handler 6
    once, in between, for [notification]. *)
Definition listening : McpClient :=
  run Json.parse
    ([call_on ev_notification 5; call_on ev_notification 6; call_on ev_notification 5]
       ++ handshake) (new_client cfg).

(** A session that is disconnected by the caller and connected again. *)
Definition again : list Event :=
  handshake ++ [call_disconnect; call_connect; ws_open 1; ws_message 1 (response 2 hello)].

(** [{"content":[{"type":"text","text":"<text>"}]}] *)
Definition text_envelope (text : string) : string :=
  ("{" ++ quoted "content" ++ ":[{" ++ quoted "type" ++ ":" ++ quoted "text" ++ ","
       ++ quoted "text" ++ ":" ++ quoted text ++ "}]}")%string.

End Sample.

(** ** Invariants of the reachable states *)

(** The fields that emitting events, changing state and settling promises
    leave alone. *)
Definition host_part (c : McpClient) :=
  (config c, ws c, eventSource c, requestId c, pendingRequests c, eventHandlers c,
   reconnectTimer c, sockets c, sources c, timers c, timer_count c, fetches c,
   fetch_count c, promise_count c).

(** Timers and table agree: handles are fresh and distinct, every entry
    of the table owns the armed timer of its request, and the armed
    reconnect timer is the one [reconnectTimer] names. *)
Record wf (c : McpClient) : Prop := {
  wf_handles : forall t a, In (t, a) (timers c) -> t < timer_count c;
  wf_unique : NoDup (map fst (timers c));
  wf_keys : NoDup (map fst (pendingRequests c));
  wf_pending : forall id e, In (id, e) (pendingRequests c) ->
      timer_get (p_timeout e) (timers c)
      = Some (request_timeout id (p_promise e) (p_awaiter e));
  wf_reconnect :
      reconnect_timers (timers c)
      = match reconnectTimer c with Some t => [t] | None => [] end
}.

(** The promise that the awaiter of a request settles in its turn. *)
Definition target (k : Awaiter) : list nat :=
  match k with
  | by_caller => []
  | by_callTool p => [p]
  | by_connect p => [p]
  end.

(** The promises a listener that is still installed can settle. *)
Definition timer_holds (e : nat * TimerAction) : list nat :=
  match snd e with
  | request_timeout _ rp k => rp :: target k
  | reconnect_attempt => []
  end.

Definition fetch_holds (e : nat * (nat * Awaiter)) : list nat :=
  fst (snd e) :: target (snd (snd e)).

Definition opener_list (o : option nat) : list nat :=
  match o with Some p => [p] | None => [] end.

Definition holders (c : McpClient) : list nat :=
  flat_map timer_holds (timers c) ++ flat_map fetch_holds (fetches c)
  ++ flat_map (fun s => opener_list (ws_opener s)) (sockets c)
  ++ flat_map (fun s => opener_list (es_opener s)) (sources c).

Definition occ (q : nat) (l : list nat) : nat := count_occ Nat.eq_dec l q.

(** How often [q] was settled plus how often it still can be. *)
Definition weight (c : McpClient) (q : nat) : nat :=
  occ q (settled (trace c)) + occ q (holders c).

Definition once (c : McpClient) : Prop :=
  (forall q, weight c q <= 1) /\ (forall q, promise_count c <= q -> weight c q = 0).

(** The request counter and the ids handed out so far. *)
Definition ids_ok (c : McpClient) : Prop :=
  let n := List.length (request_ids (trace c)) in
  request_ids (trace c) = map nth_id (seq 1 n) /\ requestId c = nth_id n.

(** The announced states are the states the session went through. *)
Definition states_ok (c : McpClient) : Prop :=
  transitions disconnected (state_changes (trace c))
  /\ last (state_changes (trace c)) disconnected = _state c.

(** On http-sse the instance never has a socket, a timer or a pending
    request. *)
Definition sse_ok (c : McpClient) : Prop :=
  transport (config c) = http_sse
  /\ pendingRequests c = [] /\ timers c = [] /\ reconnectTimer c = None
  /\ sockets c = [] /\ ws c = None.

(** The effects that neither announce a state nor hand out an id. *)
Definition benign (e : Effect) : bool :=
  match e with
  | Emit (on_stateChange _) | MkRequest _ => false
  | _ => true
  end.

(** What the timer of an entry of the table holds. *)
Definition entry_holds (e : Z * Pending) : list nat :=
  p_promise (snd e) :: target (p_awaiter (snd e)).

(** From [c] to [c'] the weights grew by the promises made meanwhile at
    most. *)
Definition grows (c c' : McpClient) : Prop :=
  promise_count c <= promise_count c'
  /\ forall q, weight c' q
               <= weight c q
                  + occ q (seq (promise_count c) (promise_count c' - promise_count c)).

(** What [disconnect] does before its loop. *)
Definition closing (c : McpClient) : list Effect :=
  match reconnectTimer c with Some t => [ClearTimeout t] | None => [] end
  ++ match ws c with Some s => [WsClose s 1000 "Client disconnect"] | None => [] end
  ++ match eventSource c with Some e => [EsClose e] | None => [] end.

(** From [c] to [c'] the configuration, the table, the timers and the
    reconnect timer stayed as they were. *)
Definition kept (c c' : McpClient) : Prop :=
  config c' = config c /\ pendingRequests c' = pendingRequests c
  /\ timers c' = timers c /\ timer_count c' = timer_count c
  /\ reconnectTimer c' = reconnectTimer c.

(** ** The stdio bridge

    The companion script (the Node program that follows src/index.ts in
    the sources) relays lines between standard input/output and
    one socket.  It is event driven like the class: its listeners are
    state transformers on a record that holds the three variables of the
    script ([ws], [connected], [messageQueue]) and the part of the host
    it talks to; what it does, and what it is given, is appended to a
    trace. *)

Module Bridge.

(** A JavaScript number as [parseInt] gives it. *)
Inductive number := Int (n : Z) | NaN.

Definition show (n : number) : string :=
  match n with
  | Int z => string_of_Z z
  | NaN => "NaN"
  end.

(** The object [config], after the environment was read. *)
Record Config := {
  host : string;
  port : number;
  reconnect : bool;
  reconnectInterval : number
}.

Inductive Action :=
| Line (line : string)                        (* readline delivered a line *)
| Frame (s : nat) (data : string)             (* socket [s] delivered a message *)
| New (s : nat) (url : string)                (* [new WebSocket(url)] *)
| Send (s : nat) (msg : string)               (* [ws.send(msg)] *)
| Close (s : nat) (code : Z) (reason : string)
| Stdout (text : string)                      (* [process.stdout.write] *)
| Stderr (text : string)                      (* [console.error('[anode-mcp]', ...)] *)
| SetTimeout (ms : number)                    (* [setTimeout(connect, ms)] *)
| Exit (code : Z)                             (* [process.exit(code)] *)
| Uncaught.                                   (* a listener threw *)

Record State := {
  config : Config;
  (* the variables of the script *)
  ws : option nat;
  connected : bool;
  messageQueue : list string;
  (* the host *)
  sockets : list ReadyState;
  timers : nat;                  (* armed [setTimeout(connect, ...)] *)
  exited : option Z;
  trace : list Action
}.

Definition set_ws (v : option nat) (c : State) : State :=
  {| config := config c; ws := v; connected := connected c; messageQueue := messageQueue c;
     sockets := sockets c; timers := timers c; exited := exited c; trace := trace c |}.

Definition set_connected (v : bool) (c : State) : State :=
  {| config := config c; ws := ws c; connected := v; messageQueue := messageQueue c;
     sockets := sockets c; timers := timers c; exited := exited c; trace := trace c |}.

Definition set_messageQueue (v : list string) (c : State) : State :=
  {| config := config c; ws := ws c; connected := connected c; messageQueue := v;
     sockets := sockets c; timers := timers c; exited := exited c; trace := trace c |}.

Definition set_sockets (v : list ReadyState) (c : State) : State :=
  {| config := config c; ws := ws c; connected := connected c; messageQueue := messageQueue c;
     sockets := v; timers := timers c; exited := exited c; trace := trace c |}.

Definition set_timers (v : nat) (c : State) : State :=
  {| config := config c; ws := ws c; connected := connected c; messageQueue := messageQueue c;
     sockets := sockets c; timers := v; exited := exited c; trace := trace c |}.

Definition set_exited (v : option Z) (c : State) : State :=
  {| config := config c; ws := ws c; connected := connected c; messageQueue := messageQueue c;
     sockets := sockets c; timers := timers c; exited := v; trace := trace c |}.

Definition act (a : Action) (c : State) : State :=
  {| config := config c; ws := ws c; connected := connected c; messageQueue := messageQueue c;
     sockets := sockets c; timers := timers c; exited := exited c; trace := trace c ++ [a] |}.

(** [log(...args)] *)
Definition log (text : string) (c : State) : State := act (Stderr text) c.

(** [process.exit(code)] *)
Definition exit (code : Z) (c : State) : State := set_exited (Some code) (act (Exit code) c).

(** An exception that leaves a listener ends the process with code 1. *)
Definition throw (c : State) : State := set_exited (Some 1%Z) (act Uncaught c).

Definition url (cfg : Config) : string :=
  ("ws://" ++ host cfg ++ ":" ++ show (port cfg))%string.

(** [function connect()], up to the installation of the listeners. *)
Definition connect (c : State) : State :=
  let c := log ("Connecting to " ++ url (config c) ++ "...") c in
  let s := List.length (sockets c) in
  let c := act (New s (url (config c))) (set_sockets (sockets c ++ [CONNECTING]) c) in
  set_ws (Some s) c.

(** [ws.send(msg)] on the variable [ws]: a TypeError when it is [null];
    the socket throws while it is connecting. *)
Definition send (msg : string) (c : State) : State :=
  match ws c with
  | None => throw c
  | Some s =>
      match nth_error (sockets c) s with
      | Some CONNECTING => throw c
      | _ => act (Send s msg) c
      end
  end.

(** [while (messageQueue.length > 0) { const msg = messageQueue.shift(); ws.send(msg); }] *)
Fixpoint flush (queue : list string) (c : State) : State :=
  match queue with
  | [] => c
  | msg :: rest =>
      let c := send msg (set_messageQueue rest c) in
      match exited c with
      | Some _ => c
      | None => flush rest c
      end
  end.

(** [ws.close(1000, 'Client closing')] when [ws] is set. *)
Definition close_ws (c : State) : State :=
  match ws c with
  | Some s =>
      let c :=
        match nth_error (sockets c) s with
        | Some CLOSED | None => c
        | Some _ => set_sockets (list_set s CLOSING (sockets c)) c
        end in
      act (Close s 1000 "Client closing") c
  | None => c
  end.

Definition leave (why : string) (c : State) : State :=
  exit 0 (close_ws (log why c)).

Definition on_open (s : nat) (c : State) : State :=
  match nth_error (sockets c) s with
  | Some CONNECTING =>
      let c := set_sockets (list_set s OPEN (sockets c)) c in
      let c := log "Connected to Anode MCP Server" c in
      let c := set_connected true c in
      flush (messageQueue c) c
  | _ => c
  end.

Definition on_message (s : nat) (data : string) (c : State) : State :=
  match nth_error (sockets c) s with
  | Some OPEN => act (Stdout (data ++ String "010" EmptyString)) (act (Frame s data) c)
  | _ => c
  end.

Definition on_close (s : nat) (code : Z) (reason : string) (c : State) : State :=
  match nth_error (sockets c) s with
  | Some CLOSED | None => c
  | Some _ =>
      let c := set_sockets (list_set s CLOSED (sockets c)) c in
      let c := log ("Disconnected: " ++ string_of_Z code ++ " " ++ reason) c in
      let c := set_connected false c in
      let c := set_ws None c in
      if reconnect (config c)
      then set_timers (S (timers c)) (act (SetTimeout (reconnectInterval (config c))) c)
      else exit 1 c
  end.

Definition on_error (s : nat) (what : string) (c : State) : State :=
  match nth_error (sockets c) s with
  | Some _ => log ("WebSocket error: " ++ what) c
  | None => c
  end.

Section Lines.

(** [!line.trim()] *)
Variable blank : string -> bool.

Definition on_line (line : string) (c : State) : State :=
  let c := act (Line line) c in
  if blank line then c
  else
    match connected c, ws c with
    | true, Some _ => send line c
    | _, _ => set_messageQueue (messageQueue c ++ [line]) c
    end.

Inductive Event :=
| ws_open (s : nat)
| ws_message (s : nat) (data : string)
| ws_close (s : nat) (code : Z) (reason : string)
| ws_error (s : nat) (what : string)
| line (text : string)
| stdin_close
| SIGINT
| SIGTERM
| timer.

Definition step (c : State) (ev : Event) : State :=
  match exited c with
  | Some _ => c
  | None =>
      match ev with
      | ws_open s => on_open s c
      | ws_message s data => on_message s data c
      | ws_close s code reason => on_close s code reason c
      | ws_error s what => on_error s what c
      | line text => on_line text c
      | stdin_close => leave "stdin closed, exiting..." c
      | SIGINT => leave "Received SIGINT, closing..." c
      | SIGTERM => leave "Received SIGTERM, closing..." c
      | timer =>
          match timers c with
          | O => c
          | S n => connect (set_timers n c)
          end
      end
  end.

(** The script runs [connect()] once at its end. *)
Definition start (cfg : Config) : State :=
  connect {| config := cfg; ws := None; connected := false; messageQueue := [];
             sockets := []; timers := 0; exited := None; trace := [] |}.

Definition run (cfg : Config) (evs : list Event) : State :=
  fold_left step evs (start cfg).

End Lines.

(** What a trace shows. *)
Definition sent (tr : list Action) : list string :=
  flat_map (fun a => match a with Send _ msg => [msg] | _ => [] end) tr.

Definition lines (tr : list Action) : list string :=
  flat_map (fun a => match a with Line l => [l] | _ => [] end) tr.

Definition frames (tr : list Action) : list string :=
  flat_map (fun a => match a with Frame _ data => [data] | _ => [] end) tr.

Definition stdout (tr : list Action) : list string :=
  flat_map (fun a => match a with Stdout text => [text] | _ => [] end) tr.

(** The state of the one socket that is not closed, if there is one. *)
Definition live (c : State) : list ReadyState :=
  match ws c with
  | Some _ => [if connected c then OPEN else CONNECTING]
  | None => []
  end.

(** While the script runs: all sockets but the one [ws] names are
    closed, a reconnect is armed exactly when there is no socket, and
    there is a socket unless reconnecting is on. *)
Definition running (c : State) : Prop :=
  (exists n, sockets c = repeat CLOSED n ++ live c /\ forall s, ws c = Some s -> s = n)
  /\ timers c = match ws c with Some _ => 0 | None => 1 end
  /\ (ws c = None -> connected c = false /\ reconnect (config c) = true).

(** Every line that is not blank was sent or is queued, in the order of
    arrival; the queue is empty while connected; every frame went to
    standard output; no listener threw. *)
Definition relays (blank : string -> bool) (c : State) : Prop :=
  sent (trace c) ++ messageQueue c = filter (fun l => negb (blank l)) (lines (trace c))
  /\ (connected c = true -> messageQueue c = [])
  /\ stdout (trace c) = map (fun data => (data ++ String "010" EmptyString)%string)
                          (frames (trace c))
  /\ ~ In Uncaught (trace c).

(** [!line.trim()] on a line of ASCII text, for the examples. *)
Definition is_space (ch : ascii) : bool :=
  match nat_of_ascii ch with
  | 9 | 10 | 11 | 12 | 13 | 32 => true
  | _ => false
  end.

Fixpoint ascii_blank (s : string) : bool :=
  match s with
  | EmptyString => true
  | String ch s' => is_space ch && ascii_blank s'
  end.

(** The three ways the script ends itself. *)
Definition leaves (ev : Event) : bool :=
  match ev with
  | stdin_close | SIGINT | SIGTERM => true
  | _ => false
  end.

End Bridge.

(** What the getter [server] returns, with the capabilities cached
    beside it. *)
Definition server (c : McpClient) : js * js := (serverInfo c, capabilities c).

(** The events that deliver an answer of the server. *)
Definition carries_answer (ev : Event) : bool :=
  match ev with
  | ws_message _ _ | es_message _ _ | fetch_response _ _ _ => true
  | _ => false
  end.

(** * Properties *)

Lemma state_eqb_spec a b : reflect (a = b) (state_eqb a b).
Proof. destruct a, b; simpl; constructor; congruence. Qed.

Lemma state_eqb_refl a : state_eqb a a = true.
Proof. now destruct a. Qed.

(** ** Every method is a composition of assignments *)

Lemma log_eq e c : log e c = set_trace (trace c ++ [e]) c.
Proof. reflexivity. Qed.

Lemma fold_log_eq (f : nat -> Effect) l : forall tr c,
  fold_left (fun c h => log (f h) c) l (set_trace tr c) = set_trace (tr ++ map f l) c.
Proof.
  induction l as [|h l IH]; intros tr c; simpl.
  - now rewrite app_nil_r.
  - change (log (f h) (set_trace tr c)) with (set_trace (tr ++ [f h]) c).
    rewrite IH, <- app_assoc. reflexivity.
Qed.

Lemma emit_eq e c :
  emit e c =
  set_trace (trace c ++ Emit e :: map (fun h => Invoke h e) (eventHandlers c (event_of e))) c.
Proof.
  unfold emit. rewrite log_eq.
  change (eventHandlers c (event_of e))
    with (eventHandlers (set_trace (trace c ++ [Emit e]) c) (event_of e)) at 1.
  simpl eventHandlers.
  rewrite (fold_log_eq (fun h => Invoke h e)), <- app_assoc. reflexivity.
Qed.

Lemma setState_same c : setState (_state c) c = c.
Proof. unfold setState. now rewrite state_eqb_refl. Qed.

Lemma setState_eq s c :
  setState s c =
  if state_eqb (_state c) s then c
  else set_trace (trace c ++ Emit (on_stateChange s)
                    :: map (fun h => Invoke h (on_stateChange s)) (eventHandlers c ev_stateChange))
         (set_state s c).
Proof. unfold setState. destruct (state_eqb (_state c) s); [reflexivity|]. now rewrite emit_eq. Qed.

(** ** Transport closure: [handleDisconnect] and [scheduleReconnect] *)

Lemma scheduleReconnect_pending c : pendingRequests (scheduleReconnect c) = pendingRequests c.
Proof. unfold scheduleReconnect. now destruct (reconnectTimer c). Qed.

Lemma scheduleReconnect_settled c : settled (trace (scheduleReconnect c)) = settled (trace c).
Proof.
  unfold scheduleReconnect, settled. destruct (reconnectTimer c); [reflexivity|]. simpl.
  rewrite flat_map_app. simpl. now rewrite app_nil_r.
Qed.

Lemma settled_app a b : settled (a ++ b) = settled a ++ settled b.
Proof. apply flat_map_app. Qed.

Lemma settled_invokes (e : Emission) l : settled (map (fun h => Invoke h e) l) = [].
Proof. induction l; simpl; auto. Qed.

Lemma emit_settled e c : settled (trace (emit e c)) = settled (trace c).
Proof.
  rewrite emit_eq. simpl. rewrite settled_app. simpl.
  now rewrite settled_invokes, app_nil_r.
Qed.

Lemma setState_settled s c : settled (trace (setState s c)) = settled (trace c).
Proof. unfold setState. destruct (state_eqb _ _); [reflexivity|]. now rewrite emit_settled. Qed.

Lemma setState_pending s c : pendingRequests (setState s c) = pendingRequests c.
Proof. rewrite setState_eq. now destruct (state_eqb _ _). Qed.

Lemma setState_state s c : _state (setState s c) = s.
Proof.
  rewrite setState_eq. destruct (state_eqb_spec (_state c) s); [assumption|reflexivity].
Qed.

(** A closure reported by the socket touches neither the table of pending
    requests nor any promise. *)
Lemma handleDisconnect_pending reason c :
  pendingRequests (handleDisconnect reason c) = pendingRequests c
  /\ settled (trace (handleDisconnect reason c)) = settled (trace c)
  /\ _state (handleDisconnect reason c) = disconnected.
Proof.
  unfold handleDisconnect.
  set (c1 := setState disconnected (set_ws None c)).
  assert (P1 : pendingRequests c1 = pendingRequests c) by (unfold c1; now rewrite setState_pending).
  assert (S1 : settled (trace c1) = settled (trace c)) by (unfold c1; now rewrite setState_settled).
  assert (T1 : _state c1 = disconnected) by apply setState_state.
  rewrite emit_eq. simpl.
  destruct (autoReconnect (config c1)).
  - rewrite scheduleReconnect_pending, scheduleReconnect_settled. simpl.
    rewrite settled_app. simpl. rewrite settled_invokes, app_nil_r.
    repeat split; auto.
    unfold scheduleReconnect. simpl. now destruct (reconnectTimer c1).
  - simpl. rewrite settled_app. simpl. rewrite settled_invokes, app_nil_r. auto.
Qed.

(** With auto-reconnect on, a reported closure leaves a reconnect timer
    armed, whatever came before it. *)
Lemma handleDisconnect_arms reason c :
  autoReconnect (config c) = true ->
  reconnectTimer (handleDisconnect reason c) <> None.
Proof.
  intros A. unfold handleDisconnect. rewrite emit_eq. simpl.
  assert (E : config (setState disconnected (set_ws None c)) = config c).
  { rewrite setState_eq. now destruct (state_eqb _ _). }
  rewrite E, A. unfold scheduleReconnect. simpl.
  destruct (reconnectTimer (setState disconnected (set_ws None c))) eqn:R; simpl; congruence.
Qed.

(** C1, the code at the failing input: a connected client with one [ping]
    outstanding is told by its socket that the connection closed.  The
    session becomes disconnected and a reconnect timer is armed, but the
    outstanding request stays in the table and its promise is not
    settled. *)
Theorem C1_closure_leaves_request_pending :
  let c := run Json.parse (Sample.handshake ++ [call_request "ping" JUndefined])
             (new_client Sample.cfg) in
  let c' := step Json.parse c (ws_close 0 "gone") in
  _state c = connected
  /\ pendingRequests c = [(2%Z, {| p_promise := 2; p_awaiter := by_caller; p_timeout := 1 |})]
  /\ settled (trace c) = [1; 0]
  /\ _state c' = disconnected
  /\ pendingRequests c' = pendingRequests c
  /\ settled (trace c') = settled (trace c)
  /\ reconnectTimer c' = Some 2
  /\ timers c' = [(1, request_timeout 2 2 by_caller); (2, reconnect_attempt)].
Proof. vm_compute. repeat split; reflexivity. Qed.

(** C2, the code at the failing input: the caller disconnects a connected
    client (auto-reconnect is on by default); the socket that
    [disconnect] closed then reports its closure.  [handleDisconnect]
    arms a reconnect timer, and when it fires the client opens a new
    socket. *)
Theorem C2_reconnects_after_explicit_disconnect :
  let c := run Json.parse (Sample.handshake ++ [call_disconnect]) (new_client Sample.cfg) in
  let c' := step Json.parse c (ws_close 0 "Client disconnect") in
  let c'' := step Json.parse c' (timer 1) in
  _state c = disconnected /\ reconnectTimer c = None /\ timers c = []
  /\ reconnectTimer c' = Some 1 /\ timers c' = [(1, reconnect_attempt)]
  /\ _state c'' = connecting /\ ws c'' = Some 1
  /\ In (WsNew 1 "ws://192.168.1.100:8765") (trace c'').
Proof.
  vm_compute. repeat split; try reflexivity.
  repeat match goal with |- _ \/ _ => first [left; reflexivity | right] end.
Qed.

(** ** [request] without a usable socket *)

Section Request.
Variable JSON_parse : js -> option js.

(** C9 (amended): on the websocket transport, for every method and
    params, a request issued while there is no socket, or while the
    socket is not open, is rejected inside the call with "WebSocket not
    connected"; it is not queued: no entry is added to the table of
    pending requests, no timer is armed, nothing is sent or posted. *)
Theorem C9_request_without_open_socket (method : string) (params : js) (c : McpClient) :
  transport (config c) = websocket ->
  (forall s, ws c = Some s -> is_open s c = false) ->
  let c' := request JSON_parse by_caller method params c in
  trace c' =
    trace c ++ [MkRequest {| req_id := pre_increment (requestId c);
                             req_method := method; req_params := params |};
                Settle (promise_count c) not_connected_error]
  /\ pendingRequests c' = pendingRequests c
  /\ timers c' = timers c
  /\ fetches c' = fetches c.
Proof.
  intros T W. unfold request. simpl. rewrite T.
  destruct (ws c) as [s|] eqn:E.
  - specialize (W s eq_refl). unfold is_open in *. simpl. 
    destruct (nth_error (sockets c) s) as [[[] o]|]; try discriminate W;
      simpl; rewrite <- app_assoc; auto.
  - simpl. rewrite <- app_assoc. auto.
Qed.

End Request.

(** C9, witness: [ping] on a client that never connected. *)
Lemma C9_witness :
  trace (request Json.parse by_caller "ping" JUndefined (new_client Sample.cfg)) =
    [MkRequest {| req_id := 1; req_method := "ping"; req_params := JUndefined |};
     Settle 0 not_connected_error]
  /\ pendingRequests (request Json.parse by_caller "ping" JUndefined (new_client Sample.cfg)) = [].
Proof.
  destruct (C9_request_without_open_socket Json.parse "ping" JUndefined (new_client Sample.cfg))
    as (T & P & _).
  - reflexivity.
  - intros s E. discriminate E.
  - split; [exact T | exact P].
Defined.

(** C9 as stated fails on the http-sse transport: with no event stream
    connected, [ping] is not rejected but posted, and the answer to the
    POST resolves it. *)
Lemma C9_http_sse_posts_unconnected :
  let c := request Json.parse by_caller "ping" JUndefined (new_client Sample.cfg_sse) in
  eventSource (new_client Sample.cfg_sse) = None
  /\ ws (new_client Sample.cfg_sse) = None
  /\ trace c =
       [MkRequest {| req_id := 1; req_method := "ping"; req_params := JUndefined |};
        Post 0 "http://192.168.1.100:8766/mcp/message"
          {| req_id := 1; req_method := "ping"; req_params := JUndefined |}]
  /\ settled (trace c) = []
  /\ trace (step Json.parse c (fetch_response 0 200 (Sample.response 1 "{}"))) =
       trace c ++ [Settle 0 (Resolved (JObj []))].
Proof. vm_compute. repeat split; reflexivity. Qed.

(** ** The result envelope of [callTool] *)

Section CallTool.
Variable JSON_parse : js -> option js.

(** C6 (amended): [callTool] hands the result of ["tools/call"] to
    [callTool_unwrap] and settles with what it gives.  On an envelope
    whose first content item has type ["text"] and a non-empty text, the
    text is JSON-decoded and the decoded value returned, or the text
    itself when it is not JSON; when the first item is not of type
    ["text"], or its text is missing or empty, the envelope is returned
    unchanged. *)
Theorem C6_callTool_unwrap (result : js) :
  result <> JUndefined -> result <> JNull ->
  let item := index0 (prop result "content") in
  (forall text v, prop item "type" = JStr "text" -> prop item "text" = JStr text ->
     text <> EmptyString -> JSON_parse (JStr text) = Some v ->
     callTool_unwrap JSON_parse result = Resolved v)
  /\ (forall text, prop item "type" = JStr "text" -> prop item "text" = JStr text ->
     text <> EmptyString -> JSON_parse (JStr text) = None ->
     callTool_unwrap JSON_parse result = Resolved (JStr text))
  /\ (prop item "type" <> JStr "text" -> callTool_unwrap JSON_parse result = Resolved result)
  /\ (prop item "text" = JUndefined \/ prop item "text" = JStr EmptyString ->
      callTool_unwrap JSON_parse result = Resolved result)
  /\ (forall tp c, trace (resume JSON_parse (by_callTool tp) (Resolved result) c) =
                   trace c ++ [Settle tp (callTool_unwrap JSON_parse result)]).
Proof.
  intros U N item.
  assert (nonempty : forall text, text <> EmptyString -> (text =? EmptyString)%string = false).
  { intros text H. now apply String.eqb_neq. }
  assert (unfolded : callTool_unwrap JSON_parse result =
            if is_text (prop item "type") && truthy (prop item "text") then
              match JSON_parse (prop item "text") with
              | Some v => Resolved v
              | None => Resolved (prop item "text")
              end
            else Resolved result).
  { unfold callTool_unwrap. destruct result; try reflexivity; congruence. }
  split; [|split; [|split; [|split]]].
  - intros text v Ty Tx Ne P. rewrite unfolded, Ty, Tx. simpl.
    now rewrite (nonempty _ Ne), P.
  - intros text Ty Tx Ne P. rewrite unfolded, Ty, Tx. simpl.
    now rewrite (nonempty _ Ne), P.
  - intros Ty. rewrite unfolded.
    destruct (prop item "type") as [| | | | |s| |]; try reflexivity. simpl.
    destruct (String.eqb_spec s "text"); [subst; congruence | reflexivity].
  - intros [E|E]; rewrite unfolded, E; simpl; now rewrite andb_false_r.
  - intros tp c. reflexivity.
Qed.

End CallTool.

(** C6, witness: the three envelopes of the specification. *)
Lemma C6_witness :
  callTool_unwrap Json.parse (Sample.text_result Sample.a1) = Resolved (JObj [("a", JNum 1)])
  /\ callTool_unwrap Json.parse (Sample.text_result "not json") = Resolved (JStr "not json")
  /\ callTool_unwrap Json.parse Sample.image_result = Resolved Sample.image_result.
Proof.
  split; [|split].
  - destruct (C6_callTool_unwrap Json.parse (Sample.text_result Sample.a1)) as (H & _);
      [discriminate | discriminate |].
    apply (H Sample.a1); [reflexivity | reflexivity | discriminate | reflexivity].
  - destruct (C6_callTool_unwrap Json.parse (Sample.text_result "not json")) as (_ & H & _);
      [discriminate | discriminate |].
    apply (H "not json"); [reflexivity | reflexivity | discriminate | reflexivity].
  - destruct (C6_callTool_unwrap Json.parse Sample.image_result) as (_ & _ & H & _);
      [discriminate | discriminate |].
    apply H. vm_compute. discriminate.
Defined.

(** C6 as stated fails on a text item whose text is empty: the empty
    text is not JSON, yet the literal text is not what [callTool] returns;
    it returns the envelope. *)
Lemma C6_empty_text_returns_envelope :
  Json.parse (JStr EmptyString) = None
  /\ callTool_unwrap Json.parse (Sample.text_result EmptyString)
     = Resolved (Sample.text_result EmptyString)
  /\ callTool_unwrap Json.parse (Sample.text_result EmptyString) <> Resolved (JStr EmptyString).
Proof. repeat split; try reflexivity. discriminate. Qed.

(** ** Quiet methods: events, state and settlement *)

Lemma host_part_log e c : host_part (log e c) = host_part c.
Proof. reflexivity. Qed.

Lemma host_part_emit e c : host_part (emit e c) = host_part c.
Proof. now rewrite emit_eq. Qed.

Lemma host_part_setState s c : host_part (setState s c) = host_part c.
Proof. rewrite setState_eq. now destruct (state_eqb _ _). Qed.

Lemma host_part_connect_catch cp e c : host_part (connect_catch cp e c) = host_part c.
Proof.
  unfold connect_catch, settle.
  now rewrite host_part_log, host_part_emit, host_part_setState.
Qed.

Section Quiet.
Variable JSON_parse : js -> option js.

Lemma host_part_connect_resume_initialize cp o c :
  host_part (connect_resume_initialize cp o c) = host_part c.
Proof.
  unfold connect_resume_initialize, settle.
  destruct o as [[]|]; try apply host_part_connect_catch;
    now rewrite host_part_log, host_part_emit, host_part_setState.
Qed.

Lemma host_part_resume k o c : host_part (resume JSON_parse k o c) = host_part c.
Proof.
  destruct k; simpl.
  - reflexivity.
  - unfold callTool_resume. now destruct o.
  - apply host_part_connect_resume_initialize.
Qed.

Lemma host_part_settle_request rp k o c :
  host_part (settle_request JSON_parse rp k o c) = host_part c.
Proof. unfold settle_request. now rewrite host_part_resume. Qed.

Lemma host_part_resume_all l : forall c,
  host_part (fold_left (resume_rejected JSON_parse) l c) = host_part c.
Proof.
  induction l as [|e l IH]; intros c; simpl; [reflexivity|].
  rewrite IH. apply host_part_resume.
Qed.

End Quiet.

(** From an equation between host parts, the equations between fields. *)
Ltac fields H :=
  let H' := fresh in
  pose proof H as H'; unfold host_part in H';
  injection H' as ?F_config ?F_ws ?F_es ?F_requestId ?F_pending ?F_handlers
                  ?F_reconnect ?F_sockets ?F_sources ?F_timers ?F_timer_count
                  ?F_fetches ?F_fetch_count ?F_promise_count.

(** What the quiet methods settle. *)
Lemma settled_log_settle p o c : settled (trace (log (Settle p o) c)) = settled (trace c) ++ [p].
Proof. simpl. now rewrite settled_app. Qed.

Lemma connect_catch_settled cp e c :
  settled (trace (connect_catch cp e c)) = settled (trace c) ++ [cp].
Proof.
  unfold connect_catch, settle.
  now rewrite settled_log_settle, emit_settled, setState_settled.
Qed.

Section QuietSettled.
Variable JSON_parse : js -> option js.

Lemma connect_resume_initialize_settled cp o c :
  settled (trace (connect_resume_initialize cp o c)) = settled (trace c) ++ [cp].
Proof.
  unfold connect_resume_initialize, settle.
  destruct o as [[]|]; try apply connect_catch_settled;
    now rewrite settled_log_settle, emit_settled, setState_settled.
Qed.

Lemma resume_settled k o c :
  settled (trace (resume JSON_parse k o c)) = settled (trace c) ++ target k.
Proof.
  destruct k; simpl.
  - now rewrite app_nil_r.
  - unfold callTool_resume, settle. destruct o; apply settled_log_settle.
  - apply connect_resume_initialize_settled.
Qed.

Lemma settle_request_settled rp k o c :
  settled (trace (settle_request JSON_parse rp k o c)) = settled (trace c) ++ rp :: target k.
Proof.
  unfold settle_request, settle.
  rewrite resume_settled, settled_log_settle, <- app_assoc. reflexivity.
Qed.

End QuietSettled.

(** ** Timers and the table of pending requests *)

Lemma timer_get_In t a l : timer_get t l = Some a -> In (t, a) l.
Proof.
  induction l as [|[t' a'] l IH]; simpl; [discriminate|].
  destruct (Nat.eqb_spec t t') as [->|N]; intros H.
  - injection H as ->. now left.
  - right. auto.
Qed.

Lemma timer_get_None t l : ~ In t (map fst l) -> timer_get t l = None.
Proof.
  induction l as [|[t' a'] l IH]; simpl; [reflexivity|]. intros H.
  destruct (Nat.eqb_spec t t') as [->|N]; [tauto|]. apply IH. tauto.
Qed.

Lemma In_timer_get t a l : NoDup (map fst l) -> In (t, a) l -> timer_get t l = Some a.
Proof.
  induction l as [|[t' a'] l IH]; simpl; [tauto|]. intros D [E|I].
  - injection E as -> ->. now rewrite Nat.eqb_refl.
  - inversion D as [|? ? N D']; subst.
    destruct (Nat.eqb_spec t t') as [->|_]; [|auto].
    exfalso. apply N. change t' with (fst (t', a)). now apply in_map.
Qed.

Lemma timer_get_app t l l' :
  timer_get t (l ++ l') = match timer_get t l with Some a => Some a | None => timer_get t l' end.
Proof.
  induction l as [|[t' a'] l IH]; simpl; [reflexivity|].
  now destruct (Nat.eqb t t').
Qed.

Lemma timer_get_remove t t' l :
  timer_get t' (timer_remove t l) = if Nat.eqb t t' then None else timer_get t' l.
Proof.
  unfold timer_remove.
  induction l as [|[t0 a0] l IH]; simpl.
  - now destruct (Nat.eqb t t').
  - destruct (Nat.eqb_spec t t0) as [->|N]; simpl.
    + rewrite IH. destruct (Nat.eqb_spec t0 t') as [->|N']; [reflexivity|].
      destruct (Nat.eqb_spec t' t0); [congruence|reflexivity].
    + rewrite IH. destruct (Nat.eqb_spec t t') as [->|N'].
      * destruct (Nat.eqb_spec t' t0); [congruence|reflexivity].
      * reflexivity.
Qed.

Lemma In_timer_remove t e l : In e (timer_remove t l) -> In e l.
Proof. unfold timer_remove. intros H. now apply filter_In in H. Qed.

Lemma NoDup_fst_filter {A B} (f : A * B -> bool) (l : list (A * B)) :
  NoDup (map fst l) -> NoDup (map fst (filter f l)).
Proof.
  induction l as [|x l IH]; simpl; [auto|]. intros D.
  inversion D as [|? ? N D']; subst.
  destruct (f x); simpl; [|auto]. constructor; [|auto].
  intros I. apply N. apply in_map_iff in I. destruct I as (y & E & I).
  apply filter_In in I. apply in_map_iff. exists y. tauto.
Qed.

Lemma reconnect_timers_app l l' :
  reconnect_timers (l ++ l') = reconnect_timers l ++ reconnect_timers l'.
Proof. unfold reconnect_timers. now rewrite filter_app, map_app. Qed.

Lemma reconnect_timers_remove t l :
  reconnect_timers (timer_remove t l)
  = filter (fun h => negb (Nat.eqb t h)) (reconnect_timers l).
Proof.
  unfold reconnect_timers, timer_remove.
  induction l as [|[t0 a0] l IH]; simpl; [reflexivity|].
  destruct (Nat.eqb t t0) eqn:E; simpl.
  - destruct (is_reconnect (t0, a0)); simpl; [rewrite E; simpl|]; exact IH.
  - destruct (is_reconnect (t0, a0)); simpl; [rewrite E; simpl; f_equal|]; exact IH.
Qed.

Lemma reconnect_timers_In t l : In t (reconnect_timers l) <-> In (t, reconnect_attempt) l.
Proof.
  unfold reconnect_timers. rewrite in_map_iff. split.
  - intros ([t' a] & E & I). simpl in E. subst. apply filter_In in I.
    destruct I as [I R]. unfold is_reconnect in R. simpl in R. now destruct a.
  - intros I. exists (t, reconnect_attempt). split; [reflexivity|].
    apply filter_In. now split.
Qed.

Lemma map_get_In k e m : map_get k m = Some e -> In (k, e) m.
Proof.
  induction m as [|[k' e'] m IH]; simpl; [discriminate|].
  destruct (Z.eqb_spec k k') as [->|N]; intros H.
  - injection H as ->. now left.
  - right. auto.
Qed.

Lemma In_map_set k' e' k e m :
  In (k', e') (map_set k e m) -> (k', e') = (k, e) \/ In (k', e') m.
Proof.
  induction m as [|[k0 e0] m IH]; simpl.
  - intros [H|[]]. left. congruence.
  - destruct (Z.eqb k k0); simpl; intros [H|H].
    + left. congruence.
    + right. now right.
    + right. now left.
    + destruct (IH H); [now left | right; now right].
Qed.

Lemma map_set_keys k e m x :
  In x (map fst (map_set k e m)) <-> x = k \/ In x (map fst m).
Proof.
  induction m as [|[k0 e0] m IH]; simpl.
  - intuition.
  - destruct (Z.eqb_spec k k0) as [->|N]; simpl; [intuition|].
    rewrite IH. intuition.
Qed.

Lemma map_set_NoDup k e m : NoDup (map fst m) -> NoDup (map fst (map_set k e m)).
Proof.
  induction m as [|[k0 e0] m IH]; simpl; intros D.
  - constructor; [simpl; tauto | constructor].
  - inversion D as [|? ? N D']; subst.
    destruct (Z.eqb_spec k k0) as [->|Ne]; simpl.
    + now constructor.
    + constructor; [|auto]. rewrite map_set_keys. intros [E|I]; [congruence|tauto].
Qed.

Lemma In_map_delete k' e' k m :
  In (k', e') (map_delete k m) <-> k' <> k /\ In (k', e') m.
Proof.
  unfold map_delete. rewrite filter_In. simpl.
  destruct (Z.eqb_spec k k'); simpl; intuition congruence.
Qed.

Lemma map_get_delete k m : map_get k (map_delete k m) = None.
Proof.
  unfold map_delete.
  induction m as [|[k0 e0] m IH]; simpl; [reflexivity|].
  destruct (Z.eqb_spec k k0) as [->|N]; simpl; [exact IH|].
  destruct (Z.eqb_spec k k0); [congruence|exact IH].
Qed.

(** ** Timers and table stay in agreement *)

Lemma wf_ext c c' :
  timers c' = timers c -> timer_count c' = timer_count c ->
  pendingRequests c' = pendingRequests c -> reconnectTimer c' = reconnectTimer c ->
  wf c -> wf c'.
Proof.
  intros T N P R [H1 H2 H3 H4 H5].
  constructor; rewrite ?T, ?N, ?P, ?R; assumption.
Qed.

Lemma wf_host c c' : host_part c' = host_part c -> wf c -> wf c'.
Proof. intros H. fields H. now apply wf_ext. Qed.

Lemma wf_new cfg : wf (new_client cfg).
Proof. constructor; simpl; try constructor; tauto. Qed.

Lemma NoDup_snoc {A} (l : list A) x : NoDup l -> ~ In x l -> NoDup (l ++ [x]).
Proof.
  induction l as [|y l IH]; simpl; intros D N.
  - constructor; [tauto | constructor].
  - inversion D; subst. constructor.
    + rewrite in_app_iff. simpl. intuition.
    + apply IH; tauto.
Qed.

Lemma fresh_handle c : wf c -> ~ In (timer_count c) (map fst (timers c)).
Proof.
  intros W I. apply in_map_iff in I. destruct I as ([t a] & E & I). simpl in E. subst.
  apply (wf_handles c W) in I. lia.
Qed.

(** Arming a timer, for a request that enters the table or for a
    reconnect. *)
Lemma wf_arm_request c id rp k ms :
  wf c ->
  wf (set_pendingRequests
        (map_set id {| p_promise := rp; p_awaiter := k; p_timeout := timer_count c |}
           (pendingRequests c))
        (setTimeout (request_timeout id rp k) ms c)).
Proof.
  intros W. pose proof (fresh_handle c W) as F. destruct W as [H1 H2 H3 H4 H5].
  constructor; simpl.
  - intros t a I. apply in_app_iff in I. destruct I as [I|[I|[]]].
    + apply H1 in I. lia.
    + injection I as <- _. lia.
  - rewrite map_app. simpl. now apply NoDup_snoc.
  - now apply map_set_NoDup.
  - intros id' e' I. rewrite timer_get_app.
    apply In_map_set in I. destruct I as [E|I].
    + injection E as -> ->. simpl. rewrite (timer_get_None _ _ F). simpl.
      now rewrite Nat.eqb_refl.
    + now rewrite (H4 _ _ I).
  - rewrite reconnect_timers_app, H5. simpl. now rewrite app_nil_r.
Qed.

Lemma wf_scheduleReconnect c : wf c -> wf (scheduleReconnect c).
Proof.
  intros W. unfold scheduleReconnect. destruct (reconnectTimer c) eqn:R; [assumption|].
  pose proof (fresh_handle c W) as F. destruct W as [H1 H2 H3 H4 H5].
  constructor; simpl.
  - intros t a I. apply in_app_iff in I. destruct I as [I|[I|[]]].
    + apply H1 in I. lia.
    + injection I as <- _. lia.
  - rewrite map_app. simpl. now apply NoDup_snoc.
  - assumption.
  - intros id e I. rewrite timer_get_app. now rewrite (H4 _ _ I).
  - rewrite reconnect_timers_app, H5, R. reflexivity.
Qed.

(** A request timer goes away together with the entry of its id. *)
Lemma wf_retire c t id rp k :
  wf c -> timer_get t (timers c) = Some (request_timeout id rp k) ->
  wf (set_pendingRequests (map_delete id (pendingRequests c))
        (set_timers (timer_remove t (timers c)) c)).
Proof.
  intros [H1 H2 H3 H4 H5] G. constructor; simpl.
  - intros t' a I. apply In_timer_remove in I. eauto.
  - now apply NoDup_fst_filter.
  - now apply NoDup_fst_filter.
  - intros id' e' I. apply In_map_delete in I. destruct I as [N I].
    rewrite timer_get_remove. destruct (Nat.eqb_spec t (p_timeout e')) as [->|_].
    + rewrite (H4 _ _ I) in G. congruence.
    + auto.
  - rewrite reconnect_timers_remove, H5.
    destruct (reconnectTimer c) as [t0|] eqn:R; [|reflexivity]. simpl.
    destruct (Nat.eqb_spec t t0) as [->|_]; [|reflexivity]. exfalso.
    assert (I : In t0 (reconnect_timers (timers c))) by (rewrite H5; now left).
    apply reconnect_timers_In in I. rewrite (In_timer_get _ _ _ H2 I) in G. discriminate.
Qed.

(** The reconnect timer goes away. *)
Lemma wf_reconnect_gone c t :
  wf c -> timer_get t (timers c) = Some reconnect_attempt ->
  wf (set_reconnectTimer None (set_timers (timer_remove t (timers c)) c)).
Proof.
  intros [H1 H2 H3 H4 H5] G. constructor; simpl.
  - intros t' a I. apply In_timer_remove in I. eauto.
  - now apply NoDup_fst_filter.
  - assumption.
  - intros id e I. rewrite timer_get_remove.
    destruct (Nat.eqb_spec t (p_timeout e)) as [->|_]; [|auto].
    rewrite (H4 _ _ I) in G. discriminate.
  - rewrite reconnect_timers_remove, H5.
    apply timer_get_In, reconnect_timers_In in G. rewrite H5 in G.
    destruct (reconnectTimer c) as [t0|]; [|reflexivity].
    destruct G as [->|[]]. simpl. now rewrite Nat.eqb_refl.
Qed.

Lemma wf_stopReconnectTimer c :
  wf c -> wf (stopReconnectTimer c) /\ reconnectTimer (stopReconnectTimer c) = None.
Proof.
  intros W. unfold stopReconnectTimer. destruct (reconnectTimer c) as [t|] eqn:R.
  - split; [|reflexivity].
    apply (wf_ext (set_reconnectTimer None (set_timers (timer_remove t (timers c)) c)));
      try reflexivity.
    apply wf_reconnect_gone; [assumption|].
    apply In_timer_get; [apply (wf_unique c W)|]. apply reconnect_timers_In.
    rewrite (wf_reconnect c W), R. now left.
  - now split.
Qed.

Lemma host_part_connect_kept c :
  timers (connect c) = timers c /\ timer_count (connect c) = timer_count c
  /\ pendingRequests (connect c) = pendingRequests c
  /\ reconnectTimer (connect c) = reconnectTimer c
  /\ fetches (connect c) = fetches c
  /\ config (connect c) = config c.
Proof.
  unfold connect. simpl. destruct (state_eqb (_state c) connected); [now simpl|].
  pose proof (host_part_setState connecting (new_promise c)) as H. fields H.
  destruct (transport (config (setState connecting (new_promise c))));
    simpl; repeat split; assumption.
Qed.

Lemma wf_connect c : wf c -> wf (connect c).
Proof.
  destruct (host_part_connect_kept c) as (T & N & P & R & _). now apply wf_ext.
Qed.

Lemma wf_handleDisconnect reason c : wf c -> wf (handleDisconnect reason c).
Proof.
  intros W. unfold handleDisconnect.
  assert (W' : wf (emit (on_disconnect reason) (setState disconnected (set_ws None c)))).
  { apply (wf_host (set_ws None c)).
    - now rewrite host_part_emit, host_part_setState.
    - revert W. now apply wf_ext. }
  destruct (autoReconnect _); [now apply wf_scheduleReconnect | assumption].
Qed.

Lemma fold_reject_pending l : forall c,
  timers (fold_left reject_pending l c)
  = fold_left (fun ts e => timer_remove (p_timeout (snd e)) ts) l (timers c)
  /\ timer_count (fold_left reject_pending l c) = timer_count c
  /\ reconnectTimer (fold_left reject_pending l c) = reconnectTimer c
  /\ fetches (fold_left reject_pending l c) = fetches c
  /\ sockets (fold_left reject_pending l c) = sockets c
  /\ sources (fold_left reject_pending l c) = sources c
  /\ promise_count (fold_left reject_pending l c) = promise_count c
  /\ config (fold_left reject_pending l c) = config c
  /\ trace (fold_left reject_pending l c) = trace c ++ rejections l.
Proof.
  induction l as [|e l IH]; intros c; simpl.
  - rewrite app_nil_r. tauto.
  - destruct (IH (reject_pending c e)) as (T & N & R & F & S & S' & P & C & Tr).
    rewrite T, N, R, F, S, S', P, C, Tr. unfold reject_pending, settle, clearTimeout. simpl.
    rewrite <- !app_assoc. simpl. tauto.
Qed.

(** After [stopReconnectTimer], clearing timers keeps them a duplicate-free
    set of request timers. *)
Lemma fold_remove_request_timers n l : forall ts,
  (forall t a, In (t, a) ts -> t < n) -> NoDup (map fst ts) -> reconnect_timers ts = [] ->
  let ts' := fold_left (fun ts (e : Z * Pending) => timer_remove (p_timeout (snd e)) ts) l ts in
  (forall t a, In (t, a) ts' -> t < n) /\ NoDup (map fst ts') /\ reconnect_timers ts' = [].
Proof.
  induction l as [|e l IH]; intros ts B D R; simpl; [tauto|].
  apply IH.
  - intros t a I. apply In_timer_remove in I. eauto.
  - now apply NoDup_fst_filter.
  - now rewrite reconnect_timers_remove, R.
Qed.

Section Preserved.
Variable JSON_parse : js -> option js.

Lemma wf_settle_request rp k o c : wf c -> wf (settle_request JSON_parse rp k o c).
Proof. apply wf_host, host_part_settle_request. Qed.

Lemma wf_request k method params c : wf c -> wf (request JSON_parse k method params c).
Proof.
  intros W. unfold request.
  set (r := {| req_id := _ |}).
  set (c0 := new_promise (log (MkRequest r) (set_requestId _ c))).
  assert (W0 : wf c0) by (revert W; now apply wf_ext).
  clearbody c0. destruct (transport (config c0)).
  - destruct (ws c0) as [s|]; [|now apply wf_settle_request].
    destruct (is_open s c0); [|now apply wf_settle_request].
    unfold ws_send.
    eapply wf_ext; [..|apply (wf_arm_request c0 (req_id r) (promise_count c)
                                   k (timeout (config c0)) W0)]; reflexivity.
  - revert W0. now apply wf_ext.
Qed.

Lemma wf_callTool name args c : wf c -> wf (callTool JSON_parse name args c).
Proof.
  intros W. unfold callTool. apply wf_request. revert W. now apply wf_ext.
Qed.

Lemma wf_connect_resume_transport cp o c :
  wf c -> wf (connect_resume_transport JSON_parse cp o c).
Proof.
  intros W. destruct o; simpl.
  - unfold initialize. apply wf_request. exact W.
  - revert W. apply wf_host, host_part_connect_catch.
Qed.

Lemma wf_handleMessage data c : wf c -> wf (handleMessage JSON_parse data c).
Proof.
  intros W. unfold handleMessage.
  destruct (JSON_parse (JStr data)) as [message|]; [|revert W; now apply wf_ext].
  destruct (has_key "id" message) as [[]|]; [| |revert W; now apply wf_ext].
  - destruct (pending_get _ _) as [pending|] eqn:G; [|assumption].
    destruct (prop message "id") as [| | |id| | | |]; try discriminate G.
    simpl in G. apply map_get_In in G.
    pose proof (wf_pending c W _ _ G) as T.
    pose proof (wf_retire c _ _ _ _ W T) as W1.
    destruct (truthy _); apply wf_settle_request; revert W1; now apply wf_ext.
  - destruct (has_key "method" message) as [[]|]; try assumption.
    revert W. apply wf_host, host_part_emit.
Qed.

Lemma wf_timer_fires t c : wf c -> wf (timer_fires JSON_parse t c).
Proof.
  intros W. unfold timer_fires. destruct (timer_get t (timers c)) as [[id rp k|]|] eqn:G.
  - apply wf_settle_request. now apply (wf_retire c t id rp k).
  - apply wf_connect. now apply wf_reconnect_gone.
  - assumption.
Qed.

Lemma wf_disconnect c :
  wf c -> wf (disconnect JSON_parse c) /\ reconnectTimer (disconnect JSON_parse c) = None
  /\ pendingRequests (disconnect JSON_parse c) = []
  /\ reconnect_timers (timers (disconnect JSON_parse c)) = [].
Proof.
  intros W. unfold disconnect.
  set (c1 := stopReconnectTimer (new_promise c)).
  assert (W1 : wf c1 /\ reconnectTimer c1 = None).
  { apply wf_stopReconnectTimer. revert W. now apply wf_ext. }
  destruct W1 as [W1 R1].
  set (c2 := match ws c1 with Some s => _ | None => c1 end).
  assert (E2 : timers c2 = timers c1 /\ timer_count c2 = timer_count c1
               /\ reconnectTimer c2 = reconnectTimer c1
               /\ pendingRequests c2 = pendingRequests c1).
  { unfold c2, ws_close_call. destruct (ws c1); [|tauto]. simpl.
    destruct (nth_error _ _) as [sock|]; [|tauto]. now destruct (readyState sock). }
  set (c3 := match eventSource c2 with Some e => _ | None => c2 end).
  assert (E3 : timers c3 = timers c1 /\ timer_count c3 = timer_count c1
               /\ reconnectTimer c3 = None).
  { destruct E2 as (T & N & R & _). rewrite <- T, <- N, <- R1, <- R.
    unfold c3, es_close_call. destruct (eventSource c2); [|tauto]. simpl.
    now destruct (nth_error _ _). }
  destruct E3 as (T3 & N3 & R3).
  clearbody c3.
  set (waiting := pendingRequests c3).
  destruct (fold_reject_pending waiting c3) as (T & N & R & _).
  set (c4 := fold_left reject_pending waiting c3) in *.
  set (c5 := settle (promise_count c) (Resolved JUndefined)
               (emit (on_disconnect "Client initiated")
                  (setState disconnected (set_pendingRequests [] c4)))).
  assert (H5 : host_part c5 = host_part (set_pendingRequests [] c4)).
  { unfold c5, settle. now rewrite host_part_log, host_part_emit, host_part_setState. }
  assert (H : host_part (fold_left (resume_rejected JSON_parse) (filter awaits_connect waiting)
                 (fold_left (resume_rejected JSON_parse) (filter awaits_tool waiting) c5))
              = host_part (set_pendingRequests [] c4)).
  { now rewrite !host_part_resume_all. }
  fields H. simpl in *.
  destruct W1 as [H1 H2 _ _ H3]. rewrite R1 in H3.
  destruct (fold_remove_request_timers (timer_count c1) waiting (timers c1) H1 H2 H3)
    as (B & D & Rt).
  rewrite <- T3 in B, D, Rt. rewrite <- T in B, D, Rt.
  repeat split.
  - intros t a. rewrite F_timers, F_timer_count, N, N3. apply B.
  - now rewrite F_timers.
  - rewrite F_pending. constructor.
  - rewrite F_pending. intros id e [].
  - rewrite F_timers, F_reconnect, R, R3. exact Rt.
  - now rewrite F_reconnect, R.
  - assumption.
  - now rewrite F_timers.
Qed.

Lemma wf_ws_settle_opener s o c : wf c -> wf (ws_settle_opener JSON_parse s o c).
Proof.
  intros W. unfold ws_settle_opener.
  destruct (nth_error (sockets c) s) as [[r [cp|]]|]; try assumption.
  apply wf_connect_resume_transport. revert W. now apply wf_ext.
Qed.

Lemma wf_set_readyState s r c : wf c -> wf (set_readyState s r c).
Proof.
  intros W. unfold set_readyState. destruct (nth_error _ _); [|assumption].
  revert W. now apply wf_ext.
Qed.

Lemma wf_es_settle_opener e o c : wf c -> wf (es_settle_opener JSON_parse e o c).
Proof.
  intros W. unfold es_settle_opener.
  destruct (nth_error (sources c) e) as [[[] [cp|]]|]; try assumption.
  apply wf_connect_resume_transport. revert W. now apply wf_ext.
Qed.

Lemma wf_fetch_settles f o c : wf c -> wf (fetch_settles JSON_parse f o c).
Proof.
  intros W. unfold fetch_settles. destruct (fetch_get f (fetches c)) as [[rp k]|]; [|assumption].
  apply wf_settle_request. revert W. now apply wf_ext.
Qed.

Lemma wf_step c ev : wf c -> wf (step JSON_parse c ev).
Proof.
  intros W. destruct ev; simpl.
  - now apply wf_connect.
  - now apply wf_disconnect.
  - now apply wf_request.
  - now apply wf_callTool.
  - revert W. now apply wf_ext.
  - revert W. now apply wf_ext.
  - unfold ws_on_open. destruct (ready s c) as [[]|]; try assumption.
    now apply wf_ws_settle_opener, wf_set_readyState.
  - now apply wf_ws_settle_opener.
  - unfold ws_on_message. destruct (ready s c); [now apply wf_handleMessage | assumption].
  - unfold ws_on_close.
    destruct (ready s c) as [[]|]; try assumption;
      now apply wf_handleDisconnect, wf_set_readyState.
  - now apply wf_es_settle_opener.
  - now apply wf_es_settle_opener.
  - unfold es_on_message. destruct (nth_error (sources c) e) as [[[] ?]|]; try assumption.
    now apply wf_handleMessage.
  - now apply wf_timer_fires.
  - now apply wf_fetch_settles.
  - now apply wf_fetch_settles.
Qed.

Lemma wf_run evs : forall c, wf c -> wf (run JSON_parse evs c).
Proof.
  induction evs as [|ev evs IH]; intros c W; simpl; [assumption|].
  apply IH. now apply wf_step.
Qed.

End Preserved.

(** ** The reconnect timer *)

Lemma scheduleReconnect_armed c : reconnectTimer c <> None -> scheduleReconnect c = c.
Proof. unfold scheduleReconnect. destruct (reconnectTimer c); [reflexivity|congruence]. Qed.

Lemma handleDisconnect_before_schedule reason c :
  host_part (emit (on_disconnect reason) (setState disconnected (set_ws None c)))
  = host_part (set_ws None c).
Proof. now rewrite host_part_emit, host_part_setState. Qed.

Lemma handleDisconnect_again reason c :
  reconnectTimer c <> None ->
  timers (handleDisconnect reason c) = timers c
  /\ reconnectTimer (handleDisconnect reason c) = reconnectTimer c.
Proof.
  intros A. unfold handleDisconnect.
  pose proof (handleDisconnect_before_schedule reason c) as H.
  set (c1 := emit _ _) in *. fields H. simpl in *.
  destruct (autoReconnect (config c1)); [|tauto].
  rewrite scheduleReconnect_armed; [tauto|]. now rewrite F_reconnect.
Qed.

Lemma handleDisconnect_manual reason c :
  autoReconnect (config c) = false ->
  timers (handleDisconnect reason c) = timers c
  /\ reconnectTimer (handleDisconnect reason c) = reconnectTimer c.
Proof.
  intros A. unfold handleDisconnect.
  pose proof (handleDisconnect_before_schedule reason c) as H.
  set (c1 := emit _ _) in *. fields H. simpl in *.
  rewrite F_config, A. tauto.
Qed.

Lemma handleDisconnect_config reason c : config (handleDisconnect reason c) = config c.
Proof.
  unfold handleDisconnect.
  pose proof (handleDisconnect_before_schedule reason c) as H.
  set (c1 := emit _ _) in *. fields H. simpl in *.
  destruct (autoReconnect (config c1)); [|assumption].
  unfold scheduleReconnect. now destruct (reconnectTimer c1).
Qed.

(** X1: in every state the client can reach, the armed reconnect timers
    are exactly the one [reconnectTimer] names, so there is never more
    than one; and a closure reported right after another closure arms no
    further timer. *)
Theorem reconnect_timer_unique :
  (forall JSON_parse cfg evs,
     let c := run JSON_parse evs (new_client cfg) in
     reconnect_timers (timers c) = opener_list (reconnectTimer c)
     /\ List.length (reconnect_timers (timers c)) <= 1)
  /\ (forall c first second,
        timers (handleDisconnect second (handleDisconnect first c))
        = timers (handleDisconnect first c)).
Proof.
  split.
  - intros JSON_parse cfg evs c.
    pose proof (wf_run JSON_parse evs _ (wf_new cfg)) as W. fold c in W.
    rewrite (wf_reconnect c W). split.
    + now destruct (reconnectTimer c).
    + destruct (reconnectTimer c); simpl; lia.
  - intros c first second.
    destruct (autoReconnect (config c)) eqn:A.
    + apply handleDisconnect_again. now apply handleDisconnect_arms.
    + apply handleDisconnect_manual. now rewrite handleDisconnect_config.
Qed.

(** ** Properties of the trace that every method keeps

    A property of the trace, the state and the request counter that is
    kept by benign effects, by [setState] and by the first two lines of
    [request] is kept by every method and every listener. *)

Section Stable.
Variable JSON_parse : js -> option js.
Variable P : McpClient -> Prop.

Hypothesis P_ext : forall c c',
  trace c' = trace c -> _state c' = _state c -> requestId c' = requestId c -> P c -> P c'.
Hypothesis P_log : forall e c, benign e = true -> P c -> P (log e c).
Hypothesis P_setState : forall s c, P c -> P (setState s c).
Hypothesis P_envelope : forall method params c,
  P c ->
  P (log (MkRequest {| req_id := pre_increment (requestId c);
                       req_method := method; req_params := params |})
       (set_requestId (pre_increment (requestId c)) c)).

Lemma P_invokes e l : forall c, P c -> P (fold_left (fun c h => log (Invoke h e) c) l c).
Proof. induction l as [|h l IH]; intros c H; simpl; [assumption|]. apply IH. now apply P_log. Qed.

Lemma P_emit e c : benign (Emit e) = true -> P c -> P (emit e c).
Proof. intros B H. unfold emit. apply P_invokes. now apply P_log. Qed.

Lemma P_settle p o c : P c -> P (settle p o c).
Proof. now apply P_log. Qed.

(** One step of a goal [P (f ... c)] towards [P c]. *)
Ltac keep :=
  match goal with
  | H : P ?c |- P ?c => exact H
  | |- P (log _ _) => apply P_log; [reflexivity|]
  | |- P (settle _ _ _) => apply P_settle
  | |- P (emit _ _) => apply P_emit; [reflexivity|]
  | |- P (setState _ _) => apply P_setState
  | |- P (set_ws _ ?c) => apply (P_ext c); [reflexivity..|]
  | |- P (set_eventSource _ ?c) => apply (P_ext c); [reflexivity..|]
  | |- P (set_pendingRequests _ ?c) => apply (P_ext c); [reflexivity..|]
  | |- P (set_eventHandlers _ ?c) => apply (P_ext c); [reflexivity..|]
  | |- P (set_reconnectTimer _ ?c) => apply (P_ext c); [reflexivity..|]
  | |- P (set_serverInfo _ ?c) => apply (P_ext c); [reflexivity..|]
  | |- P (set_capabilities _ ?c) => apply (P_ext c); [reflexivity..|]
  | |- P (set_sockets _ ?c) => apply (P_ext c); [reflexivity..|]
  | |- P (set_sources _ ?c) => apply (P_ext c); [reflexivity..|]
  | |- P (set_timers _ ?c) => apply (P_ext c); [reflexivity..|]
  | |- P (set_timer_count _ ?c) => apply (P_ext c); [reflexivity..|]
  | |- P (set_fetches _ ?c) => apply (P_ext c); [reflexivity..|]
  | |- P (set_fetch_count _ ?c) => apply (P_ext c); [reflexivity..|]
  | |- P (set_promise_count _ ?c) => apply (P_ext c); [reflexivity..|]
  | |- P (new_promise ?c) => apply (P_ext c); [reflexivity..|]
  | |- P (match ?x with _ => _ end) => destruct x eqn:?
  end.

Lemma P_connect_catch cp e c : P c -> P (connect_catch cp e c).
Proof. intros H. unfold connect_catch. repeat keep. Qed.

Lemma P_connect_resume_initialize cp o c : P c -> P (connect_resume_initialize cp o c).
Proof.
  intros H. unfold connect_resume_initialize.
  destruct o as [[]|]; try (now apply P_connect_catch); repeat keep.
Qed.

Lemma P_resume k o c : P c -> P (resume JSON_parse k o c).
Proof.
  intros H. destruct k; simpl; [assumption| |now apply P_connect_resume_initialize].
  unfold callTool_resume. destruct o; repeat keep.
Qed.

Lemma P_settle_request rp k o c : P c -> P (settle_request JSON_parse rp k o c).
Proof. intros H. unfold settle_request. apply P_resume. repeat keep. Qed.

Lemma P_request k method params c : P c -> P (request JSON_parse k method params c).
Proof.
  intros H. unfold request.
  pose proof (P_envelope method params c H) as H0.
  set (c0 := log _ _) in *. clearbody c0.
  assert (H1 : P (new_promise c0)) by repeat keep.
  set (c1 := new_promise c0) in *. clearbody c1.
  destruct (transport (config c1)).
  - destruct (ws c1) as [s|]; [|now apply P_settle_request].
    destruct (is_open s c1); [|now apply P_settle_request].
    unfold ws_send, setTimeout. repeat keep.
  - unfold sendHttpRequest. repeat keep.
Qed.

Lemma P_callTool name args c : P c -> P (callTool JSON_parse name args c).
Proof. intros H. unfold callTool. apply P_request. repeat keep. Qed.

Lemma P_connect c : P c -> P (connect c).
Proof.
  intros H. unfold connect, connectWebSocket, connectHttpSse. repeat keep.
Qed.

Lemma P_connect_resume_transport cp o c : P c -> P (connect_resume_transport JSON_parse cp o c).
Proof.
  intros H. destruct o; simpl.
  - unfold initialize. now apply P_request.
  - now apply P_connect_catch.
Qed.

Lemma P_reject_all l : forall c, P c -> P (fold_left reject_pending l c).
Proof.
  induction l as [|e l IH]; intros c H; simpl; [assumption|]. apply IH.
  unfold reject_pending, clearTimeout. repeat keep.
Qed.

Lemma P_resume_all l : forall c, P c -> P (fold_left (resume_rejected JSON_parse) l c).
Proof.
  induction l as [|e l IH]; intros c H; simpl; [assumption|]. apply IH.
  unfold resume_rejected. now apply P_resume.
Qed.

Lemma P_disconnect c : P c -> P (disconnect JSON_parse c).
Proof.
  intros H. unfold disconnect.
  apply P_resume_all, P_resume_all. 
  do 4 keep. apply P_reject_all.
  unfold stopReconnectTimer, ws_close_call, es_close_call, clearTimeout. repeat keep.
Qed.

Lemma P_handleMessage data c : P c -> P (handleMessage JSON_parse data c).
Proof.
  intros H. unfold handleMessage.
  destruct (JSON_parse (JStr data)) as [message|]; [|repeat keep].
  destruct (has_key "id" message) as [[]|]; [| |repeat keep].
  - destruct (pending_get _ _) as [pending|]; [|assumption].
    destruct (truthy _); apply P_settle_request; unfold clearTimeout; repeat keep.
  - destruct (has_key "method" message) as [[]|]; repeat keep.
Qed.

Lemma P_handleDisconnect reason c : P c -> P (handleDisconnect reason c).
Proof.
  intros H. unfold handleDisconnect, scheduleReconnect, setTimeout. repeat keep.
Qed.

Lemma P_timer_fires t c : P c -> P (timer_fires JSON_parse t c).
Proof.
  intros H. unfold timer_fires.
  destruct (timer_get t (timers c)) as [[id rp k|]|]; [| |assumption].
  - apply P_settle_request. repeat keep.
  - apply P_connect. repeat keep.
Qed.

Lemma P_ws_settle_opener s o c : P c -> P (ws_settle_opener JSON_parse s o c).
Proof.
  intros H. unfold ws_settle_opener.
  destruct (nth_error (sockets c) s) as [[r [cp|]]|]; try assumption.
  apply P_connect_resume_transport. repeat keep.
Qed.

Lemma P_set_readyState s r c : P c -> P (set_readyState s r c).
Proof. intros H. unfold set_readyState. repeat keep. Qed.

Lemma P_es_settle_opener e o c : P c -> P (es_settle_opener JSON_parse e o c).
Proof.
  intros H. unfold es_settle_opener.
  destruct (nth_error (sources c) e) as [[[] [cp|]]|]; try assumption.
  apply P_connect_resume_transport. repeat keep.
Qed.

Lemma P_fetch_settles f o c : P c -> P (fetch_settles JSON_parse f o c).
Proof.
  intros H. unfold fetch_settles.
  destruct (fetch_get f (fetches c)) as [[rp k]|]; [|assumption].
  apply P_settle_request. repeat keep.
Qed.

Lemma P_step c ev : P c -> P (step JSON_parse c ev).
Proof.
  intros H. destruct ev; simpl.
  - now apply P_connect.
  - now apply P_disconnect.
  - now apply P_request.
  - now apply P_callTool.
  - unfold on. repeat keep.
  - unfold off. repeat keep.
  - unfold ws_on_open. destruct (ready s c) as [[]|]; try assumption.
    now apply P_ws_settle_opener, P_set_readyState.
  - now apply P_ws_settle_opener.
  - unfold ws_on_message. destruct (ready s c); [now apply P_handleMessage | assumption].
  - unfold ws_on_close.
    destruct (ready s c) as [[]|]; try assumption;
      now apply P_handleDisconnect, P_set_readyState.
  - now apply P_es_settle_opener.
  - now apply P_es_settle_opener.
  - unfold es_on_message. destruct (nth_error (sources c) e) as [[[] ?]|]; try assumption.
    now apply P_handleMessage.
  - now apply P_timer_fires.
  - now apply P_fetch_settles.
  - now apply P_fetch_settles.
Qed.

Lemma P_run evs : forall c, P c -> P (run JSON_parse evs c).
Proof.
  induction evs as [|ev evs IH]; intros c H; simpl; [assumption|].
  apply IH. now apply P_step.
Qed.

End Stable.

(** ** State changes *)

Lemma state_changes_app a b : state_changes (a ++ b) = state_changes a ++ state_changes b.
Proof. apply flat_map_app. Qed.

Lemma state_changes_invokes (e : Emission) l :
  state_changes (map (fun h => Invoke h e) l) = [].
Proof. induction l; simpl; auto. Qed.

Lemma state_changes_benign e : benign e = true -> state_changes [e] = [].
Proof. destruct e as [[]| | | | | | | | | | | |]; simpl; congruence. Qed.

Lemma last_cons {A} (l : list A) : forall x a, last (x :: l) a = last l x.
Proof.
  induction l as [|y l IH]; intros x a; [reflexivity|].
  change (last (x :: y :: l) a) with (last (y :: l) a). now rewrite !IH.
Qed.

Lemma transitions_snoc l : forall a s,
  transitions a l -> last l a <> s -> transitions a (l ++ [s]).
Proof.
  induction l as [|x l IH]; intros a s T N; simpl app.
  - simpl in *. tauto.
  - destruct T as [T1 T2]. split; [assumption|]. apply IH; [assumption|].
    now rewrite <- (last_cons l x a).
Qed.

Lemma states_ok_setState s c : states_ok c -> states_ok (setState s c).
Proof.
  intros [T L]. rewrite setState_eq.
  destruct (state_eqb_spec (_state c) s) as [E|N]; [now split|].
  unfold states_ok. simpl.
  rewrite state_changes_app. simpl. rewrite state_changes_invokes. split.
  - apply transitions_snoc; [assumption|]. now rewrite L.
  - apply last_last.
Qed.

Lemma states_ok_silent e c : state_changes [e] = [] -> states_ok c -> states_ok (log e c).
Proof.
  intros B [T L]. unfold states_ok. simpl.
  rewrite state_changes_app, B, app_nil_r. now split.
Qed.

Lemma states_ok_log e c : benign e = true -> states_ok c -> states_ok (log e c).
Proof. intros B. apply states_ok_silent. now apply state_changes_benign. Qed.

(** X2: along every run the [stateChange] events are the transitions of
    the session: each announces a state different from the one before it
    (the first from [disconnected]), and the last one announced is the
    current state. *)
Theorem stateChange_tracks_state JSON_parse cfg evs :
  let c := run JSON_parse evs (new_client cfg) in
  transitions disconnected (state_changes (trace c))
  /\ last (state_changes (trace c)) disconnected = _state c.
Proof.
  apply (P_run JSON_parse states_ok).
  - intros c c' T S _ H. unfold states_ok. now rewrite T, S.
  - exact states_ok_log.
  - exact states_ok_setState.
  - intros method params c H. apply states_ok_silent; [reflexivity|]. exact H.
  - split; simpl; auto.
Qed.

(** ** Request ids *)

Lemma request_ids_app a b : request_ids (a ++ b) = request_ids a ++ request_ids b.
Proof. apply flat_map_app. Qed.

Lemma request_ids_invokes (e : Emission) l :
  request_ids (map (fun h => Invoke h e) l) = [].
Proof. induction l; simpl; auto. Qed.

Lemma request_ids_benign e : benign e = true -> request_ids [e] = [].
Proof. destruct e as [[]| | | | | | | | | | | |]; simpl; congruence. Qed.

Lemma pre_increment_nth_id n : pre_increment (nth_id n) = nth_id (S n).
Proof.
  unfold pre_increment, nth_id. rewrite Nat2Z.inj_succ.
  destruct (Z.ltb_spec (Z.min (Z.of_nat n) (2 ^ 53)) (2 ^ 53)); lia.
Qed.

Lemma nth_id_small n : (Z.of_nat n <= 2 ^ 53)%Z -> nth_id n = Z.of_nat n.
Proof. unfold nth_id. lia. Qed.

Lemma ids_ok_log e c : benign e = true -> ids_ok c -> ids_ok (log e c).
Proof.
  intros B [I R]. unfold ids_ok. simpl.
  rewrite request_ids_app, (request_ids_benign e B), app_nil_r. now split.
Qed.

Lemma ids_ok_setState s c : ids_ok c -> ids_ok (setState s c).
Proof.
  intros [I R]. rewrite setState_eq. destruct (state_eqb _ _); [now split|].
  unfold ids_ok. simpl.
  rewrite request_ids_app. simpl. rewrite request_ids_invokes, app_nil_r. now split.
Qed.

Lemma ids_ok_envelope method params c :
  ids_ok c ->
  ids_ok (log (MkRequest {| req_id := pre_increment (requestId c);
                            req_method := method; req_params := params |})
            (set_requestId (pre_increment (requestId c)) c)).
Proof.
  intros [I R]. unfold ids_ok. simpl.
  rewrite request_ids_app. simpl. rewrite length_app. simpl.
  rewrite Nat.add_1_r, R, pre_increment_nth_id. split; [|reflexivity].
  rewrite seq_S, map_app. simpl. now rewrite <- I.
Qed.

Lemma ids_ok_run JSON_parse cfg evs : ids_ok (run JSON_parse evs (new_client cfg)).
Proof.
  apply (P_run JSON_parse ids_ok).
  - intros c c' T _ R H. unfold ids_ok. now rewrite T, R.
  - exact ids_ok_log.
  - exact ids_ok_setState.
  - exact ids_ok_envelope.
  - split; reflexivity.
Qed.

(** X3: along every run, whatever methods are called and whatever the
    sockets, timers and POSTs deliver (reconnects included), the k-th
    request envelope built carries the id min(k, 2^53), and the counter
    holds the id of the last one; so as long as no more than 2^53
    requests were made the ids are 1, 2, 3, ... without gap or repeat. *)
Theorem request_ids_count_up JSON_parse cfg evs :
  let c := run JSON_parse evs (new_client cfg) in
  let n := List.length (request_ids (trace c)) in
  request_ids (trace c) = map nth_id (seq 1 n)
  /\ requestId c = nth_id n
  /\ ((Z.of_nat n <= 2 ^ 53)%Z -> request_ids (trace c) = map Z.of_nat (seq 1 n)).
Proof.
  intros c n. destruct (ids_ok_run JSON_parse cfg evs) as [I R]. fold c in I, R. fold n in I, R.
  split; [exact I | split; [exact R|]]. intros B. rewrite I.
  apply map_ext_in. intros k K. apply in_seq in K. apply nth_id_small. lia.
Qed.

(** X3, witness: four requests across a reconnect. *)
Lemma request_ids_count_up_witness :
  let c := run Json.parse Sample.reconnecting (new_client Sample.cfg) in
  let n := List.length (request_ids (trace c)) in
  (Z.of_nat n <= 2 ^ 53)%Z /\ request_ids (trace c) = map Z.of_nat (seq 1 n).
Proof.
  intros c n. split.
  - vm_compute. discriminate.
  - apply (request_ids_count_up Json.parse Sample.cfg Sample.reconnecting).
    vm_compute. discriminate.
Defined.

Example reconnecting_ids :
  request_ids (trace (run Json.parse Sample.reconnecting (new_client Sample.cfg)))
  = [1; 2; 3; 4]%Z.
Proof. vm_compute. reflexivity. Qed.

(** ** The http-sse transport *)

Lemma sse_ok_ext c c' :
  config c' = config c -> pendingRequests c' = pendingRequests c -> timers c' = timers c ->
  reconnectTimer c' = reconnectTimer c -> sockets c' = sockets c -> ws c' = ws c ->
  sse_ok c -> sse_ok c'.
Proof.
  intros C P T R S W (H1 & H2 & H3 & H4 & H5 & H6). unfold sse_ok.
  now rewrite C, P, T, R, S, W.
Qed.

Lemma sse_ok_host c c' : host_part c' = host_part c -> sse_ok c -> sse_ok c'.
Proof. intros H. fields H. now apply sse_ok_ext. Qed.

Lemma sse_ok_connect c : sse_ok c -> sse_ok (connect c).
Proof.
  intros H. unfold connect. cbn [_state new_promise set_promise_count].
  destruct (state_eqb (_state c) connected).
  - revert H. now apply sse_ok_ext.
  - assert (H1 : sse_ok (setState connecting (new_promise c))).
    { apply (sse_ok_host (new_promise c)); [apply host_part_setState|].
      revert H. now apply sse_ok_ext. }
    rewrite (proj1 H1). unfold connectHttpSse. revert H1. now apply sse_ok_ext.
Qed.

Section Sse.
Variable JSON_parse : js -> option js.

Lemma sse_ok_settle_request rp k o c : sse_ok c -> sse_ok (settle_request JSON_parse rp k o c).
Proof. apply sse_ok_host, host_part_settle_request. Qed.

Lemma sse_ok_request k method params c : sse_ok c -> sse_ok (request JSON_parse k method params c).
Proof.
  intros H. unfold request. simpl. rewrite (proj1 H).
  unfold sendHttpRequest. revert H. now apply sse_ok_ext.
Qed.

Lemma sse_ok_connect_resume_transport cp o c :
  sse_ok c -> sse_ok (connect_resume_transport JSON_parse cp o c).
Proof.
  intros H. destruct o; simpl.
  - unfold initialize. now apply sse_ok_request.
  - revert H. apply sse_ok_host, host_part_connect_catch.
Qed.

Lemma sse_ok_handleMessage data c : sse_ok c -> sse_ok (handleMessage JSON_parse data c).
Proof.
  intros H. unfold handleMessage.
  destruct (JSON_parse (JStr data)) as [message|]; [|revert H; now apply sse_ok_ext].
  destruct (has_key "id" message) as [[]|]; [| |revert H; now apply sse_ok_ext].
  - destruct H as (H1 & H2 & H3). rewrite H2.
    destruct (prop message "id"); simpl; now repeat split.
  - destruct (has_key "method" message) as [[]|]; try assumption.
    revert H. apply sse_ok_host, host_part_emit.
Qed.

Lemma sse_ok_disconnect c : sse_ok c -> sse_ok (disconnect JSON_parse c).
Proof.
  intros H. unfold disconnect.
  assert (H1 : sse_ok (new_promise c)) by (revert H; now apply sse_ok_ext).
  set (c1 := new_promise c) in *. clearbody c1.
  destruct H1 as (T & P & Ti & R & S & W).
  unfold stopReconnectTimer. rewrite R, W.
  set (c3 := match eventSource c1 with Some e => _ | None => _ end).
  assert (H3 : sse_ok c3).
  { unfold c3, es_close_call. destruct (eventSource c1); [|now repeat split].
    destruct (nth_error _ _); now repeat split. }
  clearbody c3.
  rewrite (proj1 (proj2 H3)). cbn [fold_left filter].
  apply (sse_ok_host (set_pendingRequests [] c3)).
  - unfold settle. now rewrite host_part_log, host_part_emit, host_part_setState.
  - assert (P3 := proj1 (proj2 H3)). revert H3. apply sse_ok_ext; try reflexivity.
    cbn. now rewrite P3.
Qed.

Lemma sse_ok_es_settle_opener e o c : sse_ok c -> sse_ok (es_settle_opener JSON_parse e o c).
Proof.
  intros H. unfold es_settle_opener.
  destruct (nth_error (sources c) e) as [[[] [cp|]]|]; try assumption.
  apply sse_ok_connect_resume_transport. revert H. now apply sse_ok_ext.
Qed.

Lemma sse_ok_fetch_settles f o c : sse_ok c -> sse_ok (fetch_settles JSON_parse f o c).
Proof.
  intros H. unfold fetch_settles. destruct (fetch_get f (fetches c)) as [[rp k]|]; [|assumption].
  apply sse_ok_settle_request. revert H. now apply sse_ok_ext.
Qed.

(** No socket exists, so no socket event and no timer has a listener. *)
Lemma sse_ok_no_socket s c : sse_ok c -> nth_error (sockets c) s = None.
Proof. intros (_ & _ & _ & _ & S & _). rewrite S. now destruct s. Qed.

Lemma sse_ok_step c ev : sse_ok c -> sse_ok (step JSON_parse c ev).
Proof.
  intros H. destruct ev; cbn [step].
  - now apply sse_ok_connect.
  - now apply sse_ok_disconnect.
  - now apply sse_ok_request.
  - unfold callTool. apply sse_ok_request. revert H. now apply sse_ok_ext.
  - revert H. now apply sse_ok_ext.
  - revert H. now apply sse_ok_ext.
  - unfold ws_on_open, ready. now rewrite (sse_ok_no_socket s c H).
  - unfold ws_on_error, ws_settle_opener. now rewrite (sse_ok_no_socket s c H).
  - unfold ws_on_message, ready. now rewrite (sse_ok_no_socket s c H).
  - unfold ws_on_close, ready. now rewrite (sse_ok_no_socket s c H).
  - now apply sse_ok_es_settle_opener.
  - now apply sse_ok_es_settle_opener.
  - unfold es_on_message. destruct (nth_error (sources c) e) as [[[] ?]|]; try assumption.
    now apply sse_ok_handleMessage.
  - unfold timer_fires. destruct H as (H1 & H2 & H3 & H4). rewrite H3. cbn [timer_get].
    now repeat split.
  - now apply sse_ok_fetch_settles.
  - now apply sse_ok_fetch_settles.
Qed.

(** X4: on the http-sse transport, in every state the client can reach
    the table of pending requests is empty and no timer is armed: no
    request ever gets a timeout timer, so the configured timeout is never
    applied to a POST, and no reconnect is ever scheduled, whatever
    [autoReconnect] says; nor does the instance ever hold a socket. *)
Theorem http_sse_never_pending cfg evs :
  transport cfg = http_sse ->
  let c := run JSON_parse evs (new_client cfg) in
  pendingRequests c = [] /\ timers c = [] /\ reconnectTimer c = None
  /\ sockets c = [] /\ ws c = None.
Proof.
  intros T c.
  assert (H : sse_ok c).
  { unfold c. assert (H0 : sse_ok (new_client cfg)) by now repeat split.
    revert H0. generalize (new_client cfg). induction evs as [|ev evs' IH]; intros c0 H0.
    - exact H0.
    - cbn [run fold_left]. apply IH. now apply sse_ok_step. }
  apply H.
Qed.

End Sse.

(** X4, witness: a session over http-sse with a [ping] in flight. *)
Lemma http_sse_never_pending_witness :
  transport Sample.cfg_sse = http_sse
  /\ pendingRequests (run Json.parse Sample.over_sse (new_client Sample.cfg_sse)) = [].
Proof.
  split; [reflexivity|].
  exact (proj1 (http_sse_never_pending Json.parse Sample.cfg_sse Sample.over_sse eq_refl)).
Defined.

Example over_sse_run :
  let c := run Json.parse Sample.over_sse (new_client Sample.cfg_sse) in
  _state c = connected /\ fetches c = [(1, (2, by_caller))] /\ timers c = []
  /\ settled (trace c) = [1; 0].
Proof. vm_compute. repeat split; reflexivity. Qed.

(** ** No promise is settled twice *)

Lemma occ_app q a b : occ q (a ++ b) = occ q a + occ q b.
Proof. apply count_occ_app. Qed.

Lemma occ_nil q : occ q [] = 0.
Proof. reflexivity. Qed.

Lemma occ_cons q x l : occ q (x :: l) = occ q [x] + occ q l.
Proof. apply (occ_app q [x] l). Qed.

Lemma occ_one_le q x : occ q [x] <= 1.
Proof. unfold occ. simpl. destruct (Nat.eq_dec x q); lia. Qed.

Lemma occ_one_neq q x : x <> q -> occ q [x] = 0.
Proof. unfold occ. simpl. destruct (Nat.eq_dec x q); [congruence|reflexivity]. Qed.

Lemma settled_silent e : (forall p o, e <> Settle p o) -> settled [e] = [].
Proof. intros N. destruct e; try reflexivity. now elim (N promise o). Qed.

Lemma settled_log e c :
  (forall p o, e <> Settle p o) -> settled (trace (log e c)) = settled (trace c).
Proof. intros N. simpl. now rewrite settled_app, (settled_silent e N), app_nil_r. Qed.

Lemma holders_host c c' : host_part c' = host_part c -> holders c' = holders c.
Proof. intros H. fields H. unfold holders. now rewrite F_timers, F_fetches, F_sockets, F_sources. Qed.

Arguments occ : simpl never.
Arguments timer_holds : simpl never.
Arguments fetch_holds : simpl never.

Lemma holds_filter {A} (h : A -> list nat) q f (l : list A) :
  occ q (flat_map h (filter f l)) <= occ q (flat_map h l).
Proof.
  induction l as [|x l IH]; cbn [filter flat_map]; [lia|].
  destruct (f x); cbn [flat_map]; rewrite ?occ_app; lia.
Qed.

(** Removing the timer with handle [t] releases at least what it held. *)
Lemma timer_holds_remove q t a ts :
  timer_get t ts = Some a ->
  occ q (flat_map timer_holds (timer_remove t ts)) + occ q (timer_holds (t, a))
  <= occ q (flat_map timer_holds ts).
Proof.
  unfold timer_remove. induction ts as [|[t' a'] ts IH];
    cbn [timer_get filter flat_map fst]; [discriminate|].
  destruct (Nat.eqb_spec t t') as [->|N]; cbn [negb flat_map]; intros G.
  - injection G as ->. rewrite occ_app.
    pose proof (holds_filter timer_holds q (fun e => negb (Nat.eqb t' (fst e))) ts). lia.
  - rewrite !occ_app. specialize (IH G). lia.
Qed.

Lemma fetch_holds_remove q f x l :
  fetch_get f l = Some x ->
  occ q (flat_map fetch_holds (fetch_remove f l)) + occ q (fetch_holds (f, x))
  <= occ q (flat_map fetch_holds l).
Proof.
  unfold fetch_remove. induction l as [|[f' x'] l IH];
    cbn [fetch_get filter flat_map fst]; [discriminate|].
  destruct (Nat.eqb_spec f f') as [->|N]; cbn [negb flat_map]; intros G.
  - injection G as ->. rewrite occ_app.
    pose proof (holds_filter fetch_holds q (fun e => negb (Nat.eqb f' (fst e))) l). lia.
  - rewrite !occ_app. specialize (IH G). lia.
Qed.

(** Replacing an element of a list of listeners. *)
Lemma flat_map_list_set {A} (h : A -> list nat) q (l : list A) : forall i x y,
  nth_error l i = Some x ->
  occ q (flat_map h (list_set i y l)) + occ q (h x) = occ q (flat_map h l) + occ q (h y).
Proof.
  induction l as [|z l IH]; intros [|i] x y G;
    cbn [nth_error list_set flat_map] in *; try discriminate.
  - injection G as ->. rewrite !occ_app. lia.
  - rewrite !occ_app. specialize (IH i x y G). lia.
Qed.

Lemma occ_one q x : occ q [x] = if Nat.eqb x q then 1 else 0.
Proof.
  unfold occ. cbn [count_occ].
  destruct (Nat.eq_dec x q), (Nat.eqb_spec x q); congruence.
Qed.

Lemma occ_seq q a n :
  occ q (seq a n) = if ((a <=? q) && (q <? a + n))%nat then 1 else 0.
Proof.
  revert a. induction n as [|n IH]; intros a; cbn [seq].
  - rewrite occ_nil. destruct (Nat.leb_spec a q), (Nat.ltb_spec q (a + 0)); cbn [andb]; lia.
  - rewrite occ_cons, IH, occ_one.
    destruct (Nat.eqb_spec a q), (Nat.leb_spec a q), (Nat.leb_spec (S a) q),
      (Nat.ltb_spec q (S a + n)), (Nat.ltb_spec q (a + S n)); cbn [andb]; lia.
Qed.

(** What keeps [once]: the weights grow by the promises made meanwhile at
    most. *)
Lemma once_grows c c' :
  promise_count c <= promise_count c' ->
  (forall q, weight c' q
             <= weight c q + occ q (seq (promise_count c) (promise_count c' - promise_count c))) ->
  once c -> once c'.
Proof.
  intros L G [O1 O2]. split; intros q.
  - specialize (G q). rewrite occ_seq in G.
    destruct (Nat.leb_spec (promise_count c) q); simpl in G.
    + rewrite (O2 q) in G by assumption. destruct (_ <? _)%nat; lia.
    + specialize (O1 q). lia.
  - intros B. specialize (G q). rewrite occ_seq in G. rewrite (O2 q) in G by lia.
    destruct (Nat.leb_spec (promise_count c) q), (Nat.ltb_spec q
      (promise_count c + (promise_count c' - promise_count c))); simpl in G; lia.
Qed.

Lemma weight_ext c c' :
  trace c' = trace c -> timers c' = timers c -> fetches c' = fetches c ->
  sockets c' = sockets c -> sources c' = sources c ->
  forall q, weight c' q = weight c q.
Proof. intros T Ti F S S' q. unfold weight, holders. now rewrite T, Ti, F, S, S'. Qed.

Lemma weight_settle p o c q : weight (settle p o c) q = weight c q + occ q [p].
Proof.
  unfold weight, settle. rewrite settled_log_settle, occ_app.
  change (holders (log (Settle p o) c)) with (holders c). lia.
Qed.

Lemma weight_connect_catch cp e c q :
  weight (connect_catch cp e c) q = weight c q + occ q [cp].
Proof.
  unfold weight. rewrite connect_catch_settled, occ_app.
  rewrite (holders_host _ _ (host_part_connect_catch cp e c)). lia.
Qed.

Lemma weight_connect c q :
  weight (connect c) q = weight c q + occ q [promise_count c]
  /\ promise_count (connect c) = S (promise_count c).
Proof.
  unfold connect. cbn [promise_count new_promise set_promise_count _state].
  destruct (state_eqb (_state c) connected).
  - split; [|reflexivity]. rewrite weight_settle. f_equal.
  - set (c1 := setState connecting (new_promise c)).
    assert (H : host_part c1 = host_part (new_promise c)) by apply host_part_setState.
    assert (S1 : settled (trace c1) = settled (trace c))
      by (unfold c1; now rewrite setState_settled).
    fields H. cbn in F_promise_count, F_sockets, F_sources, F_timers, F_fetches.
    unfold weight, holders, connectWebSocket, connectHttpSse.
    destruct (transport (config c1)); cbn; rewrite ?settled_app, ?S1; cbn;
      rewrite ?app_nil_r, F_timers, F_fetches, F_sockets, F_sources, F_promise_count,
        ?flat_map_app, !occ_app; cbn; rewrite ?app_nil_r, ?occ_nil; split; lia.
Qed.

Lemma weight_set_readyState s r c q : weight (set_readyState s r c) q = weight c q.
Proof.
  unfold set_readyState. destruct (nth_error (sockets c) s) as [sock|] eqn:G; [|reflexivity].
  unfold weight, holders. cbn [trace timers fetches sockets sources set_sockets].
  pose proof (flat_map_list_set (fun s => opener_list (ws_opener s)) q (sockets c) s sock
                {| readyState := r; ws_opener := ws_opener sock |} G) as E.
  cbn [ws_opener] in E. rewrite !occ_app. lia.
Qed.

Lemma weight_scheduleReconnect c q :
  weight (scheduleReconnect c) q = weight c q
  /\ promise_count (scheduleReconnect c) = promise_count c.
Proof.
  unfold scheduleReconnect. destruct (reconnectTimer c); [now split|].
  split; [|reflexivity].
  unfold weight, holders, setTimeout. cbn [trace timers fetches sockets sources log set_trace
    set_reconnectTimer set_timer_count set_timers].
  rewrite settled_app, flat_map_app. cbn [settled flat_map]. rewrite !app_nil_r.
  reflexivity.
Qed.

Lemma weight_handleDisconnect reason c q :
  weight (handleDisconnect reason c) q = weight c q
  /\ promise_count (handleDisconnect reason c) = promise_count c.
Proof.
  unfold handleDisconnect.
  pose proof (handleDisconnect_before_schedule reason c) as H.
  assert (S1 : settled (trace (emit (on_disconnect reason)
                                 (setState disconnected (set_ws None c))))
               = settled (trace c)) by now rewrite emit_settled, setState_settled.
  set (c1 := emit _ _) in *.
  assert (W : weight c1 q = weight c q).
  { unfold weight. rewrite S1, (holders_host _ _ H). reflexivity. }
  fields H. cbn in F_promise_count.
  destruct (autoReconnect (config c1)); [|now split].
  destruct (weight_scheduleReconnect c1 q) as [E1 E2]. rewrite E1, E2. now split.
Qed.

Lemma timer_holds_request t id rp k :
  timer_holds (t, request_timeout id rp k) = rp :: target k.
Proof. reflexivity. Qed.

Lemma fetch_holds_entry f rp k : fetch_holds (f, (rp, k)) = rp :: target k.
Proof. reflexivity. Qed.

Section Weights.
Variable JSON_parse : js -> option js.

Lemma weight_settle_request rp k o c q :
  weight (settle_request JSON_parse rp k o c) q = weight c q + occ q (rp :: target k).
Proof.
  unfold weight. rewrite settle_request_settled, occ_app.
  rewrite (holders_host _ _ (host_part_settle_request JSON_parse rp k o c)). lia.
Qed.

Lemma promise_count_settle_request rp k o c :
  promise_count (settle_request JSON_parse rp k o c) = promise_count c.
Proof. pose proof (host_part_settle_request JSON_parse rp k o c) as H. now fields H. Qed.

Lemma weight_request k method params c q :
  weight (request JSON_parse k method params c) q
  = weight c q + occ q (promise_count c :: target k)
  /\ promise_count (request JSON_parse k method params c) = S (promise_count c).
Proof.
  unfold request.
  change (promise_count (log ?e (set_requestId ?i c))) with (promise_count c).
  set (r := {| req_id := _ |}).
  set (c0 := new_promise (log (MkRequest r) (set_requestId _ c))).
  assert (W0 : weight c0 q = weight c q).
  { unfold weight, holders, c0. cbn. rewrite settled_app. cbn. now rewrite app_nil_r. }
  assert (P0 : promise_count c0 = S (promise_count c)) by reflexivity.
  clearbody c0. rewrite <- W0, <- P0. clear W0 P0.
  destruct (transport (config c0)).
  - destruct (ws c0) as [s|];
      [|now rewrite weight_settle_request, promise_count_settle_request].
    destruct (is_open s c0);
      [|now rewrite weight_settle_request, promise_count_settle_request].
    split; [|reflexivity].
    unfold weight, holders, ws_send, setTimeout.
    cbn [trace timers fetches sockets sources log set_trace set_pendingRequests
         set_timer_count set_timers].
    rewrite !settled_app, flat_map_app. cbn [settled flat_map]. rewrite !app_nil_r.
    rewrite !occ_app, timer_holds_request. lia.
  - split; [|reflexivity].
    unfold weight, holders, sendHttpRequest.
    cbn [trace timers fetches sockets sources log set_trace set_fetches set_fetch_count].
    rewrite !settled_app, flat_map_app. cbn [settled flat_map]. rewrite !app_nil_r.
    rewrite !occ_app, fetch_holds_entry. lia.
Qed.

Lemma weight_callTool name args c q :
  weight (callTool JSON_parse name args c) q
  = weight c q + occ q [promise_count c] + occ q [S (promise_count c)]
  /\ promise_count (callTool JSON_parse name args c) = S (S (promise_count c)).
Proof.
  unfold callTool.
  destruct (weight_request (by_callTool (promise_count c)) "tools/call"
              (JObj [("name", JStr name); ("arguments", args)]) (new_promise c) q) as [W P].
  rewrite W, P. split; [|reflexivity].
  change (weight (new_promise c) q) with (weight c q).
  cbn [promise_count new_promise set_promise_count target].
  rewrite occ_cons. lia.
Qed.

Lemma weight_connect_resume_transport cp o c q :
  promise_count c <= promise_count (connect_resume_transport JSON_parse cp o c)
  /\ weight (connect_resume_transport JSON_parse cp o c) q
     <= weight c q + occ q [cp]
        + occ q (seq (promise_count c)
                   (promise_count (connect_resume_transport JSON_parse cp o c)
                    - promise_count c)).
Proof.
  destruct o; cbn [connect_resume_transport]; unfold initialize.
  - destruct (weight_request (by_connect cp) "initialize" initialize_params c q) as [W P].
    rewrite W, P. replace (S (promise_count c) - promise_count c) with 1 by lia.
    cbn [seq target]. rewrite occ_cons. lia.
  - rewrite weight_connect_catch.
    assert (Pc : promise_count (connect_catch cp e c) = promise_count c)
      by (pose proof (host_part_connect_catch cp e c) as H; now fields H).
    rewrite Pc, Nat.sub_diag. cbn [seq]. rewrite occ_nil. lia.
Qed.

Lemma weight_ws_settle_opener s o c q :
  promise_count c <= promise_count (ws_settle_opener JSON_parse s o c)
  /\ weight (ws_settle_opener JSON_parse s o c) q
     <= weight c q
        + occ q (seq (promise_count c)
                   (promise_count (ws_settle_opener JSON_parse s o c) - promise_count c)).
Proof.
  unfold ws_settle_opener.
  destruct (nth_error (sockets c) s) as [[r [cp|]]|] eqn:G;
    try (rewrite Nat.sub_diag; cbn [seq]; rewrite occ_nil; split; lia).
  set (c1 := set_sockets _ c).
  destruct (weight_connect_resume_transport cp o c1 q) as [L W].
  change (promise_count c1) with (promise_count c) in *. split; [assumption|].
  assert (W1 : weight c1 q + occ q [cp] = weight c q).
  { unfold weight, holders, c1. cbn [trace timers fetches sockets sources set_sockets].
    pose proof (flat_map_list_set (fun s => opener_list (ws_opener s)) q (sockets c) s _
                  {| readyState := r; ws_opener := None |} G) as E.
    cbn [ws_opener opener_list] in E. rewrite occ_nil in E. rewrite !occ_app. lia. }
  lia.
Qed.

Lemma weight_es_settle_opener e o c q :
  promise_count c <= promise_count (es_settle_opener JSON_parse e o c)
  /\ weight (es_settle_opener JSON_parse e o c) q
     <= weight c q
        + occ q (seq (promise_count c)
                   (promise_count (es_settle_opener JSON_parse e o c) - promise_count c)).
Proof.
  unfold es_settle_opener.
  destruct (nth_error (sources c) e) as [[[] [cp|]]|] eqn:G;
    try (rewrite Nat.sub_diag; cbn [seq]; rewrite occ_nil; split; lia).
  set (c1 := set_sources _ c).
  destruct (weight_connect_resume_transport cp o c1 q) as [L W].
  change (promise_count c1) with (promise_count c) in *. split; [assumption|].
  assert (W1 : weight c1 q + occ q [cp] = weight c q).
  { unfold weight, holders, c1. cbn [trace timers fetches sockets sources set_sources].
    pose proof (flat_map_list_set (fun s => opener_list (es_opener s)) q (sources c) e _
                  {| es_closed := false; es_opener := None |} G) as E.
    cbn [es_opener opener_list] in E. rewrite occ_nil in E. rewrite !occ_app. lia. }
  lia.
Qed.

Lemma weight_fetch_settles f o c q :
  weight (fetch_settles JSON_parse f o c) q <= weight c q
  /\ promise_count (fetch_settles JSON_parse f o c) = promise_count c.
Proof.
  unfold fetch_settles. destruct (fetch_get f (fetches c)) as [[rp k]|] eqn:G; [|split; lia].
  rewrite weight_settle_request, promise_count_settle_request. split; [|reflexivity].
  pose proof (fetch_holds_remove q f (rp, k) (fetches c) G) as E.
  change (fetch_holds (f, (rp, k))) with (rp :: target k) in E.
  unfold weight, holders. cbn [trace timers fetches sockets sources set_fetches].
  rewrite !occ_app. lia.
Qed.

(** A request timer is retired and its request settled. *)
Lemma weight_retire t id rp k o c q :
  timer_get t (timers c) = Some (request_timeout id rp k) ->
  weight (settle_request JSON_parse rp k o
            (set_pendingRequests (map_delete id (pendingRequests c))
               (set_timers (timer_remove t (timers c)) c))) q
  <= weight c q.
Proof.
  intros G. rewrite weight_settle_request.
  pose proof (timer_holds_remove q t _ (timers c) G) as E.
  change (timer_holds (t, request_timeout id rp k)) with (rp :: target k) in E.
  unfold weight, holders.
  cbn [trace timers fetches sockets sources set_timers set_pendingRequests].
  rewrite !occ_app. lia.
Qed.

Lemma weight_handleMessage data c q :
  wf c ->
  weight (handleMessage JSON_parse data c) q <= weight c q
  /\ promise_count (handleMessage JSON_parse data c) = promise_count c.
Proof.
  intros W. unfold handleMessage.
  assert (quiet : forall e, (forall p o, e <> Settle p o) ->
            weight (log e c) q <= weight c q /\ promise_count (log e c) = promise_count c).
  { intros e N. split; [|reflexivity]. unfold weight. rewrite (settled_log e c N).
    change (holders (log e c)) with (holders c). lia. }
  destruct (JSON_parse (JStr data)) as [message|]; [|apply quiet; discriminate].
  destruct (has_key "id" message) as [[]|]; [| |apply quiet; discriminate].
  - destruct (pending_get _ _) as [pending|] eqn:G; [|split; lia].
    destruct (prop message "id") as [| | |id| | | |]; try discriminate G.
    cbn [pending_get pending_delete] in *. apply map_get_In in G.
    pose proof (wf_pending c W _ _ G) as T.
    assert (E : forall o,
      weight (settle_request JSON_parse (p_promise pending) (p_awaiter pending) o
                (set_pendingRequests (map_delete id (pendingRequests (clearTimeout
                   (p_timeout pending) c))) (clearTimeout (p_timeout pending) c))) q
      <= weight c q).
    { intros o. etransitivity; [|apply (weight_retire _ _ _ _ o c q T)].
      rewrite !weight_settle_request. apply Nat.add_le_mono_r.
      unfold weight, holders, clearTimeout.
      cbn [trace timers fetches sockets sources set_timers set_pendingRequests log set_trace].
      rewrite settled_app. cbn [settled flat_map]. rewrite !app_nil_r. lia. }
    destruct (truthy _); (split; [apply E | now rewrite promise_count_settle_request]).
  - destruct (has_key "method" message) as [[]|]; try (split; lia).
    split.
    + unfold weight. rewrite emit_settled, (holders_host _ _ (host_part_emit _ c)). lia.
    + pose proof (host_part_emit (on_notification message) c) as H. now fields H.
Qed.

Lemma weight_timer_fires t c q :
  promise_count c <= promise_count (timer_fires JSON_parse t c)
  /\ weight (timer_fires JSON_parse t c) q
     <= weight c q
        + occ q (seq (promise_count c)
                   (promise_count (timer_fires JSON_parse t c) - promise_count c)).
Proof.
  unfold timer_fires. destruct (timer_get t (timers c)) as [[id rp k|]|] eqn:G.
  - rewrite promise_count_settle_request.
    cbn [promise_count set_pendingRequests set_timers].
    rewrite Nat.sub_diag. cbn [seq]. rewrite occ_nil. split; [lia|].
    rewrite Nat.add_0_r.
    exact (weight_retire t id rp k (Rejected (NewError (JStr "Request timeout"))) c q G).
  - set (c1 := set_reconnectTimer None _).
    destruct (weight_connect c1 q) as [W P]. rewrite W, P.
    change (promise_count c1) with (promise_count c).
    replace (S (promise_count c) - promise_count c) with 1 by lia. cbn [seq].
    split; [lia|]. apply Nat.add_le_mono_r.
    unfold weight, holders, c1.
    cbn [trace timers fetches sockets sources set_timers set_reconnectTimer].
    pose proof (holds_filter timer_holds q (fun e => negb (Nat.eqb t (fst e))) (timers c)).
    unfold timer_remove. rewrite !occ_app. lia.
  - rewrite Nat.sub_diag. cbn [seq]. rewrite occ_nil. split; lia.
Qed.

End Weights.

Lemma settled_rejections w : settled (rejections w) = map (fun e => p_promise (snd e)) w.
Proof. induction w as [|e w IH]; cbn; [reflexivity|]. now f_equal. Qed.

(** Counting in a list written with [::] and [++]. *)
Ltac occ_norm :=
  repeat match goal with
         | |- context [occ ?q (?a ++ ?b)] => rewrite (occ_app q a b)
         | |- context [occ ?q (?x :: ?l)] =>
             lazymatch l with
             | [] => fail
             | _ => rewrite (occ_cons q x l)
             end
         | |- context [occ ?q []] => rewrite (occ_nil q)
         end.

Lemma entries_split q w :
  occ q (map (fun e => p_promise (snd e)) w)
  + occ q (flat_map (fun e => target (p_awaiter (snd e))) (filter awaits_tool w))
  + occ q (flat_map (fun e => target (p_awaiter (snd e))) (filter awaits_connect w))
  = occ q (flat_map entry_holds w).
Proof.
  induction w as [|[id [rp k t]] w IH]; [reflexivity|].
  cbn [map flat_map filter]. unfold awaits_tool at 1, awaits_connect at 1, entry_holds at 1.
  cbn [snd p_promise p_awaiter].
  destruct k; cbn [flat_map target app snd p_awaiter]; occ_norm; lia.
Qed.

(** The timers of the entries of the table, cleared one after the other. *)
Lemma clear_entries_holds q w : forall ts,
  NoDup (map fst w) ->
  (forall id e, In (id, e) w ->
     timer_get (p_timeout e) ts = Some (request_timeout id (p_promise e) (p_awaiter e))) ->
  occ q (flat_map timer_holds
           (fold_left (fun ts (e : Z * Pending) => timer_remove (p_timeout (snd e)) ts) w ts))
  + occ q (flat_map entry_holds w)
  <= occ q (flat_map timer_holds ts).
Proof.
  induction w as [|[id0 e0] w IH]; intros ts D H; cbn [fold_left flat_map snd].
  - rewrite occ_nil. lia.
  - inversion D as [|? ? N D']; subst.
    pose proof (H id0 e0 (or_introl eq_refl)) as G0.
    pose proof (timer_holds_remove q _ _ ts G0) as R. rewrite timer_holds_request in R.
    assert (H' : forall id e, In (id, e) w ->
              timer_get (p_timeout e) (timer_remove (p_timeout e0) ts)
              = Some (request_timeout id (p_promise e) (p_awaiter e))).
    { intros id e I. rewrite timer_get_remove.
      pose proof (H id e (or_intror I)) as G.
      destruct (Nat.eqb_spec (p_timeout e0) (p_timeout e)) as [E|_]; [|exact G].
      exfalso. apply N. rewrite E, G in G0. injection G0 as -> _ _.
      change id0 with (fst (id0, e)). now apply in_map. }
    specialize (IH _ D' H'). rewrite occ_app.
    change (entry_holds (id0, e0)) with (p_promise e0 :: target (p_awaiter e0)). lia.
Qed.

Lemma weight_stopReconnectTimer c q :
  weight (stopReconnectTimer c) q <= weight c q
  /\ promise_count (stopReconnectTimer c) = promise_count c
  /\ pendingRequests (stopReconnectTimer c) = pendingRequests c.
Proof.
  unfold stopReconnectTimer. destruct (reconnectTimer c) as [t|]; [|repeat split; lia].
  repeat split. unfold weight, holders, clearTimeout.
  cbn [trace timers fetches sockets sources set_timers set_reconnectTimer log set_trace].
  rewrite settled_app. cbn [settled flat_map]. rewrite app_nil_r.
  pose proof (holds_filter timer_holds q (fun e => negb (Nat.eqb t (fst e))) (timers c)).
  unfold timer_remove. rewrite !occ_app. lia.
Qed.

Lemma weight_ws_close_call s code reason c q :
  weight (ws_close_call s code reason c) q = weight c q.
Proof.
  unfold ws_close_call.
  assert (E : forall c', weight (log (WsClose s code reason) c') q = weight c' q).
  { intros c'. unfold weight. rewrite settled_log by discriminate. reflexivity. }
  rewrite E. destruct (nth_error (sockets c) s) as [sock|] eqn:G; [|reflexivity].
  destruct (readyState sock); try reflexivity;
    unfold weight, holders; cbn [trace timers fetches sockets sources set_sockets];
    pose proof (flat_map_list_set (fun s => opener_list (ws_opener s)) q (sockets c) s sock
                  {| readyState := CLOSING; ws_opener := ws_opener sock |} G) as F;
    cbn [ws_opener] in F; rewrite !occ_app; lia.
Qed.

Lemma weight_es_close_call e c q : weight (es_close_call e c) q = weight c q.
Proof.
  unfold es_close_call.
  assert (E : forall c', weight (log (EsClose e) c') q = weight c' q).
  { intros c'. unfold weight. rewrite settled_log by discriminate. reflexivity. }
  rewrite E. destruct (nth_error (sources c) e) as [src|] eqn:G; [|reflexivity].
  unfold weight, holders. cbn [trace timers fetches sockets sources set_sources].
  pose proof (flat_map_list_set (fun s => opener_list (es_opener s)) q (sources c) e src
                {| es_closed := true; es_opener := es_opener src |} G) as F.
  cbn [es_opener] in F. rewrite !occ_app. lia.
Qed.

Section Disconnect.
Variable JSON_parse : js -> option js.

Lemma resume_all_settled l : forall c,
  settled (trace (fold_left (resume_rejected JSON_parse) l c))
  = settled (trace c) ++ flat_map (fun e => target (p_awaiter (snd e))) l.
Proof.
  induction l as [|e l IH]; intros c; cbn [fold_left flat_map].
  - now rewrite app_nil_r.
  - rewrite IH. unfold resume_rejected. rewrite resume_settled, <- app_assoc. reflexivity.
Qed.

Lemma weight_disconnect c q :
  wf c ->
  weight (disconnect JSON_parse c) q <= weight c q + occ q [promise_count c]
  /\ promise_count (disconnect JSON_parse c) = S (promise_count c).
Proof.
  intros W. unfold disconnect.
  set (c1 := stopReconnectTimer (new_promise c)).
  assert (W1 : wf c1).
  { apply wf_stopReconnectTimer. revert W. now apply wf_ext. }
  destruct (weight_stopReconnectTimer (new_promise c) q) as (L1 & P1 & _).
  fold c1 in L1, P1. change (weight (new_promise c) q) with (weight c q) in L1.
  change (promise_count (new_promise c)) with (S (promise_count c)) in P1.
  set (dp := promise_count c) in *.
  change (promise_count c) with dp.
  clearbody c1.
  set (c2 := match ws c1 with Some s => _ | None => c1 end).
  assert (E2 : weight c2 q = weight c1 q /\ promise_count c2 = promise_count c1
               /\ timers c2 = timers c1 /\ pendingRequests c2 = pendingRequests c1).
  { unfold c2. destruct (ws c1) as [s|]; [|tauto].
    change (weight (set_ws None (ws_close_call s 1000 "Client disconnect" c1)) q)
      with (weight (ws_close_call s 1000 "Client disconnect" c1) q).
    rewrite weight_ws_close_call. unfold ws_close_call. cbn.
    destruct (nth_error _ _) as [sock|]; [|tauto]. now destruct (readyState sock). }
  clearbody c2.
  set (c3 := match eventSource c2 with Some e => _ | None => c2 end).
  assert (E3 : weight c3 q = weight c2 q /\ promise_count c3 = promise_count c2
               /\ timers c3 = timers c2 /\ pendingRequests c3 = pendingRequests c2).
  { unfold c3. destruct (eventSource c2) as [e|]; [|tauto].
    change (weight (set_eventSource None (es_close_call e c2)) q)
      with (weight (es_close_call e c2) q).
    rewrite weight_es_close_call. unfold es_close_call. cbn.
    now destruct (nth_error _ _). }
  clearbody c3.
  destruct E2 as (A2 & B2 & C2 & D2). destruct E3 as (A3 & B3 & C3 & D3).
  set (waiting := pendingRequests c3).
  destruct (fold_reject_pending waiting c3) as (T4 & _ & _ & F4 & S4 & S4' & P4 & _ & Tr4).
  set (c4 := fold_left reject_pending waiting c3) in *.
  set (c5 := settle dp (Resolved JUndefined)
               (emit (on_disconnect "Client initiated")
                  (setState disconnected (set_pendingRequests [] c4)))).
  assert (H5 : host_part c5 = host_part (set_pendingRequests [] c4)).
  { unfold c5, settle. now rewrite host_part_log, host_part_emit, host_part_setState. }
  assert (S5 : settled (trace c5) = settled (trace c4) ++ [dp]).
  { unfold c5, settle. now rewrite settled_log_settle, emit_settled, setState_settled. }
  set (c6 := fold_left (resume_rejected JSON_parse) (filter awaits_tool waiting) c5).
  set (c7 := fold_left (resume_rejected JSON_parse) (filter awaits_connect waiting) c6).
  assert (H7 : host_part c7 = host_part (set_pendingRequests [] c4)).
  { unfold c7, c6. now rewrite !host_part_resume_all. }
  assert (S7 : settled (trace c7)
               = ((settled (trace c3) ++ map (fun e => p_promise (snd e)) waiting) ++ [dp])
                 ++ flat_map (fun e => target (p_awaiter (snd e))) (filter awaits_tool waiting)
                 ++ flat_map (fun e => target (p_awaiter (snd e)))
                      (filter awaits_connect waiting)).
  { unfold c7, c6. rewrite !resume_all_settled, S5, Tr4, settled_app, settled_rejections.
    now rewrite <- app_assoc. }
  fields H7. cbn in F_timers, F_fetches, F_sockets, F_sources, F_promise_count.
  split; [|now rewrite F_promise_count, P4, B3, B2].
  pose proof (clear_entries_holds q waiting (timers c3)) as K.
  rewrite <- (entries_split q waiting) in K.
  assert (K' : NoDup (map fst waiting) /\
               forall id e, In (id, e) waiting ->
                 timer_get (p_timeout e) (timers c3)
                 = Some (request_timeout id (p_promise e) (p_awaiter e))).
  { unfold waiting. rewrite D3, D2, C3, C2. split; [apply (wf_keys c1 W1)|].
    apply (wf_pending c1 W1). }
  specialize (K (proj1 K') (proj2 K')). rewrite <- T4 in K.
  unfold weight at 1, holders. rewrite S7, F_timers, F_fetches, F_sockets, F_sources.
  rewrite F4, S4, S4'. rewrite !occ_app.
  assert (U : weight c3 q
              = occ q (settled (trace c3)) + occ q (flat_map timer_holds (timers c3))
                + occ q (flat_map fetch_holds (fetches c3))
                + occ q (flat_map (fun s => opener_list (ws_opener s)) (sockets c3))
                + occ q (flat_map (fun s => opener_list (es_opener s)) (sources c3))).
  { unfold weight, holders. rewrite !occ_app. lia. }
  lia.
Qed.

End Disconnect.

Lemma grows_same c c' :
  promise_count c' = promise_count c -> (forall q, weight c' q <= weight c q) -> grows c c'.
Proof.
  intros P W. split; [lia|]. intros q. rewrite P, Nat.sub_diag. cbn [seq].
  rewrite occ_nil. specialize (W q). lia.
Qed.

Lemma grows_one c c' :
  promise_count c' = S (promise_count c) ->
  (forall q, weight c' q <= weight c q + occ q [promise_count c]) -> grows c c'.
Proof.
  intros P W. split; [lia|]. intros q. rewrite P.
  replace (S (promise_count c) - promise_count c) with 1 by lia. apply W.
Qed.

Lemma promise_count_set_readyState s r c :
  promise_count (set_readyState s r c) = promise_count c.
Proof. unfold set_readyState. now destruct (nth_error _ _). Qed.

Section Once.
Variable JSON_parse : js -> option js.

Lemma step_grows c ev : wf c -> grows c (step JSON_parse c ev).
Proof.
  intros W. destruct ev; cbn [step].
  - apply grows_one; [exact (proj2 (weight_connect c 0))|].
    intros q. rewrite (proj1 (weight_connect c q)). lia.
  - apply grows_one; [exact (proj2 (weight_disconnect JSON_parse c 0 W))|].
    intros q. exact (proj1 (weight_disconnect JSON_parse c q W)).
  - apply grows_one;
      [exact (proj2 (weight_request JSON_parse by_caller method params c 0))|].
    intros q. rewrite (proj1 (weight_request JSON_parse by_caller method params c q)).
    cbn [target]. lia.
  - split.
    + destruct (weight_callTool JSON_parse name args c 0) as [_ P]. lia.
    + intros q. destruct (weight_callTool JSON_parse name args c q) as [E P].
      rewrite E, P. replace (S (S (promise_count c)) - promise_count c) with 2 by lia.
      cbn [seq]. rewrite (occ_cons q (promise_count c) [S (promise_count c)]). lia.
  - apply grows_same; [reflexivity|]. intros q. now rewrite (weight_ext c).
  - apply grows_same; [reflexivity|]. intros q. now rewrite (weight_ext c).
  - unfold ws_on_open. destruct (ready s c) as [[]|]; try (apply grows_same; [reflexivity|lia]).
    split.
    + pose proof (proj1 (weight_ws_settle_opener JSON_parse s (Resolved JUndefined)
                           (set_readyState s OPEN c) 0)) as L.
      now rewrite promise_count_set_readyState in L.
    + intros q.
      pose proof (proj2 (weight_ws_settle_opener JSON_parse s (Resolved JUndefined)
                           (set_readyState s OPEN c) q)) as L.
      now rewrite promise_count_set_readyState, weight_set_readyState in L.
  - split; [apply (weight_ws_settle_opener JSON_parse s _ c 0)|].
    intros q. apply weight_ws_settle_opener.
  - unfold ws_on_message. destruct (ready s c); [|apply grows_same; [reflexivity|lia]].
    apply grows_same; [now apply (weight_handleMessage JSON_parse data c 0)|].
    intros q. now apply weight_handleMessage.
  - unfold ws_on_close.
    destruct (ready s c) as [[]|]; try (apply grows_same; [reflexivity|lia]);
      (apply grows_same;
       [ rewrite (proj2 (weight_handleDisconnect reason _ 0));
         apply promise_count_set_readyState
       | intros q; rewrite (proj1 (weight_handleDisconnect reason _ q)),
           weight_set_readyState; lia ]).
  - split; [apply (weight_es_settle_opener JSON_parse e _ c 0)|].
    intros q. apply weight_es_settle_opener.
  - split; [apply (weight_es_settle_opener JSON_parse e _ c 0)|].
    intros q. apply weight_es_settle_opener.
  - unfold es_on_message.
    destruct (nth_error (sources c) e) as [[[] ?]|]; try (apply grows_same; [reflexivity|lia]).
    apply grows_same; [now apply (weight_handleMessage JSON_parse data c 0)|].
    intros q. now apply weight_handleMessage.
  - split; [apply (weight_timer_fires JSON_parse t c 0)|].
    intros q. apply weight_timer_fires.
  - apply grows_same; [apply (weight_fetch_settles JSON_parse f _ c 0)|].
    intros q. apply weight_fetch_settles.
  - apply grows_same; [apply (weight_fetch_settles JSON_parse f _ c 0)|].
    intros q. apply weight_fetch_settles.
Qed.

Lemma once_run evs : forall c, wf c -> once c -> once (run JSON_parse evs c).
Proof.
  induction evs as [|ev evs IH]; intros c W O; cbn [run fold_left]; [assumption|].
  apply IH; [now apply wf_step|].
  destruct (step_grows c ev W) as [L G]. exact (once_grows _ _ L G O).
Qed.

(** X5: along every run no promise is settled twice: whatever responses,
    timeouts, closures, disconnects and POST answers arrive and in
    whatever order, resolve or reject is called at most once on the
    promise of each request, of each [callTool], of each [connect] and of
    each [disconnect]. *)
Theorem settles_at_most_once cfg evs :
  NoDup (settled (trace (run JSON_parse evs (new_client cfg)))).
Proof.
  assert (O : once (new_client cfg)) by (split; intros; unfold weight, occ; cbn; lia).
  pose proof (once_run evs _ (wf_new cfg) O) as [O1 _].
  apply (NoDup_count_occ Nat.eq_dec). intros q. specialize (O1 q).
  unfold weight, occ in O1. lia.
Qed.

End Once.

(** ** [disconnect] *)

Lemma trace_setState s c : exists l, trace (setState s c) = trace c ++ l.
Proof.
  rewrite setState_eq. destruct (state_eqb _ _).
  - exists []. now rewrite app_nil_r.
  - eexists. reflexivity.
Qed.

Lemma state_emit e c : _state (emit e c) = _state c.
Proof. now rewrite emit_eq. Qed.

Lemma state_connect_catch cp e c : _state (connect_catch cp e c) = error.
Proof. unfold connect_catch, settle. cbn [_state log set_trace]. now rewrite state_emit, setState_state. Qed.

Section DisconnectEffects.
Variable JSON_parse : js -> option js.

Lemma trace_resume k o c : exists l, trace (resume JSON_parse k o c) = trace c ++ l.
Proof.
  destruct k; cbn [resume].
  - exists []. now rewrite app_nil_r.
  - unfold callTool_resume, settle. destruct o; eexists; reflexivity.
  - assert (C : forall e, exists l, trace (connect_catch connect_promise e c) = trace c ++ l).
    { intros e. unfold connect_catch, settle. cbn [trace log set_trace].
      rewrite emit_eq. cbn [trace set_trace].
      destruct (trace_setState error c) as [l ->]. rewrite <- !app_assoc. eexists. reflexivity. }
    unfold connect_resume_initialize. destruct o as [[]|]; try apply C;
      unfold settle; cbn [trace log set_trace]; rewrite emit_eq; cbn [trace set_trace];
      match goal with |- context [setState connected ?x] =>
        destruct (trace_setState connected x) as [l ->] end;
      cbn [trace set_capabilities set_serverInfo]; rewrite <- !app_assoc; eexists; reflexivity.
Qed.

Lemma trace_resume_all l : forall c,
  exists t, trace (fold_left (resume_rejected JSON_parse) l c) = trace c ++ t.
Proof.
  induction l as [|e l IH]; intros c; cbn [fold_left].
  - exists []. now rewrite app_nil_r.
  - destruct (IH (resume_rejected JSON_parse c e)) as [t ->].
    unfold resume_rejected. destruct (trace_resume (p_awaiter (snd e)) disconnected_error c)
      as [t' ->]. rewrite <- app_assoc. eexists. reflexivity.
Qed.




Lemma disconnect_prefix c :
  let c1 := stopReconnectTimer (new_promise c) in
  let c2 := match ws c1 with
            | Some s => set_ws None (ws_close_call s 1000 "Client disconnect" c1)
            | None => c1
            end in
  let c3 := match eventSource c2 with
            | Some e => set_eventSource None (es_close_call e c2)
            | None => c2
            end in
  trace c3 = trace c ++ closing c /\ pendingRequests c3 = pendingRequests c
  /\ ws c3 = None /\ eventSource c3 = None /\ reconnectTimer c3 = None
  /\ timers c3 = match reconnectTimer c with
                 | Some t => timer_remove t (timers c)
                 | None => timers c
                 end.
Proof.
  unfold closing, stopReconnectTimer, ws_close_call, es_close_call, clearTimeout.
  cbn [reconnectTimer new_promise set_promise_count].
  destruct (reconnectTimer c) as [t|] eqn:R; cbn; destruct (ws c) as [s|] eqn:Ws; cbn;
    repeat match goal with
           | |- context [nth_error ?l ?i] => destruct (nth_error l i); cbn
           | |- context [readyState ?x] => destruct (readyState x); cbn
           end;
    rewrite ?Ws; cbn;
    destruct (eventSource c) as [e|] eqn:Es; cbn;
    repeat match goal with
           | |- context [nth_error ?l ?i] => destruct (nth_error l i); cbn
           end;
    rewrite ?R, ?Ws, ?Es, <- ?app_assoc, ?app_nil_r; repeat split; reflexivity.
Qed.

End DisconnectEffects.

Lemma timer_get_cleared t w : forall ts,
  timer_get t ts = None \/ In t (map (fun e : Z * Pending => p_timeout (snd e)) w) ->
  timer_get t (fold_left (fun ts (e : Z * Pending) => timer_remove (p_timeout (snd e)) ts) w ts)
  = None.
Proof.
  induction w as [|e w IH]; intros ts H; cbn [fold_left].
  - destruct H as [H|[]]. exact H.
  - apply IH. rewrite timer_get_remove.
    destruct (Nat.eqb_spec (p_timeout (snd e)) t) as [E|N]; [now left|].
    destruct H as [H|[H|H]]; [now left | congruence | now right].
Qed.

Section DisconnectTheorems.
Variable JSON_parse : js -> option js.

(** X6: [disconnect] in any state: the table of pending requests ends
    empty, the socket and the event stream are closed and forgotten, the
    reconnect timer and the timeout timers of all entries are disarmed;
    after the closing calls the trace shows, for each entry in table
    order, its timer cleared and its promise rejected with "Client
    disconnected", then the [disconnect] event with "Client initiated"
    and the promise of [disconnect] resolved. *)
Theorem disconnect_rejects_all c :
  let c' := disconnect JSON_parse c in
  pendingRequests c' = [] /\ ws c' = None /\ eventSource c' = None
  /\ reconnectTimer c' = None
  /\ (forall t, reconnectTimer c = Some t -> timer_get t (timers c') = None)
  /\ (forall id e, In (id, e) (pendingRequests c) ->
        timer_get (p_timeout e) (timers c') = None)
  /\ exists post,
       trace c' = trace c ++ closing c ++ rejections (pendingRequests c) ++ post
       /\ In (Emit (on_disconnect "Client initiated")) post
       /\ In (Settle (promise_count c) (Resolved JUndefined)) post.
Proof.
  unfold disconnect.
  destruct (disconnect_prefix c) as (T3 & P3 & W3 & E3 & R3 & Ti3).
  cbv zeta in T3, P3, W3, E3, R3, Ti3.
  set (c3 := match eventSource _ with Some e => _ | None => _ end) in *.
  clearbody c3. rewrite P3.
  set (waiting := pendingRequests c).
  destruct (fold_reject_pending waiting c3) as (T4 & _ & R4 & _ & _ & _ & _ & _ & Tr4).
  set (c4 := fold_left reject_pending waiting c3) in *.
  assert (W4 : ws c4 = None /\ eventSource c4 = None).
  { unfold c4. clear -W3 E3. revert c3 W3 E3.
    induction waiting as [|e w IH]; intros c3 W3 E3; cbn [fold_left]; [tauto|].
    apply IH; assumption. }
  set (c5 := settle (promise_count c) (Resolved JUndefined)
               (emit (on_disconnect "Client initiated")
                  (setState disconnected (set_pendingRequests [] c4)))).
  assert (H5 : host_part c5 = host_part (set_pendingRequests [] c4)).
  { unfold c5, settle. now rewrite host_part_log, host_part_emit, host_part_setState. }
  assert (Tr5 : exists l, trace c5 = trace c4 ++ l
                  /\ In (Emit (on_disconnect "Client initiated")) l
                  /\ In (Settle (promise_count c) (Resolved JUndefined)) l).
  { unfold c5, settle. cbn [trace log set_trace]. rewrite emit_eq. cbn [trace set_trace].
    destruct (trace_setState disconnected (set_pendingRequests [] c4)) as [l ->].
    cbn [trace set_pendingRequests]. rewrite <- !app_assoc. eexists. split; [reflexivity|].
    split; apply in_or_app; right; [now left|].
    apply in_or_app. right. now left. }
  set (c6 := fold_left (resume_rejected JSON_parse) (filter awaits_tool waiting) c5).
  set (c7 := fold_left (resume_rejected JSON_parse) (filter awaits_connect waiting) c6).
  assert (H7 : host_part c7 = host_part (set_pendingRequests [] c4)).
  { unfold c7, c6. now rewrite !host_part_resume_all. }
  fields H7. cbn in F_pending, F_ws, F_es, F_reconnect, F_timers.
  destruct Tr5 as (l5 & Tr5 & I1 & I2).
  destruct (trace_resume_all JSON_parse (filter awaits_tool waiting) c5) as [l6 Tr6].
  destruct (trace_resume_all JSON_parse (filter awaits_connect waiting) c6) as [l7 Tr7].
  fold c6 in Tr6. fold c7 in Tr7.
  repeat split.
  - exact F_pending.
  - rewrite F_ws. apply W4.
  - rewrite F_es. apply W4.
  - now rewrite F_reconnect, R4.
  - intros t Rt. rewrite F_timers, T4. apply timer_get_cleared. left.
    rewrite Ti3, Rt, timer_get_remove. now rewrite Nat.eqb_refl.
  - intros id e I. rewrite F_timers, T4. apply timer_get_cleared. right.
    apply in_map_iff. exists (id, e). split; [reflexivity|assumption].
  - exists (l5 ++ l6 ++ l7). split; [|split].
    + rewrite Tr7, Tr6, Tr5, Tr4, T3. now rewrite <- !app_assoc.
    + apply in_or_app. now left.
    + apply in_or_app. now left.
Qed.


End DisconnectTheorems.

(** X6, witness: [disconnect] with the [ping] of the sample session
    outstanding. *)
Lemma disconnect_rejects_all_witness :
  In (2%Z, {| p_promise := 2; p_awaiter := by_caller; p_timeout := 1 |})
     (pendingRequests Sample.pinging)
  /\ timer_get 1 (timers (disconnect Json.parse Sample.pinging)) = None
  /\ pendingRequests (disconnect Json.parse Sample.pinging) = [].
Proof.
  split; [vm_compute; now left|].
  destruct (disconnect_rejects_all Json.parse Sample.pinging) as (P & _ & _ & _ & _ & T & _).
  split; [|exact P].
  apply (T 2%Z {| p_promise := 2; p_awaiter := by_caller; p_timeout := 1 |}).
  vm_compute. now left.
Defined.

Example disconnect_while_connecting :
  let c := run Json.parse [call_connect; ws_open 0] (new_client Sample.cfg) in
  _state c = connecting
  /\ _state (disconnect Json.parse c) = error
  /\ settled (trace (disconnect Json.parse c)) = [1; 2; 0].
Proof. vm_compute. repeat split; reflexivity. Qed.

(** ** Inbound frames *)

Lemma map_get_delete_other k k' m : k <> k' -> map_get k' (map_delete k m) = map_get k' m.
Proof.
  intros N. unfold map_delete. induction m as [|[k0 e0] m IH]; cbn [filter map_get fst]; [reflexivity|].
  destruct (Z.eqb_spec k k0) as [->|N0]; cbn [negb map_get].
  - destruct (Z.eqb_spec k' k0); [congruence|exact IH].
  - destruct (Z.eqb_spec k' k0); [reflexivity|exact IH].
Qed.

Lemma map_get_None k m : ~ In k (map fst m) -> map_get k m = None.
Proof.
  induction m as [|[k0 e0] m IH]; cbn [map_get map fst In]; [reflexivity|]. intros N.
  destruct (Z.eqb_spec k k0) as [->|_]; [tauto|]. apply IH. tauto.
Qed.

Lemma map_delete_absent k m : map_get k m = None -> map_delete k m = m.
Proof.
  unfold map_delete. induction m as [|[k0 e0] m IH]; cbn [filter map_get fst]; [reflexivity|].
  destruct (Z.eqb_spec k k0) as [->|N]; [discriminate|]. cbn [negb]. intros G. now rewrite IH.
Qed.

Section Frames.
Variable JSON_parse : js -> option js.

(** X8: a frame that carries an id which is not in the table (never
    issued, already answered, already timed out), or an id that is not a
    number (the table is keyed by numbers, so ["1"] is not [1]), changes
    nothing: nothing is settled, no handler runs, nothing is logged,
    whether or not the frame also names a method. *)
Theorem frame_with_unknown_id data message c :
  JSON_parse (JStr data) = Some message ->
  has_key "id" message = Some true ->
  (pending_get (prop message "id") (pendingRequests c) = None
   \/ forall n, prop message "id" <> JNum n) ->
  handleMessage JSON_parse data c = c.
Proof.
  intros P K H. unfold handleMessage. rewrite P, K.
  destruct H as [H|H]; [now rewrite H|].
  destruct (prop message "id"); try reflexivity. now elim (H n).
Qed.

(** X9: the timer of a request fires: its promise is rejected with
    "Request timeout", its id leaves the table, the timer is gone, and
    neither the socket nor its reference is touched; a response with that
    id that arrives afterwards changes nothing. *)
Theorem timeout_then_late_response t id rp k data message c :
  timer_get t (timers c) = Some (request_timeout id rp k) ->
  JSON_parse (JStr data) = Some message ->
  has_key "id" message = Some true ->
  prop message "id" = JNum id ->
  let c1 := timer_fires JSON_parse t c in
  (exists post, trace c1 = trace c ++ Settle rp timeout_error :: post)
  /\ settled (trace c1) = settled (trace c) ++ rp :: target k
  /\ map_get id (pendingRequests c1) = None
  /\ timer_get t (timers c1) = None
  /\ ws c1 = ws c /\ sockets c1 = sockets c
  /\ handleMessage JSON_parse data c1 = c1.
Proof.
  intros G P K I c1. unfold c1, timer_fires. rewrite G.
  set (c0 := set_pendingRequests _ _).
  pose proof (host_part_settle_request JSON_parse rp k
                (Rejected (NewError (JStr "Request timeout"))) c0) as H.
  fields H. cbn in F_pending, F_timers, F_ws, F_sockets.
  assert (M : map_get id (pendingRequests (settle_request JSON_parse rp k
                (Rejected (NewError (JStr "Request timeout"))) c0)) = None).
  { rewrite F_pending. apply map_get_delete. }
  repeat split.
  - unfold settle_request, settle.
    destruct (trace_resume JSON_parse k (Rejected (NewError (JStr "Request timeout")))
                (log (Settle rp (Rejected (NewError (JStr "Request timeout")))) c0))
      as [post ->].
    exists post. cbn [trace log set_trace c0 set_pendingRequests set_timers].
    now rewrite <- app_assoc.
  - now rewrite settle_request_settled.
  - exact M.
  - rewrite F_timers, timer_get_remove. now rewrite Nat.eqb_refl.
  - exact F_ws.
  - exact F_sockets.
  - apply (frame_with_unknown_id data message); try assumption. left. now rewrite I.
Qed.

(** X10: a frame whose id is in the table settles the promise of that
    entry, with the frame's [result], or with [error.message] when the
    frame has a truthy [error]; the entry leaves the table and its timer
    is cleared, and the entries of all other ids stay as they are,
    whatever the order in which responses arrive. *)
Theorem response_settles_its_request data message id e c :
  JSON_parse (JStr data) = Some message ->
  has_key "id" message = Some true ->
  prop message "id" = JNum id ->
  map_get id (pendingRequests c) = Some e ->
  let c' := handleMessage JSON_parse data c in
  let outcome := if truthy (prop message "error")
                 then Rejected (NewError (prop (prop message "error") "message"))
                 else Resolved (prop message "result") in
  (exists post, trace c' = trace c ++ ClearTimeout (p_timeout e)
                             :: Settle (p_promise e) outcome :: post)
  /\ settled (trace c') = settled (trace c) ++ p_promise e :: target (p_awaiter e)
  /\ pendingRequests c' = map_delete id (pendingRequests c)
  /\ map_get id (pendingRequests c') = None
  /\ (forall id', id' <> id ->
        map_get id' (pendingRequests c') = map_get id' (pendingRequests c))
  /\ timers c' = timer_remove (p_timeout e) (timers c).
Proof.
  intros P K I G c' outcome. unfold c', handleMessage. rewrite P, K, I.
  cbn [pending_get pending_delete]. rewrite G.
  set (c0 := set_pendingRequests _ _).
  assert (E : (if truthy (prop message "error")
               then settle_request JSON_parse (p_promise e) (p_awaiter e)
                      (Rejected (NewError (prop (prop message "error") "message"))) c0
               else settle_request JSON_parse (p_promise e) (p_awaiter e)
                      (Resolved (prop message "result")) c0)
              = settle_request JSON_parse (p_promise e) (p_awaiter e) outcome c0).
  { unfold outcome. now destruct (truthy _). }
  rewrite E. clear E.
  pose proof (host_part_settle_request JSON_parse (p_promise e) (p_awaiter e) outcome c0) as H.
  fields H. cbn in F_pending, F_timers.
  assert (S0 : settled (trace c0) = settled (trace c)).
  { unfold c0, clearTimeout. cbn. rewrite settled_app. cbn. now rewrite app_nil_r. }
  repeat split.
  - unfold settle_request, settle.
    destruct (trace_resume JSON_parse (p_awaiter e) outcome
                (log (Settle (p_promise e) outcome) c0)) as [post ->].
    exists post. cbn. now rewrite <- !app_assoc.
  - now rewrite settle_request_settled, S0.
  - exact F_pending.
  - rewrite F_pending. apply map_get_delete.
  - intros id' N. rewrite F_pending. apply map_get_delete_other. congruence.
  - exact F_timers.
Qed.

(** X11: whatever a frame holds, handling it never touches the socket,
    the event stream, the reconnect timer, the handlers, the request
    counter or the POSTs in flight, and adds neither entries to the table
    nor timers: a frame cannot close the transport or start a reconnect. *)
Theorem frames_leave_transport_alone data c :
  let c' := handleMessage JSON_parse data c in
  ws c' = ws c /\ eventSource c' = eventSource c
  /\ sockets c' = sockets c /\ sources c' = sources c
  /\ reconnectTimer c' = reconnectTimer c
  /\ eventHandlers c' = eventHandlers c
  /\ requestId c' = requestId c /\ fetches c' = fetches c
  /\ incl (pendingRequests c') (pendingRequests c)
  /\ incl (timers c') (timers c).
Proof.
  unfold handleMessage.
  assert (same : forall c', host_part c' = host_part c ->
            ws c' = ws c /\ eventSource c' = eventSource c
            /\ sockets c' = sockets c /\ sources c' = sources c
            /\ reconnectTimer c' = reconnectTimer c
            /\ eventHandlers c' = eventHandlers c
            /\ requestId c' = requestId c /\ fetches c' = fetches c
            /\ incl (pendingRequests c') (pendingRequests c)
            /\ incl (timers c') (timers c)).
  { intros c' H. fields H. rewrite F_pending, F_timers.
    repeat split; try assumption; apply incl_refl. }
  destruct (JSON_parse (JStr data)) as [message|]; [|now apply same].
  destruct (has_key "id" message) as [[]|]; [| |now apply same].
  - destruct (pending_get _ _) as [pending|]; [|now apply same].
    assert (E : forall o,
      let c' := settle_request JSON_parse (p_promise pending) (p_awaiter pending) o
                  (set_pendingRequests
                     (pending_delete (prop message "id")
                        (pendingRequests (clearTimeout (p_timeout pending) c)))
                     (clearTimeout (p_timeout pending) c)) in
      ws c' = ws c /\ eventSource c' = eventSource c
      /\ sockets c' = sockets c /\ sources c' = sources c
      /\ reconnectTimer c' = reconnectTimer c
      /\ eventHandlers c' = eventHandlers c
      /\ requestId c' = requestId c /\ fetches c' = fetches c
      /\ incl (pendingRequests c') (pendingRequests c)
      /\ incl (timers c') (timers c)).
    { intros o c'. pose proof (host_part_settle_request JSON_parse (p_promise pending)
                                 (p_awaiter pending) o
                                 (set_pendingRequests
                                    (pending_delete (prop message "id")
                                       (pendingRequests (clearTimeout (p_timeout pending) c)))
                                    (clearTimeout (p_timeout pending) c))) as H.
      fold c' in H. fields H. cbn in *.
      rewrite F_pending, F_timers. repeat split; try assumption.
      - destruct (prop message "id"); try apply incl_refl.
        unfold pending_delete, map_delete. intros x I. now apply filter_In in I.
      - intros x I. now apply In_timer_remove in I. }
    destruct (truthy _); apply E.
  - destruct (has_key "method" message) as [[]|]; try now apply same.
    apply same, host_part_emit.
Qed.

(** X12: a frame without an id that names a method is handed, as it was
    decoded, to every handler registered for [notification], in the
    order of registration and once per registration; nothing else
    changes.  A frame with neither id nor method is dropped. *)
Theorem notification_reaches_handlers data message c :
  JSON_parse (JStr data) = Some message ->
  has_key "id" message = Some false ->
  let c' := handleMessage JSON_parse data c in
  (has_key "method" message = Some true ->
     trace c' = trace c ++ Emit (on_notification message)
                  :: map (fun h => Invoke h (on_notification message))
                       (eventHandlers c ev_notification))
  /\ (has_key "method" message <> Some true -> c' = c)
  /\ host_part c' = host_part c /\ _state c' = _state c.
Proof.
  intros P K c'. unfold c', handleMessage. rewrite P, K.
  destruct (has_key "method" message) as [[]|]; repeat split; try congruence.
  - intros _. now rewrite emit_eq.
  - apply host_part_emit.
  - apply state_emit.
Qed.

End Frames.

(** X8, witness: an answer to a request that was never made. *)
Lemma frame_with_unknown_id_witness :
  handleMessage Json.parse (Sample.response 7 "{}") Sample.pinging = Sample.pinging.
Proof.
  apply (frame_with_unknown_id Json.parse (Sample.response 7 "{}")
           (Sample.reply 7 (JObj [])) Sample.pinging).
  - vm_compute. reflexivity.
  - reflexivity.
  - left. vm_compute. reflexivity.
Defined.

(** X9, witness: the [ping] times out and is answered too late. *)
Lemma timeout_then_late_response_witness :
  let c1 := timer_fires Json.parse 1 Sample.pinging in
  settled (trace c1) = settled (trace Sample.pinging) ++ [2]
  /\ handleMessage Json.parse (Sample.response 2 "{}") c1 = c1.
Proof.
  destruct (timeout_then_late_response Json.parse 1 2 2 by_caller
              (Sample.response 2 "{}") (Sample.reply 2 (JObj [])) Sample.pinging)
    as (_ & S & _ & _ & _ & _ & L).
  - vm_compute. reflexivity.
  - vm_compute. reflexivity.
  - reflexivity.
  - reflexivity.
  - split; [exact S | exact L].
Defined.

(** X10, witness: the [ping] is answered. *)
Lemma response_settles_its_request_witness :
  let c' := handleMessage Json.parse (Sample.response 2 "{}") Sample.pinging in
  settled (trace c') = settled (trace Sample.pinging) ++ [2]
  /\ pendingRequests c' = map_delete 2 (pendingRequests Sample.pinging).
Proof.
  destruct (response_settles_its_request Json.parse (Sample.response 2 "{}")
              (Sample.reply 2 (JObj [])) 2
              {| p_promise := 2; p_awaiter := by_caller; p_timeout := 1 |} Sample.pinging)
    as (_ & S & P & _).
  - vm_compute. reflexivity.
  - reflexivity.
  - reflexivity.
  - vm_compute. reflexivity.
  - split; [exact S | exact P].
Defined.

(** X12, witness: a notification with handler 5 registered twice. *)
Lemma notification_reaches_handlers_witness :
  trace (handleMessage Json.parse Sample.notice Sample.listening)
  = trace Sample.listening
      ++ Emit (on_notification Sample.notice_js)
      :: map (fun h => Invoke h (on_notification Sample.notice_js))
           (eventHandlers Sample.listening ev_notification).
Proof.
  destruct (notification_reaches_handlers Json.parse Sample.notice Sample.notice_js
              Sample.listening) as (T & _).
  - vm_compute. reflexivity.
  - reflexivity.
  - apply T. reflexivity.
Defined.

Example listening_order : eventHandlers Sample.listening ev_notification = [5; 6; 5].
Proof. vm_compute. reflexivity. Qed.

Example pinging_answered :
  let c' := handleMessage Json.parse (Sample.response 2 "{}") Sample.pinging in
  pendingRequests c' = [] /\ timers c' = []
  /\ In (Settle 2 (Resolved (JObj []))) (trace c').
Proof.
  vm_compute. repeat split; try reflexivity.
  repeat match goal with |- _ \/ _ => first [left; reflexivity | right] end.
Qed.

(** ** Handlers *)

Lemma event_eqb_spec a b : reflect (a = b) (event_eqb a b).
Proof. destruct a, b; cbn; constructor; congruence. Qed.

Lemma remove_first_absent h l : ~ In h l -> remove_first h l = l.
Proof.
  induction l as [|x l IH]; cbn [remove_first In]; [reflexivity|]. intros N.
  destruct (Nat.eqb_spec h x) as [->|_]; [tauto|]. rewrite IH; tauto.
Qed.

Lemma remove_first_snoc h l :
  In h l -> remove_first h (l ++ [h]) = remove_first h l ++ [h].
Proof.
  induction l as [|x l IH]; cbn [remove_first In app]; [tauto|]. intros I.
  destruct (Nat.eqb_spec h x) as [->|N]; [reflexivity|].
  rewrite IH; [reflexivity|]. destruct I; congruence.
Qed.

Lemma remove_first_count h l :
  In h l -> S (count_occ Nat.eq_dec (remove_first h l) h) = count_occ Nat.eq_dec l h.
Proof.
  induction l as [|x l IH]; cbn [remove_first In]; [tauto|]. intros I.
  destruct (Nat.eqb_spec h x) as [->|N].
  - now rewrite count_occ_cons_eq.
  - rewrite !count_occ_cons_neq by congruence. apply IH. destruct I; congruence.
Qed.

Lemma remove_first_others h x l :
  x <> h -> count_occ Nat.eq_dec (remove_first h l) x = count_occ Nat.eq_dec l x.
Proof.
  intros N. induction l as [|y l IH]; cbn [remove_first]; [reflexivity|].
  destruct (Nat.eqb_spec h y) as [->|N'].
  - now rewrite count_occ_cons_neq by congruence.
  - destruct (Nat.eq_dec y x) as [->|N''].
    + now rewrite !count_occ_cons_eq, IH.
    + now rewrite !count_occ_cons_neq.
Qed.

(** X13: [on] adds one registration at the end of the list of its event;
    [off] takes away the earliest registration of the handler and no
    other; for a handler that is not registered [off] changes nothing,
    and it undoes the [on] before it; for one that is already registered,
    [on] then [off] moves it to the end.  Neither touches another event. *)
Theorem on_off_registrations ev h c :
  eventHandlers (on ev h c) ev = eventHandlers c ev ++ [h]
  /\ eventHandlers (off ev h c) ev = remove_first h (eventHandlers c ev)
  /\ (forall ev', ev' <> ev ->
        eventHandlers (on ev h c) ev' = eventHandlers c ev'
        /\ eventHandlers (off ev h c) ev' = eventHandlers c ev')
  /\ (~ In h (eventHandlers c ev) ->
        eventHandlers (off ev h c) ev = eventHandlers c ev
        /\ eventHandlers (off ev h (on ev h c)) ev = eventHandlers c ev)
  /\ (In h (eventHandlers c ev) ->
        S (count_occ Nat.eq_dec (eventHandlers (off ev h c) ev) h)
        = count_occ Nat.eq_dec (eventHandlers c ev) h
        /\ eventHandlers (off ev h (on ev h c)) ev
           = remove_first h (eventHandlers c ev) ++ [h])
  /\ (forall h', h' <> h ->
        count_occ Nat.eq_dec (eventHandlers (off ev h c) ev) h'
        = count_occ Nat.eq_dec (eventHandlers c ev) h').
Proof.
  unfold on, off. cbn [eventHandlers set_eventHandlers].
  destruct (event_eqb_spec ev ev) as [_|N]; [|congruence].
  split; [reflexivity|]. split; [reflexivity|]. split; [|split; [|split]].
  - intros ev' N. destruct (event_eqb_spec ev' ev); [congruence|]. now split.
  - intros N. split; [now apply remove_first_absent|].
    cbn. induction (eventHandlers c ev) as [|x l IH]; cbn [remove_first app In] in *.
    + now rewrite Nat.eqb_refl.
    + destruct (Nat.eqb_spec h x) as [->|_]; [tauto|]. rewrite IH; tauto.
  - intros I. split; [now apply remove_first_count | now apply remove_first_snoc].
  - intros h' N. now apply remove_first_others.
Qed.

(** X13, witness: handler 5 registered twice with 6 in between. *)
Lemma on_off_registrations_witness :
  eventHandlers (off ev_notification 5 Sample.listening) ev_notification = [6; 5]
  /\ eventHandlers (off ev_notification 5 (on ev_notification 5 Sample.listening))
       ev_notification
     = remove_first 5 (eventHandlers Sample.listening ev_notification) ++ [5].
Proof.
  split; [vm_compute; reflexivity|].
  apply (on_off_registrations ev_notification 5 Sample.listening).
  vm_compute. auto.
Defined.

(** ** [connect] *)



Arguments ws_url : simpl never.
Arguments sse_url : simpl never.
Arguments post_url : simpl never.

Section Handshake.
Variable JSON_parse : js -> option js.

Lemma opened cfg :
  transport cfg = websocket ->
  run JSON_parse [call_connect; ws_open 0] (new_client cfg)
  = let init := {| req_id := 1; req_method := "initialize"; req_params := initialize_params |} in
    {| config := cfg; ws := Some 0; eventSource := None; requestId := 1;
       pendingRequests := [(1%Z, {| p_promise := 1; p_awaiter := by_connect 0; p_timeout := 0 |})];
       eventHandlers := fun _ => []; _state := connecting;
       reconnectTimer := None; serverInfo := JNull; capabilities := JNull;
       sockets := [{| readyState := OPEN; ws_opener := None |}]; sources := [];
       timers := [(0, request_timeout 1 1 (by_connect 0))]; timer_count := 1;
       fetches := []; fetch_count := 0; promise_count := 2;
       trace := [Emit (on_stateChange connecting); WsNew 0 (ws_url cfg); MkRequest init;
                 SetTimeout 0 (timeout cfg); WsSend 0 init] |}.
Proof.
  destruct cfg as [h wp hp tr ar ri to]. cbn [transport]. intros ->. reflexivity.
Qed.

End Handshake.

Section HandshakeTheorem.
Variable JSON_parse : js -> option js.

(** X15: the handshake over a socket.  A fresh client that connects
    builds the first request, [initialize] with id 1, when the socket
    opens, and arms its timeout.  When the answer with id 1 arrives the
    table and the timers are empty again and: a result that is an object
    makes the session connected, caches its [serverInfo] and
    [capabilities], emits [connect] and resolves [connect] with it; an
    [error] makes the session [error], emits it and rejects [connect]
    with its message; an answer with neither, or with a null result,
    ends the same way with a TypeError.  In the failing cases the socket
    is neither closed nor forgotten and no reconnect is scheduled. *)
Theorem handshake cfg data message :
  transport cfg = websocket ->
  JSON_parse (JStr data) = Some message ->
  has_key "id" message = Some true ->
  prop message "id" = JNum 1 ->
  let c := run JSON_parse [call_connect; ws_open 0; ws_message 0 data] (new_client cfg) in
  let init := {| req_id := 1; req_method := "initialize"; req_params := initialize_params |} in
  let opening := [Emit (on_stateChange connecting); WsNew 0 (ws_url cfg); MkRequest init;
                  SetTimeout 0 (timeout cfg); WsSend 0 init; ClearTimeout 0] in
  let failed (answer : Outcome) (e : JsError) :=
    _state c = error
    /\ trace c = opening ++ [Settle 1 answer; Emit (on_stateChange error);
                             Emit (on_error e); Settle 0 (Rejected e)] in
  pendingRequests c = [] /\ timers c = [] /\ reconnectTimer c = None
  /\ ws c = Some 0 /\ sockets c = [{| readyState := OPEN; ws_opener := None |}]
  /\ (truthy (prop message "error") = true ->
        failed (Rejected (NewError (prop (prop message "error") "message")))
          (NewError (prop (prop message "error") "message")))
  /\ (truthy (prop message "error") = false ->
        prop message "result" = JUndefined \/ prop message "result" = JNull ->
        failed (Resolved (prop message "result")) TypeError)
  /\ (truthy (prop message "error") = false ->
        prop message "result" <> JUndefined -> prop message "result" <> JNull ->
        _state c = connected
        /\ serverInfo c = prop (prop message "result") "serverInfo"
        /\ capabilities c = prop (prop message "result") "capabilities"
        /\ trace c = opening ++ [Settle 1 (Resolved (prop message "result"));
                                 Emit (on_stateChange connected); Emit on_connect;
                                 Settle 0 (Resolved (prop message "result"))]).
Proof.
  intros T P K I c init opening failed.
  assert (E : c = handleMessage JSON_parse data
                    (run JSON_parse [call_connect; ws_open 0] (new_client cfg))).
  { unfold c. change [call_connect; ws_open 0; ws_message 0 data]
      with ([call_connect; ws_open 0] ++ [ws_message 0 data]).
    unfold run at 1. rewrite fold_left_app. fold (run JSON_parse [call_connect; ws_open 0]
                                                   (new_client cfg)).
    rewrite (opened JSON_parse cfg T). reflexivity. }
  unfold failed. clear failed. rewrite E, (opened JSON_parse cfg T). clear E c.
  unfold handleMessage. rewrite P, K, I. cbn [pending_get map_get Z.eqb Pos.eqb pendingRequests].
  destruct (truthy (prop message "error")).
  - vm_compute. repeat split; match goal with H : true = false |- _ => discriminate H end.
  - destruct (prop message "result") eqn:R; vm_compute;
      repeat split;
      try match goal with H : false = true |- _ => discriminate H end;
      try match goal with H : _ \/ _ |- _ => destruct H as [H|H]; discriminate H end;
      try match goal with H : ?x = ?x -> False |- _ => elim H; reflexivity end.
Qed.

End HandshakeTheorem.

(** X15, witness: the handshake of the sample session. *)
Lemma handshake_witness :
  _state (run Json.parse [call_connect; ws_open 0; ws_message 0 (Sample.response 1 Sample.hello)]
            (new_client Sample.cfg)) = connected.
Proof.
  destruct (handshake Json.parse Sample.cfg (Sample.response 1 Sample.hello)
              (Sample.reply 1 (JObj [("protocolVersion", JStr "2024-11-05");
                                     ("serverInfo", JObj [("name", JStr "anode");
                                                          ("version", JStr "1.0.0")]);
                                     ("capabilities", JObj [])])))
    as (_ & _ & _ & _ & _ & _ & _ & H).
  - reflexivity.
  - vm_compute. reflexivity.
  - reflexivity.
  - reflexivity.
  - apply H; [reflexivity | discriminate | discriminate].
Defined.

(** ** A request and its response *)

Lemma map_delete_set_fresh k e m : map_get k m = None -> map_delete k (map_set k e m) = m.
Proof.
  unfold map_delete. induction m as [|[k0 e0] m IH]; cbn [map_set map_get filter fst].
  - now rewrite Z.eqb_refl.
  - destruct (Z.eqb_spec k k0) as [->|N]; [discriminate|]. intros G.
    cbn [filter fst]. destruct (Z.eqb_spec k k0); [congruence|]. cbn [negb]. now rewrite IH.
Qed.

Lemma timer_remove_fresh t a ts :
  ~ In t (map fst ts) -> timer_remove t (ts ++ [(t, a)]) = ts.
Proof.
  unfold timer_remove. intros N. rewrite filter_app. cbn [filter fst].
  rewrite Nat.eqb_refl. cbn [negb]. rewrite app_nil_r.
  induction ts as [|[t0 a0] ts IH]; cbn [filter fst map In] in *; [reflexivity|].
  destruct (Nat.eqb_spec t t0) as [->|_]; [tauto|]. cbn [negb]. rewrite IH; tauto.
Qed.

Section RoundTrip.
Variable JSON_parse : js -> option js.

(** X16: a request sent on an open socket and then answered.  The
    request is sent under the next id with its timeout armed; when the
    frame with that id arrives the promise of the request is settled,
    once, with the frame's result, and the table of pending requests and
    the armed timers are exactly what they were before the request. *)
Theorem request_then_response method params s data message c :
  wf c ->
  transport (config c) = websocket -> ws c = Some s -> is_open s c = true ->
  map_get (pre_increment (requestId c)) (pendingRequests c) = None ->
  JSON_parse (JStr data) = Some message ->
  has_key "id" message = Some true ->
  prop message "id" = JNum (pre_increment (requestId c)) ->
  truthy (prop message "error") = false ->
  let r := {| req_id := pre_increment (requestId c); req_method := method;
              req_params := params |} in
  let c1 := request JSON_parse by_caller method params c in
  let c2 := handleMessage JSON_parse data c1 in
  trace c1 = trace c ++ [MkRequest r; SetTimeout (timer_count c) (timeout (config c));
                         WsSend s r]
  /\ trace c2 = trace c1 ++ [ClearTimeout (timer_count c);
                             Settle (promise_count c) (Resolved (prop message "result"))]
  /\ pendingRequests c2 = pendingRequests c
  /\ timers c2 = timers c.
Proof.
  intros W T Ws O G P K I E r c1 c2.
  assert (E1 : c1 = ws_send s r
                 (set_pendingRequests
                    (map_set (req_id r) {| p_promise := promise_count c; p_awaiter := by_caller;
                                           p_timeout := timer_count c |} (pendingRequests c))
                    (setTimeout (request_timeout (req_id r) (promise_count c) by_caller)
                       (timeout (config c))
                       (new_promise (log (MkRequest r) (set_requestId (req_id r) c)))))).
  { unfold c1, request. fold r. cbv zeta.
    set (c0 := new_promise (log (MkRequest r) (set_requestId _ c))).
    assert (T0 : transport (config c0) = websocket) by exact T.
    assert (W0 : ws c0 = Some s) by exact Ws.
    assert (O0 : is_open s c0 = true) by exact O.
    rewrite T0, W0, O0. reflexivity. }
  assert (T1 : trace c1 = trace c ++ [MkRequest r; SetTimeout (timer_count c)
                                        (timeout (config c)); WsSend s r]).
  { rewrite E1. cbn. now rewrite <- !app_assoc. }
  assert (P1 : pendingRequests c1
               = map_set (req_id r) {| p_promise := promise_count c; p_awaiter := by_caller;
                                       p_timeout := timer_count c |} (pendingRequests c))
    by now rewrite E1.
  assert (Ti1 : timers c1 = timers c ++ [(timer_count c,
                  request_timeout (req_id r) (promise_count c) by_caller)])
    by now rewrite E1.
  assert (G1 : map_get (req_id r) (pendingRequests c1)
               = Some {| p_promise := promise_count c; p_awaiter := by_caller;
                         p_timeout := timer_count c |}).
  { rewrite P1. clear. induction (pendingRequests c) as [|[k0 e0] m IH];
      cbn [map_set map_get]; [now rewrite Z.eqb_refl|].
    destruct (Z.eqb_spec (req_id r) k0) as [->|N]; cbn [map_get].
    - now rewrite Z.eqb_refl.
    - destruct (Z.eqb_spec (req_id r) k0); [congruence|exact IH]. }
  split; [exact T1|].
  unfold c2, handleMessage. rewrite P, K, I. cbn [pending_get pending_delete].
  change (pre_increment (requestId c)) with (req_id r). rewrite G1, E.
  cbn [p_promise p_awaiter p_timeout settle_request resume settle].
  unfold clearTimeout. cbn [trace log set_trace set_pendingRequests set_timers pendingRequests
                             timers].
  rewrite P1, Ti1. unfold settle, log.
  cbn [trace pendingRequests timers set_trace set_pendingRequests set_timers].
  repeat split.
  - now rewrite <- app_assoc.
  - now apply map_delete_set_fresh.
  - apply timer_remove_fresh. now apply fresh_handle.
Qed.

End RoundTrip.

(** X16, witness: a second [ping] on the sample session, answered. *)
Lemma request_then_response_witness :
  let c1 := request Json.parse by_caller "ping" JUndefined Sample.pinging in
  let c2 := handleMessage Json.parse (Sample.response 3 "{}") c1 in
  pendingRequests c2 = pendingRequests Sample.pinging /\ timers c2 = timers Sample.pinging.
Proof.
  destruct (request_then_response Json.parse "ping" JUndefined 0 (Sample.response 3 "{}")
              (Sample.reply 3 (JObj [])) Sample.pinging) as (_ & _ & P & T).
  - unfold Sample.pinging. apply wf_run, wf_new.
  - reflexivity.
  - vm_compute. reflexivity.
  - vm_compute. reflexivity.
  - vm_compute. reflexivity.
  - vm_compute. reflexivity.
  - reflexivity.
  - vm_compute. reflexivity.
  - reflexivity.
  - split; [exact P | exact T].
Defined.

(** ** A closure reported by a socket that is not the current one *)

Lemma handleDisconnect_effects reason c :
  ws (handleDisconnect reason c) = None
  /\ sockets (handleDisconnect reason c) = sockets c
  /\ promise_count (handleDisconnect reason c) = promise_count c
  /\ exists l, trace (handleDisconnect reason c) = trace c ++ l
       /\ In (Emit (on_disconnect reason)) l
       /\ forall s code why, ~ In (WsClose s code why) l.
Proof.
  unfold handleDisconnect. rewrite emit_eq, setState_eq.
  cbn [_state set_ws].
  destruct (state_eqb (_state c) disconnected);
    cbn [config set_trace set_state set_ws trace eventHandlers event_of];
    destruct (autoReconnect (config c)); unfold scheduleReconnect;
    cbn [reconnectTimer set_trace set_state set_ws]; try destruct (reconnectTimer c);
    cbn; rewrite <- ?app_assoc; (split; [reflexivity|]); (split; [reflexivity|]);
    (split; [reflexivity|]); eexists; (split; [reflexivity|]);
    (split; [rewrite ?in_app_iff; cbn; tauto|]);
    intros s code why I;
    repeat first
      [ apply in_app_iff in I; destruct I as [I|I]
      | apply in_map_iff in I; destruct I as (? & I & _); discriminate I
      | destruct I as [I|I]; [discriminate I|]
      | destruct I ].
Qed.

Lemma nth_error_list_set {A} (x : A) : forall l i j,
  nth_error (list_set i x l) j
  = if Nat.eqb j i then option_map (fun _ => x) (nth_error l i) else nth_error l j.
Proof.
  induction l as [|y l IH]; intros i j.
  - destruct i, j; cbn; try reflexivity. now destruct (Nat.eqb j i).
  - destruct i, j; cbn [list_set nth_error Nat.eqb option_map]; try reflexivity. apply IH.
Qed.

Lemma ready_set_readyState s r c s' :
  ready s' (set_readyState s r c)
  = if Nat.eqb s' s then option_map (fun _ => r) (ready s c) else ready s' c.
Proof.
  unfold ready, set_readyState.
  destruct (nth_error (sockets c) s) as [sock|] eqn:E.
  - cbn [sockets set_sockets]. rewrite nth_error_list_set, E.
    now destruct (Nat.eqb s' s).
  - destruct (Nat.eqb_spec s' s) as [->|N]; [now rewrite E | reflexivity].
Qed.

Section StaleClose.
Variable JSON_parse : js -> option js.

Lemma request_without_socket method params c :
  transport (config c) = websocket -> ws c = None ->
  trace (request JSON_parse by_caller method params c)
  = trace c ++ [MkRequest {| req_id := pre_increment (requestId c);
                             req_method := method; req_params := params |};
                Settle (promise_count c) not_connected_error].
Proof.
  intros T W. unfold request. cbn. rewrite T, W. cbn. now rewrite <- app_assoc.
Qed.

(** X17: the ['close'] of any socket that had not closed before makes
    the session disconnected and forgets the current socket, whichever
    socket closed: when it is an earlier socket (one that [disconnect]
    closed, say) the current one is left open, is not closed, and can no
    longer be used: on the websocket transport a request made next is
    rejected with "WebSocket not connected". *)
Theorem close_forgets_current_socket s reason r c :
  ready s c = Some r -> r <> CLOSED ->
  let c' := ws_on_close s reason c in
  ws c' = None /\ _state c' = disconnected
  /\ ready s c' = Some CLOSED
  /\ (forall s', s' <> s -> ready s' c' = ready s' c)
  /\ (exists l, trace c' = trace c ++ l /\ In (Emit (on_disconnect reason)) l
                /\ forall s' code why, ~ In (WsClose s' code why) l)
  /\ (transport (config c) = websocket -> forall method params,
        trace (request JSON_parse by_caller method params c')
        = trace c' ++ [MkRequest {| req_id := pre_increment (requestId c');
                                    req_method := method; req_params := params |};
                       Settle (promise_count c') not_connected_error]).
Proof.
  intros R N c'.
  assert (E : c' = handleDisconnect reason (set_readyState s CLOSED c)).
  { unfold c', ws_on_close. rewrite R. destruct r; try reflexivity. now elim N. }
  clearbody c'. subst c'.
  set (c1 := set_readyState s CLOSED c).
  destruct (handleDisconnect_effects reason c1) as (W & S & _ & l & T & I & NC).
  assert (R' : forall s', ready s' (handleDisconnect reason c1) = ready s' c1).
  { intros s'. unfold ready. now rewrite S. }
  assert (T1 : trace c1 = trace c).
  { unfold c1, set_readyState. now destruct (nth_error _ _). }
  assert (C1 : config c1 = config c).
  { unfold c1, set_readyState. now destruct (nth_error _ _). }
  split; [exact W|]. split; [apply handleDisconnect_pending|].
  split; [|split; [|split]].
  - rewrite R'. unfold c1. now rewrite ready_set_readyState, Nat.eqb_refl, R.
  - intros s' D. rewrite R'. unfold c1. rewrite ready_set_readyState.
    apply Nat.eqb_neq in D. now rewrite D.
  - exists l. rewrite T, T1. auto.
  - intros Tr method params. apply request_without_socket; [|exact W].
    now rewrite handleDisconnect_config, C1.
Qed.

End StaleClose.

(** The session of the witness: connected over socket 0, disconnected by
    the caller, connected again over socket 1. *)
Example reconnected_by_hand :
  let c := run Json.parse Sample.again (new_client Sample.cfg) in
  _state c = connected /\ ws c = Some 1
  /\ ready 0 c = Some CLOSING /\ ready 1 c = Some OPEN.
Proof. vm_compute. repeat split; reflexivity. Qed.

(** X17, witness: the socket that [disconnect] closed reports its closure
    after the caller connected again. *)
Lemma close_forgets_current_socket_witness :
  let c := run Json.parse Sample.again (new_client Sample.cfg) in
  ready 0 c = Some CLOSING
  /\ ws (ws_on_close 0 "Client disconnect" c) = None
  /\ ready 1 (ws_on_close 0 "Client disconnect" c) = Some OPEN.
Proof.
  assert (R : ready 0 (run Json.parse Sample.again (new_client Sample.cfg)) = Some CLOSING)
    by (vm_compute; reflexivity).
  assert (N : CLOSING <> CLOSED) by discriminate.
  destruct (close_forgets_current_socket Json.parse 0 "Client disconnect" CLOSING
              (run Json.parse Sample.again (new_client Sample.cfg)) R N)
    as (W & _ & _ & O & _).
  split; [exact R|]. split; [exact W|].
  rewrite (O 1); [vm_compute; reflexivity | discriminate].
Defined.

(** ** Errors of a socket or of the event stream *)

Section Errors.
Variable JSON_parse : js -> option js.

Lemma settle_request_sockets rp k o c :
  sockets (settle_request JSON_parse rp k o c) = sockets c
  /\ sources (settle_request JSON_parse rp k o c) = sources c.
Proof. pose proof (host_part_settle_request JSON_parse rp k o c) as H. fields H. now split. Qed.

Lemma request_sockets k method params c :
  sockets (request JSON_parse k method params c) = sockets c
  /\ sources (request JSON_parse k method params c) = sources c.
Proof.
  unfold request. cbn [transport config set_requestId log set_trace new_promise
                       set_promise_count ws].
  destruct (transport (config c)); [|split; reflexivity].
  destruct (ws c) as [s|].
  - destruct (is_open s _); [split; reflexivity|]. exact (settle_request_sockets _ _ _ _).
  - exact (settle_request_sockets _ _ _ _).
Qed.

Lemma connect_resume_transport_sockets cp o c :
  sockets (connect_resume_transport JSON_parse cp o c) = sockets c
  /\ sources (connect_resume_transport JSON_parse cp o c) = sources c.
Proof.
  destruct o as [v|e]; cbn [connect_resume_transport].
  - unfold initialize. exact (request_sockets _ _ _ _).
  - pose proof (host_part_connect_catch cp e c) as H. fields H. now split.
Qed.

Lemma connect_catch_fields cp e c :
  timers (connect_catch cp e c) = timers c
  /\ reconnectTimer (connect_catch cp e c) = reconnectTimer c
  /\ ws (connect_catch cp e c) = ws c
  /\ pendingRequests (connect_catch cp e c) = pendingRequests c
  /\ sockets (connect_catch cp e c) = sockets c.
Proof. pose proof (host_part_connect_catch cp e c) as H. fields H. now repeat split. Qed.

Lemma connect_catch_trace cp e c :
  exists l, trace (connect_catch cp e c) = trace c ++ l ++ [Settle cp (Rejected e)]
            /\ In (Emit (on_error e)) l.
Proof.
  unfold connect_catch, settle. rewrite log_eq. cbn [trace set_trace].
  rewrite emit_eq. cbn [trace set_trace].
  destruct (trace_setState error c) as [l0 T]. rewrite T.
  exists (l0 ++ Emit (on_error e)
             :: map (fun h => Invoke h (on_error e))
                  (eventHandlers (setState error c) (event_of (on_error e)))).
  split; [now rewrite <- !app_assoc|].
  apply in_or_app. right. now left.
Qed.

(** X18: an ['error'] of a socket is seen only by the [connect] that
    waits for the socket to open.  Once ['open'] was delivered, or a
    first ['error'], an ['error'] of that socket changes nothing: no
    event is emitted, the state stays, nothing is rejected.  The same
    holds for the event stream.  In no case does an ['error'] arm a
    timer, schedule a reconnect, or drop the reference to the socket. *)
Theorem error_after_open_is_dropped c :
  (forall s what, ready s c = Some CONNECTING ->
     ws_on_error JSON_parse s what (ws_on_open JSON_parse s c) = ws_on_open JSON_parse s c)
  /\ (forall s what what',
        ws_on_error JSON_parse s what' (ws_on_error JSON_parse s what c)
        = ws_on_error JSON_parse s what c)
  /\ (forall e, es_on_error JSON_parse e (es_on_open JSON_parse e c) = es_on_open JSON_parse e c)
  /\ (forall s what,
        let c' := ws_on_error JSON_parse s what c in
        timers c' = timers c /\ reconnectTimer c' = reconnectTimer c /\ ws c' = ws c
        /\ pendingRequests c' = pendingRequests c /\ ready s c' = ready s c)
  /\ (forall s what r cp,
        nth_error (sockets c) s = Some {| readyState := r; ws_opener := Some cp |} ->
        let c' := ws_on_error JSON_parse s what c in
        _state c' = error
        /\ exists l, trace c' = trace c ++ l ++ [Settle cp (Rejected (HostError what))]
                     /\ In (Emit (on_error (HostError what))) l).
Proof.
  assert (Drop : forall s o o' c0,
             ws_settle_opener JSON_parse s o' (ws_settle_opener JSON_parse s o c0)
             = ws_settle_opener JSON_parse s o c0).
  { intros s o o' c0. unfold ws_settle_opener at 2 3.
    destruct (nth_error (sockets c0) s) as [[r [cp|]]|] eqn:E.
    - unfold ws_settle_opener.
      rewrite (proj1 (connect_resume_transport_sockets _ _ _)). cbn [sockets set_sockets].
      now rewrite nth_error_list_set, Nat.eqb_refl, E.
    - unfold ws_settle_opener. now rewrite E.
    - unfold ws_settle_opener. now rewrite E. }
  split; [|split; [|split; [|split]]].
  - intros s what R. unfold ws_on_open. rewrite R. apply Drop.
  - intros s what what'. apply Drop.
  - intros e. unfold es_on_error, es_on_open, es_settle_opener at 2 3.
    destruct (nth_error (sources c) e) as [[[] [cp|]]|] eqn:E;
      try (unfold es_settle_opener; now rewrite E).
    unfold es_settle_opener.
    rewrite (proj2 (connect_resume_transport_sockets _ _ _)). cbn [sources set_sources].
    now rewrite nth_error_list_set, Nat.eqb_refl, E.
  - intros s what. cbv zeta. unfold ws_on_error, ws_settle_opener, ready.
    destruct (nth_error (sockets c) s) as [[r [cp|]]|] eqn:E;
      [|rewrite E; now repeat split..].
    cbn [connect_resume_transport].
    destruct (connect_catch_fields cp (HostError what)
                (set_sockets (list_set s {| readyState := r; ws_opener := None |} (sockets c)) c))
      as (F_timers & F_reconnect & F_ws & F_pending & F_sockets).
    rewrite F_timers, F_reconnect, F_ws, F_pending, F_sockets.
    cbn [sockets set_sockets]. rewrite nth_error_list_set, Nat.eqb_refl, E.
    now repeat split.
  - intros s what r cp E. cbv zeta.
    set (c0 := set_sockets (list_set s {| readyState := r; ws_opener := None |} (sockets c)) c).
    assert (Eq : ws_on_error JSON_parse s what c = connect_catch cp (HostError what) c0).
    { unfold ws_on_error, ws_settle_opener. rewrite E. reflexivity. }
    rewrite Eq. split; [exact (state_connect_catch cp (HostError what) c0)|].
    destruct (connect_catch_trace cp (HostError what) c0) as (l & T & I).
    exists l. split; [exact T | exact I].
Qed.

End Errors.

(** X18, witness: socket 0 opens, then reports an error. *)
Lemma error_after_open_is_dropped_witness :
  ready 0 (connect (new_client Sample.cfg)) = Some CONNECTING
  /\ ws_on_error Json.parse 0 "ECONNRESET" (ws_on_open Json.parse 0 (connect (new_client Sample.cfg)))
     = ws_on_open Json.parse 0 (connect (new_client Sample.cfg)).
Proof.
  split; [reflexivity|].
  exact (proj1 (error_after_open_is_dropped Json.parse (connect (new_client Sample.cfg)))
           0 "ECONNRESET" eq_refl).
Defined.

(** ** The reconnect attempt *)

Lemma kept_refl c : kept c c.
Proof. now repeat split. Qed.

Lemma kept_trans c1 c2 c3 : kept c1 c2 -> kept c2 c3 -> kept c1 c3.
Proof.
  intros (A1 & A2 & A3 & A4 & A5) (B1 & B2 & B3 & B4 & B5). unfold kept.
  now rewrite B1, B2, B3, B4, B5.
Qed.

Lemma kept_host c c' : host_part c' = host_part c -> kept c c'.
Proof. intros H. fields H. now repeat split. Qed.




Section ReconnectAttempt.
Variable JSON_parse : js -> option js.



End ReconnectAttempt.


(** ** Requests over http-sse *)

Lemma fetch_get_app f l l' :
  fetch_get f (l ++ l')
  = match fetch_get f l with Some x => Some x | None => fetch_get f l' end.
Proof.
  induction l as [|[f0 x] l IH]; cbn [app fetch_get]; [reflexivity|].
  now destruct (Nat.eqb f f0).
Qed.

Lemma fetch_remove_fresh f x l : fetch_get f l = None -> fetch_remove f (l ++ [(f, x)]) = l.
Proof.
  unfold fetch_remove. induction l as [|[f0 y] l IH]; cbn [app fetch_get filter fst].
  - now rewrite Nat.eqb_refl.
  - destruct (Nat.eqb f f0); [discriminate|]. intros G. cbn [negb]. now rewrite IH.
Qed.

Section Post.
Variable JSON_parse : js -> option js.

(** X20: a request on the http-sse transport and the end of its POST.
    The request is posted under the next id, whatever the state of the
    event stream; the promise is settled once, when the POST ends, and
    the outcome depends on the HTTP status and the body only: a status
    outside 200..299 rejects with "HTTP error: <status>" without reading
    the body, a body that is not JSON rejects with the decoder's
    SyntaxError, a truthy [error] rejects with its message, anything
    else resolves with [result]; a failed POST rejects with the error of
    [fetch].  The [id] of the answer is never looked at.  Afterwards the
    POSTs in flight are what they were, and neither the state, nor the
    table, nor the timers changed. *)
Theorem post_then_answer method params c :
  transport (config c) = http_sse ->
  fetch_get (fetch_count c) (fetches c) = None ->
  let r := {| req_id := pre_increment (requestId c); req_method := method;
              req_params := params |} in
  let f := fetch_count c in
  let p := promise_count c in
  let c1 := request JSON_parse by_caller method params c in
  let answered ev o :=
    trace (step JSON_parse c1 ev) = trace c1 ++ [Settle p o]
    /\ fetches (step JSON_parse c1 ev) = fetches c
    /\ _state (step JSON_parse c1 ev) = _state c
    /\ pendingRequests (step JSON_parse c1 ev) = pendingRequests c
    /\ timers (step JSON_parse c1 ev) = timers c in
  trace c1 = trace c ++ [MkRequest r; Post f (post_url (config c)) r]
  /\ (forall what, answered (fetch_failed f what) (Rejected (HostError what)))
  /\ (forall status body, http_ok status = false ->
        answered (fetch_response f status body)
          (Rejected (NewError (JStr ("HTTP error: " ++ string_of_Z status)))))
  /\ (forall status body, http_ok status = true -> JSON_parse (JStr body) = None ->
        answered (fetch_response f status body) (Rejected SyntaxError))
  /\ (forall status body fields, http_ok status = true ->
        JSON_parse (JStr body) = Some (JObj fields) ->
        answered (fetch_response f status body)
          (if truthy (prop (JObj fields) "error")
           then Rejected (NewError (prop (prop (JObj fields) "error") "message"))
           else Resolved (prop (JObj fields) "result"))).
Proof.
  intros T G r f p c1 answered. fold f in G.
  assert (E1 : c1 = log (Post f (post_url (config c)) r)
                      (set_fetches (fetches c ++ [(f, (p, by_caller))])
                         (set_fetch_count (S f)
                            (new_promise (log (MkRequest r) (set_requestId (req_id r) c)))))).
  { unfold c1, request. cbn [config set_requestId log set_trace new_promise set_promise_count].
    rewrite T. reflexivity. }
  assert (A : forall o ev, step JSON_parse c1 ev = fetch_settles JSON_parse f o c1 ->
                answered ev o).
  { intros o ev Eq. unfold answered. rewrite Eq. clear Eq ev.
    unfold fetch_settles. rewrite E1.
    cbn [fetches log set_trace set_fetches].
    rewrite fetch_get_app, G. cbn [fetch_get]. rewrite Nat.eqb_refl.
    rewrite (fetch_remove_fresh f (p, by_caller) (fetches c) G).
    unfold settle_request, resume, settle. repeat split. }
  split; [rewrite E1; cbn; now rewrite <- app_assoc|].
  split; [|split; [|split]].
  - intros what. apply A. reflexivity.
  - intros status body H. apply A. cbn [step]. unfold http_outcome. now rewrite H.
  - intros status body H P. apply A. cbn [step]. unfold http_outcome. now rewrite H, P.
  - intros status body fields H P. apply A. cbn [step]. unfold http_outcome.
    now rewrite H, P.
Qed.

End Post.

(** X20, witness: a [ping] posted by a client that never connected is
    answered with status 503. *)
Lemma post_then_answer_witness :
  transport (config (new_client Sample.cfg_sse)) = http_sse
  /\ http_ok 503 = false
  /\ trace (step Json.parse
              (request Json.parse by_caller "ping" JUndefined (new_client Sample.cfg_sse))
              (fetch_response 0 503 "Service Unavailable"))
     = trace (request Json.parse by_caller "ping" JUndefined (new_client Sample.cfg_sse))
       ++ [Settle 0 (Rejected (NewError (JStr "HTTP error: 503")))].
Proof.
  split; [reflexivity|]. split; [reflexivity|].
  destruct (post_then_answer Json.parse "ping" JUndefined (new_client Sample.cfg_sse)
              eq_refl eq_refl) as (_ & _ & H & _).
  exact (proj1 (H 503%Z "Service Unavailable" eq_refl)).
Defined.

Section HandshakeHttp.
Variable JSON_parse : js -> option js.

Lemma opened_sse cfg :
  transport cfg = http_sse ->
  run JSON_parse [call_connect; es_open 0] (new_client cfg)
  = let init := {| req_id := 1; req_method := "initialize"; req_params := initialize_params |} in
    {| config := cfg; ws := None; eventSource := Some 0; requestId := 1;
       pendingRequests := []; eventHandlers := fun _ => []; _state := connecting;
       reconnectTimer := None; serverInfo := JNull; capabilities := JNull;
       sockets := []; sources := [{| es_closed := false; es_opener := None |}];
       timers := []; timer_count := 0;
       fetches := [(0, (1, by_connect 0))]; fetch_count := 1; promise_count := 2;
       trace := [Emit (on_stateChange connecting); EsNew 0 (sse_url cfg); MkRequest init;
                 Post 0 (post_url cfg) init] |}.
Proof.
  destruct cfg as [h wp hp tr ar ri to]. cbn [transport]. intros ->. reflexivity.
Qed.

(** X21: the handshake over http-sse.  A fresh client that connects
    opens the event stream and, when it is open, posts [initialize] with
    id 1; no timer is armed.  When the POST ends: a status outside
    200..299, a body that is not JSON, or a failed POST make the session
    [error], emit [error] and reject [connect]; a result that is not
    null makes the session connected, caches [serverInfo] and
    [capabilities], emits [connect] and resolves [connect] with it.  In
    the failing cases the event stream is neither closed nor forgotten. *)
Theorem handshake_over_http cfg :
  transport cfg = http_sse ->
  let c0 := run JSON_parse [call_connect; es_open 0] (new_client cfg) in
  let init := {| req_id := 1; req_method := "initialize"; req_params := initialize_params |} in
  let opening := [Emit (on_stateChange connecting); EsNew 0 (sse_url cfg); MkRequest init;
                  Post 0 (post_url cfg) init] in
  let failed ev (e : JsError) :=
    let c := step JSON_parse c0 ev in
    _state c = error
    /\ trace c = opening ++ [Settle 1 (Rejected e); Emit (on_stateChange error);
                             Emit (on_error e); Settle 0 (Rejected e)]
    /\ eventSource c = Some 0
    /\ sources c = [{| es_closed := false; es_opener := None |}]
    /\ fetches c = [] /\ timers c = [] in
  trace c0 = opening /\ timers c0 = []
  /\ (forall what, failed (fetch_failed 0 what) (HostError what))
  /\ (forall status body, http_ok status = false ->
        failed (fetch_response 0 status body)
          (NewError (JStr ("HTTP error: " ++ string_of_Z status))))
  /\ (forall status body, http_ok status = true -> JSON_parse (JStr body) = None ->
        failed (fetch_response 0 status body) SyntaxError)
  /\ (forall status body response, http_ok status = true ->
        JSON_parse (JStr body) = Some response ->
        truthy (prop response "error") = false ->
        prop response "result" <> JUndefined -> prop response "result" <> JNull ->
        let c := step JSON_parse c0 (fetch_response 0 status body) in
        _state c = connected
        /\ serverInfo c = prop (prop response "result") "serverInfo"
        /\ capabilities c = prop (prop response "result") "capabilities"
        /\ trace c = opening ++ [Settle 1 (Resolved (prop response "result"));
                                 Emit (on_stateChange connected); Emit on_connect;
                                 Settle 0 (Resolved (prop response "result"))]
        /\ fetches c = [] /\ timers c = []).
Proof.
  intros T c0 init opening failed. unfold failed. clear failed.
  unfold c0. rewrite (opened_sse cfg T). clear c0.
  split; [reflexivity|]. split; [reflexivity|].
  split; [|split; [|split]].
  - intros what. vm_compute. repeat split.
  - intros status body H. cbn [step]. unfold http_outcome. rewrite H.
    vm_compute. repeat split.
  - intros status body H P. cbn [step]. unfold http_outcome. rewrite H, P.
    vm_compute. repeat split.
  - intros status body response H P E R1 R2. cbn [step]. unfold http_outcome.
    rewrite H, P.
    destruct response as [| | | | | | |fields];
      try (elim R1; reflexivity).
    rewrite E.
    destruct (prop (JObj fields) "result") eqn:R; vm_compute; repeat split;
      try (elim R1; reflexivity); try (elim R2; reflexivity).
Qed.

End HandshakeHttp.

(** X21, witness: the handshake of the sample session over http-sse. *)
Lemma handshake_over_http_witness :
  transport Sample.cfg_sse = http_sse
  /\ _state (step Json.parse
               (run Json.parse [call_connect; es_open 0] (new_client Sample.cfg_sse))
               (fetch_response 0 200 (Sample.response 1 Sample.hello))) = connected.
Proof.
  split; [reflexivity|].
  destruct (handshake_over_http Json.parse Sample.cfg_sse eq_refl) as (_ & _ & _ & _ & _ & H).
  assert (P : Json.parse (JStr (Sample.response 1 Sample.hello))
              = Some (Sample.reply 1 (JObj [("protocolVersion", JStr "2024-11-05");
                                            ("serverInfo", JObj [("name", JStr "anode");
                                                                 ("version", JStr "1.0.0")]);
                                            ("capabilities", JObj [])])))
    by (vm_compute; reflexivity).
  assert (O : http_ok 200 = true) by reflexivity.
  destruct (H 200%Z _ _ O P) as (S & _).
  - reflexivity.
  - discriminate.
  - discriminate.
  - exact S.
Defined.

(** ** A tool call and its response *)

Section ToolCall.
Variable JSON_parse : js -> option js.

(** X22: [callTool] on an open socket.  The call sends one request,
    ["tools/call"] with the name and the arguments, under the next id.
    When the frame with that id arrives, the promise of the request is
    settled first and the promise of [callTool] after it: rejected with
    the same error when the frame holds one, resolved with the unwrapped
    result otherwise.  When the timeout fires instead, both are rejected
    with "Request timeout".  After the response the table and the timers
    are what they were before the call. *)
Theorem callTool_then_response name args s data message c :
  wf c ->
  transport (config c) = websocket -> ws c = Some s -> is_open s c = true ->
  map_get (pre_increment (requestId c)) (pendingRequests c) = None ->
  JSON_parse (JStr data) = Some message ->
  has_key "id" message = Some true ->
  prop message "id" = JNum (pre_increment (requestId c)) ->
  let r := {| req_id := pre_increment (requestId c); req_method := "tools/call";
              req_params := JObj [("name", JStr name); ("arguments", args)] |} in
  let tp := promise_count c in
  let c1 := callTool JSON_parse name args c in
  let c2 := handleMessage JSON_parse data c1 in
  trace c1 = trace c ++ [MkRequest r; SetTimeout (timer_count c) (timeout (config c));
                         WsSend s r]
  /\ trace c2
     = trace c1 ++ ClearTimeout (timer_count c)
         :: (if truthy (prop message "error")
             then [Settle (S tp) (Rejected (NewError (prop (prop message "error") "message")));
                   Settle tp (Rejected (NewError (prop (prop message "error") "message")))]
             else [Settle (S tp) (Resolved (prop message "result"));
                   Settle tp (callTool_unwrap JSON_parse (prop message "result"))])
  /\ trace (timer_fires JSON_parse (timer_count c) c1)
     = trace c1 ++ [Settle (S tp) timeout_error; Settle tp timeout_error]
  /\ pendingRequests c2 = pendingRequests c
  /\ timers c2 = timers c.
Proof.
  intros W T Ws O G P K I r tp c1 c2.
  set (entry := {| p_promise := S tp; p_awaiter := by_callTool tp; p_timeout := timer_count c |}).
  assert (E1 : c1 = ws_send s r
                 (set_pendingRequests (map_set (req_id r) entry (pendingRequests c))
                    (setTimeout (request_timeout (req_id r) (S tp) (by_callTool tp))
                       (timeout (config c))
                       (new_promise (log (MkRequest r)
                                       (set_requestId (req_id r) (new_promise c))))))).
  { unfold c1, callTool, request. fold r. cbv zeta.
    set (c0 := new_promise (log (MkRequest _) (set_requestId _ (new_promise c)))).
    assert (T0 : transport (config c0) = websocket) by exact T.
    assert (W0 : ws c0 = Some s) by exact Ws.
    assert (O0 : is_open s c0 = true) by exact O.
    rewrite T0, W0, O0. reflexivity. }
  assert (T1 : trace c1 = trace c ++ [MkRequest r; SetTimeout (timer_count c)
                                        (timeout (config c)); WsSend s r]).
  { rewrite E1. cbn. now rewrite <- !app_assoc. }
  assert (P1 : pendingRequests c1 = map_set (req_id r) entry (pendingRequests c))
    by now rewrite E1.
  assert (Ti1 : timers c1 = timers c ++ [(timer_count c,
                  request_timeout (req_id r) (S tp) (by_callTool tp))])
    by now rewrite E1.
  assert (G1 : map_get (req_id r) (pendingRequests c1) = Some entry).
  { rewrite P1. clear. induction (pendingRequests c) as [|[k0 e0] m IH];
      cbn [map_set map_get]; [now rewrite Z.eqb_refl|].
    destruct (Z.eqb_spec (req_id r) k0) as [->|N]; cbn [map_get].
    - now rewrite Z.eqb_refl.
    - destruct (Z.eqb_spec (req_id r) k0); [congruence|exact IH]. }
  assert (F : ~ In (timer_count c) (map fst (timers c))) by now apply fresh_handle.
  split; [exact T1|].
  split; [|split].
  - unfold c2, handleMessage. rewrite P, K, I. cbn [pending_get pending_delete].
    change (pre_increment (requestId c)) with (req_id r). rewrite G1.
    destruct (truthy (prop message "error"));
      cbn [entry p_promise p_awaiter p_timeout settle_request resume callTool_resume settle];
      unfold clearTimeout, settle, log; cbn [trace set_trace set_pendingRequests set_timers];
      now rewrite <- !app_assoc.
  - unfold timer_fires. rewrite Ti1.
    assert (TG : timer_get (timer_count c)
                   (timers c ++ [(timer_count c,
                                  request_timeout (req_id r) (S tp) (by_callTool tp))])
                 = Some (request_timeout (req_id r) (S tp) (by_callTool tp))).
    { rewrite timer_get_app. rewrite (timer_get_None _ _ F). cbn. now rewrite Nat.eqb_refl. }
    rewrite TG. cbn [settle_request resume callTool_resume settle].
    unfold settle, log. cbn [trace set_trace set_pendingRequests set_timers].
    now rewrite <- !app_assoc.
  - unfold c2, handleMessage. rewrite P, K, I. cbn [pending_get pending_delete].
    change (pre_increment (requestId c)) with (req_id r). rewrite G1.
    assert (Q : forall o,
               let c' := settle_request JSON_parse (p_promise entry) (p_awaiter entry) o
                   (set_pendingRequests (map_delete (req_id r)
                        (pendingRequests (clearTimeout (p_timeout entry) c1)))
                      (clearTimeout (p_timeout entry) c1)) in
               pendingRequests c' = pendingRequests c /\ timers c' = timers c).
    { intros o c'. pose proof (host_part_settle_request JSON_parse (p_promise entry)
                                 (p_awaiter entry) o
                                 (set_pendingRequests (map_delete (req_id r)
                                    (pendingRequests (clearTimeout (p_timeout entry) c1)))
                                    (clearTimeout (p_timeout entry) c1))) as H.
      fold c' in H. destruct (kept_host _ _ H) as (_ & H2 & H3 & _).
      rewrite H2, H3. unfold clearTimeout.
      cbn [pendingRequests timers log set_trace set_pendingRequests set_timers entry p_timeout].
      rewrite P1, Ti1. split.
      - now apply map_delete_set_fresh.
      - now apply timer_remove_fresh. }
    destruct (truthy (prop message "error")); apply Q.
Qed.

End ToolCall.

(** X22, witness: a tool call on the sample session, answered with a text
    that is not JSON. *)
Lemma callTool_then_response_witness :
  let c1 := callTool Json.parse "file_read" (JObj [("path", JStr "/sdcard/a.txt")])
              Sample.pinging in
  let c2 := handleMessage Json.parse (Sample.response 3 (Sample.text_envelope "hello")) c1 in
  trace c2 = trace c1 ++ [ClearTimeout 2; Settle 4 (Resolved (Sample.text_result "hello"));
                          Settle 3 (Resolved (JStr "hello"))]
  /\ pendingRequests c2 = pendingRequests Sample.pinging.
Proof.
  destruct (callTool_then_response Json.parse "file_read" (JObj [("path", JStr "/sdcard/a.txt")])
              0 (Sample.response 3 (Sample.text_envelope "hello"))
              (Sample.reply 3 (Sample.text_result "hello")) Sample.pinging)
    as (_ & T & _ & P & _).
  - unfold Sample.pinging. apply wf_run, wf_new.
  - reflexivity.
  - vm_compute. reflexivity.
  - vm_compute. reflexivity.
  - vm_compute. reflexivity.
  - vm_compute. reflexivity.
  - reflexivity.
  - vm_compute. reflexivity.
  - split; [|exact P]. cbv zeta. rewrite T. f_equal.
Defined.

(** ** The stdio bridge *)

Lemma bridge_sent_app a b : Bridge.sent (a ++ b) = Bridge.sent a ++ Bridge.sent b.
Proof. apply flat_map_app. Qed.

Lemma bridge_lines_app a b : Bridge.lines (a ++ b) = Bridge.lines a ++ Bridge.lines b.
Proof. apply flat_map_app. Qed.

Lemma bridge_frames_app a b : Bridge.frames (a ++ b) = Bridge.frames a ++ Bridge.frames b.
Proof. apply flat_map_app. Qed.

Lemma bridge_stdout_app a b : Bridge.stdout (a ++ b) = Bridge.stdout a ++ Bridge.stdout b.
Proof. apply flat_map_app. Qed.

Lemma bridge_sent_sends s q : Bridge.sent (map (Bridge.Send s) q) = q.
Proof. induction q as [|m q IH]; cbn; [reflexivity|]. now f_equal. Qed.

Lemma bridge_quiet_sends s q :
  Bridge.lines (map (Bridge.Send s) q) = [] /\ Bridge.frames (map (Bridge.Send s) q) = []
  /\ Bridge.stdout (map (Bridge.Send s) q) = []
  /\ ~ In Bridge.Uncaught (map (Bridge.Send s) q).
Proof.
  induction q as [|m q (A & B & C & D)]; cbn; [tauto|].
  repeat split; try assumption. intros [H|H]; [discriminate|tauto].
Qed.

Lemma bridge_closed_snoc n x y :
  list_set n x (repeat CLOSED n ++ [y]) = repeat CLOSED n ++ [x].
Proof. induction n as [|n IH]; cbn; [reflexivity|]. now rewrite IH. Qed.

Lemma bridge_nth_closed n l s :
  s < n -> nth_error (repeat CLOSED n ++ l) s = Some CLOSED.
Proof.
  revert s. induction n as [|n IH]; intros s L; [lia|].
  destruct s; cbn; [reflexivity|]. apply IH. lia.
Qed.

Lemma bridge_nth_end n (l : list ReadyState) s :
  n <= s -> nth_error (repeat CLOSED n ++ l) s = nth_error l (s - n).
Proof.
  revert s. induction n as [|n IH]; intros s L; cbn.
  - now rewrite Nat.sub_0_r.
  - destruct s; [lia|]. cbn. apply IH. lia.
Qed.

(** A socket that is not closed is the one [ws] names. *)
Lemma bridge_live_socket c n s r :
  Bridge.sockets c = repeat CLOSED n ++ Bridge.live c ->
  (forall s', Bridge.ws c = Some s' -> s' = n) ->
  nth_error (Bridge.sockets c) s = Some r -> r <> CLOSED ->
  Bridge.ws c = Some n /\ s = n
  /\ r = (if Bridge.connected c then OPEN else CONNECTING).
Proof.
  intros E W N C. rewrite E in N.
  destruct (Nat.lt_ge_cases s n) as [L|L].
  - rewrite (bridge_nth_closed n _ s L) in N. congruence.
  - rewrite (bridge_nth_end n _ s L) in N. unfold Bridge.live in N.
    destruct (Bridge.ws c) as [s'|] eqn:Ws.
    + rewrite (W s' eq_refl). destruct (s - n) as [|k] eqn:D.
      * cbn in N. injection N as <-. repeat split. lia.
      * cbn in N. destruct k; discriminate N.
    + destruct (s - n); discriminate N.
Qed.

Lemma bridge_flush s : forall q c,
  Bridge.ws c = Some s -> nth_error (Bridge.sockets c) s = Some OPEN ->
  Bridge.exited c = None -> Bridge.messageQueue c = q ->
  Bridge.flush q c
  = {| Bridge.config := Bridge.config c; Bridge.ws := Bridge.ws c;
       Bridge.connected := Bridge.connected c; Bridge.messageQueue := [];
       Bridge.sockets := Bridge.sockets c; Bridge.timers := Bridge.timers c;
       Bridge.exited := None;
       Bridge.trace := Bridge.trace c ++ map (Bridge.Send s) q |}.
Proof.
  induction q as [|msg rest IH]; intros c W O X Q.
  - cbn. rewrite app_nil_r. destruct c; cbn in *. now subst.
  - cbn [Bridge.flush]. unfold Bridge.send. cbn [Bridge.ws Bridge.set_messageQueue Bridge.sockets].
    rewrite W, O. cbn [Bridge.exited Bridge.act Bridge.set_messageQueue]. rewrite X.
    rewrite IH; try assumption; try reflexivity.
    cbn. rewrite <- app_assoc. cbn. now rewrite ?W.
Qed.

Section BridgeRuns.
Variable blank : string -> bool.

Lemma bridge_relays_ext c c' l :
  Bridge.relays blank c ->
  Bridge.trace c' = Bridge.trace c ++ l ->
  Bridge.sent l ++ Bridge.messageQueue c'
  = Bridge.messageQueue c ++ filter (fun x => negb (blank x)) (Bridge.lines l) ->
  (Bridge.connected c' = true -> Bridge.messageQueue c' = []) ->
  Bridge.stdout l = map (fun data => (data ++ String "010" EmptyString)%string)
                      (Bridge.frames l) ->
  ~ In Bridge.Uncaught l ->
  Bridge.relays blank c'.
Proof.
  intros (R1 & R2 & R3 & R4) T Q C O U. unfold Bridge.relays. rewrite T.
  rewrite bridge_sent_app, bridge_lines_app, bridge_stdout_app, bridge_frames_app.
  rewrite filter_app, map_app, <- R1, <- R3, O, <- !app_assoc, Q.
  repeat split; try assumption.
  intros I. apply in_app_iff in I. tauto.
Qed.

Lemma bridge_leave why c :
  Bridge.exited (Bridge.leave why c) = Some 0%Z
  /\ Bridge.messageQueue (Bridge.leave why c) = Bridge.messageQueue c
  /\ Bridge.connected (Bridge.leave why c) = Bridge.connected c
  /\ exists l, Bridge.trace (Bridge.leave why c) = Bridge.trace c ++ l
       /\ Bridge.sent l = [] /\ Bridge.lines l = [] /\ Bridge.frames l = []
       /\ Bridge.stdout l = [] /\ ~ In Bridge.Uncaught l
       /\ In (Bridge.Exit 0) l
       /\ forall s, Bridge.ws c = Some s -> In (Bridge.Close s 1000 "Client closing") l.
Proof.
  unfold Bridge.leave, Bridge.exit, Bridge.close_ws, Bridge.log.
  cbn [Bridge.ws Bridge.act Bridge.sockets].
  destruct (Bridge.ws c) as [s|].
  - assert (E : forall r : option ReadyState,
               let c1 := match r with
                         | Some CLOSED | None => Bridge.act (Bridge.Stderr why) c
                         | Some _ => Bridge.set_sockets (list_set s CLOSING (Bridge.sockets c))
                                       (Bridge.act (Bridge.Stderr why) c)
                         end in
               Bridge.trace c1 = Bridge.trace c ++ [Bridge.Stderr why]
               /\ Bridge.messageQueue c1 = Bridge.messageQueue c
               /\ Bridge.connected c1 = Bridge.connected c)
      by (intros [[]|]; repeat split).
    destruct (E (nth_error (Bridge.sockets c) s)) as (E1 & E2 & E3).
    cbn [Bridge.exited Bridge.set_exited Bridge.messageQueue Bridge.connected Bridge.act
         Bridge.trace].
    rewrite E1, E2, E3. repeat split.
    exists [Bridge.Stderr why; Bridge.Close s 1000 "Client closing"; Bridge.Exit 0].
    rewrite <- !app_assoc. repeat split.
    + intros [H|[H|[H|[]]]]; discriminate.
    + cbn. tauto.
    + intros s' [= <-]. cbn. tauto.
  - cbn. repeat split. exists [Bridge.Stderr why; Bridge.Exit 0].
    rewrite <- !app_assoc. repeat split.
    + intros [H|[H|[]]]; discriminate.
    + cbn. tauto.
    + discriminate.
Qed.

Lemma bridge_relays_leave why c :
  Bridge.relays blank c -> Bridge.relays blank (Bridge.leave why c).
Proof.
  intros R. destruct (bridge_leave why c) as (_ & Q & C & l & T & L1 & L2 & L3 & L4 & L5 & _).
  apply (bridge_relays_ext c _ l R T).
  - now rewrite L1, L2, Q, app_nil_r.
  - rewrite C, Q. apply R.
  - now rewrite L3, L4.
  - exact L5.
Qed.

Lemma bridge_step_inv c ev :
  Bridge.relays blank c -> (Bridge.exited c = None -> Bridge.running c) ->
  Bridge.relays blank (Bridge.step blank c ev)
  /\ (Bridge.exited (Bridge.step blank c ev) = None -> Bridge.running (Bridge.step blank c ev)).
Proof.
  intros R Run. unfold Bridge.step. destruct (Bridge.exited c) as [code|] eqn:X;
    [split; [assumption|intros X'; congruence]|].
  pose proof (Run eq_refl) as Run'. clear Run.
  pose proof Run' as ((n & So & Wn) & Ti & Wnone).
  pose proof R as (R1 & R2 & R3 & R4).
  destruct ev as [s|s data|s code reason|s what|text| | | |].
  - (* open *)
    unfold Bridge.on_open. destruct (nth_error (Bridge.sockets c) s) as [r|] eqn:N; [|now split].
    destruct r; try (now split).
    destruct (bridge_live_socket c n s CONNECTING So Wn N) as (W & -> & Cn); [discriminate|].
    assert (Cf : Bridge.connected c = false) by (destruct (Bridge.connected c); congruence).
    assert (So' : Bridge.sockets c = repeat CLOSED n ++ [CONNECTING]).
    { rewrite So. unfold Bridge.live. now rewrite W, Cf. }
    rewrite (bridge_flush n); try reflexivity.
    + cbn. rewrite So', bridge_closed_snoc. split.
      * destruct (bridge_quiet_sends n (Bridge.messageQueue c)) as (A1 & A2 & A3 & A4).
        apply (bridge_relays_ext c _ ([Bridge.Stderr "Connected to Anode MCP Server"]
                                       ++ map (Bridge.Send n) (Bridge.messageQueue c)));
          try assumption.
        -- cbn. now rewrite <- app_assoc.
        -- rewrite bridge_sent_app, bridge_lines_app, bridge_sent_sends, A1. cbn.
           now rewrite !app_nil_r.
        -- reflexivity.
        -- rewrite bridge_stdout_app, bridge_frames_app, A2, A3. reflexivity.
        -- intros I. apply in_app_iff in I. destruct I as [[H|[]]|H]; [discriminate|tauto].
      * intros _. unfold Bridge.running, Bridge.live. cbn. rewrite Ti, W.
        repeat split; try discriminate. exists n. split; [reflexivity|].
        intros s' E. apply Wn. now rewrite W.
    + cbn. exact W.
    + cbn. rewrite So', bridge_closed_snoc. clear.
      induction n; cbn; [reflexivity|assumption].
    + cbn. exact X.
  - (* message *)
    unfold Bridge.on_message. destruct (nth_error (Bridge.sockets c) s) as [r|] eqn:N.
    2: now split.
    destruct r; try (now split).
    split.
    + apply (bridge_relays_ext c _ [Bridge.Frame s data;
                                     Bridge.Stdout (data ++ String "010" EmptyString)]);
        try assumption; cbn.
      * now rewrite <- app_assoc.
      * now rewrite app_nil_r.
      * reflexivity.
      * intros [H|[H|[]]]; discriminate.
    + intros _. exact Run'.
  - (* close *)
    unfold Bridge.on_close. destruct (nth_error (Bridge.sockets c) s) as [r|] eqn:N.
    2: now split.
    assert (K : r = CLOSED \/ r <> CLOSED) by (destruct r; (now left) || (right; discriminate)).
    destruct K as [->|K]; [now split|].
    destruct (bridge_live_socket c n s r So Wn N K) as (W & -> & Cn).
    assert (So' : Bridge.sockets c = repeat CLOSED n ++ [r]).
    { rewrite So. unfold Bridge.live. now rewrite W, <- Cn. }
    set (c1 := Bridge.set_ws None _).
    assert (E : (match r with
                 | CLOSED => c
                 | _ => if Bridge.reconnect (Bridge.config c1)
                        then Bridge.set_timers (S (Bridge.timers c1))
                               (Bridge.act (Bridge.SetTimeout
                                  (Bridge.reconnectInterval (Bridge.config c1))) c1)
                        else Bridge.exit 1 c1
                 end)
                = if Bridge.reconnect (Bridge.config c)
                  then Bridge.set_timers (S (Bridge.timers c1))
                         (Bridge.act (Bridge.SetTimeout
                            (Bridge.reconnectInterval (Bridge.config c1))) c1)
                  else Bridge.exit 1 c1).
    { destruct r; try reflexivity. now elim K. }
    rewrite E. clear E.
    assert (S1 : Bridge.sockets c1 = repeat CLOSED (S n)).
    { unfold c1. cbn. rewrite So', bridge_closed_snoc. cbn. now rewrite repeat_cons. }
    destruct (Bridge.reconnect (Bridge.config c)) eqn:Rc.
    + split.
      * apply (bridge_relays_ext c _
                 [Bridge.Stderr ("Disconnected: " ++ string_of_Z code ++ " " ++ reason);
                  Bridge.SetTimeout (Bridge.reconnectInterval (Bridge.config c))]);
          try assumption; cbn.
        -- now rewrite <- app_assoc.
        -- now rewrite app_nil_r.
        -- discriminate.
        -- reflexivity.
        -- intros [H|[H|[]]]; discriminate.
      * intros _. unfold Bridge.running, Bridge.live.
        cbn [Bridge.ws Bridge.set_timers Bridge.act Bridge.sockets Bridge.timers
             Bridge.connected Bridge.config].
        rewrite S1. unfold c1. cbn. rewrite Ti, W.
        repeat split; try assumption. exists (S n). split; [now rewrite app_nil_r|].
        discriminate.
    + split; [|discriminate].
      apply (bridge_relays_ext c _
               [Bridge.Stderr ("Disconnected: " ++ string_of_Z code ++ " " ++ reason);
                Bridge.Exit 1]);
        try assumption; cbn.
      * now rewrite <- app_assoc.
      * now rewrite app_nil_r.
      * discriminate.
      * reflexivity.
      * intros [H|[H|[]]]; discriminate.
  - (* error *)
    unfold Bridge.on_error. destruct (nth_error (Bridge.sockets c) s) as [r|] eqn:N.
    2: now split.
    split.
    + apply (bridge_relays_ext c _ [Bridge.Stderr ("WebSocket error: " ++ what)]);
        try assumption; cbn; try reflexivity.
      * now rewrite app_nil_r.
      * intros [H|[]]; discriminate.
    + intros _. exact Run'.
  - (* line *)
    unfold Bridge.on_line. cbn [Bridge.connected Bridge.ws Bridge.act].
    destruct (blank text) eqn:B.
    { split.
      - apply (bridge_relays_ext c _ [Bridge.Line text]); try assumption; cbn; try reflexivity.
        + now rewrite B, app_nil_r.
        + intros [H|[]]; discriminate.
      - intros _. exact Run'. }
    destruct (Bridge.connected c) eqn:Cn; [destruct (Bridge.ws c) as [s|] eqn:W|].
    + assert (O : nth_error (Bridge.sockets c) s = Some OPEN).
      { rewrite So. unfold Bridge.live. rewrite W, Cn, (Wn s eq_refl).
        clear. induction n; cbn; [reflexivity|assumption]. }
      unfold Bridge.send. cbn [Bridge.ws Bridge.act Bridge.sockets]. rewrite W, O. split.
      * apply (bridge_relays_ext c _ [Bridge.Line text; Bridge.Send s text]);
          try assumption; cbn.
        -- now rewrite <- app_assoc.
        -- now rewrite B, (R2 eq_refl).
        -- intros _. now apply R2.
        -- reflexivity.
        -- intros [H|[H|[]]]; discriminate.
      * intros _. exact Run'.
    + destruct (Wnone eq_refl) as [F _]. congruence.
    + split.
      * apply (bridge_relays_ext c _ [Bridge.Line text]); try assumption; cbn;
          try reflexivity.
        -- now rewrite B.
        -- congruence.
        -- intros [H|[]]; discriminate.
      * intros _. exact Run'.
  - (* stdin closes *)
    split; [now apply bridge_relays_leave|].
    destruct (bridge_leave "stdin closed, exiting..." c) as (E & _). congruence.
  - (* SIGINT *)
    split; [now apply bridge_relays_leave|].
    destruct (bridge_leave "Received SIGINT, closing..." c) as (E & _). congruence.
  - (* SIGTERM *)
    split; [now apply bridge_relays_leave|].
    destruct (bridge_leave "Received SIGTERM, closing..." c) as (E & _). congruence.
  - (* timer *)
    destruct (Bridge.timers c) as [|k] eqn:Tk.
    { now split. }
    destruct (Bridge.ws c) as [s|] eqn:W; [discriminate|]. injection Ti as ->.
    destruct (Wnone eq_refl) as (Cf & Rc).
    assert (So' : Bridge.sockets c = repeat CLOSED n).
    { rewrite So. unfold Bridge.live. now rewrite W, app_nil_r. }
    unfold Bridge.connect. cbn [Bridge.log Bridge.act Bridge.config Bridge.set_timers
                                 Bridge.sockets Bridge.set_sockets].
    split.
    + apply (bridge_relays_ext c _
               [Bridge.Stderr ("Connecting to " ++ Bridge.url (Bridge.config c) ++ "...");
                Bridge.New (List.length (Bridge.sockets c)) (Bridge.url (Bridge.config c))]);
        try assumption; cbn.
      * now rewrite <- app_assoc.
      * now rewrite app_nil_r.
      * reflexivity.
      * intros [H|[H|[]]]; discriminate.
    + intros _. unfold Bridge.running, Bridge.live. cbn. rewrite Cf, So', repeat_length.
      repeat split; try discriminate. exists n. split; [reflexivity|]. congruence.
Qed.

Lemma bridge_start cfg :
  Bridge.relays blank (Bridge.start cfg) /\ Bridge.running (Bridge.start cfg).
Proof.
  split.
  - unfold Bridge.relays. cbn. repeat split. intros [H|[H|[]]]; discriminate.
  - unfold Bridge.running, Bridge.live. cbn. repeat split; try discriminate.
    exists 0. split; [reflexivity|]. now intros s [= <-].
Qed.

Lemma bridge_run_inv cfg evs :
  Bridge.relays blank (Bridge.run blank cfg evs)
  /\ (Bridge.exited (Bridge.run blank cfg evs) = None
      -> Bridge.running (Bridge.run blank cfg evs)).
Proof.
  unfold Bridge.run.
  assert (H0 : Bridge.relays blank (Bridge.start cfg)
               /\ (Bridge.exited (Bridge.start cfg) = None -> Bridge.running (Bridge.start cfg))).
  { destruct (bridge_start cfg). tauto. }
  revert H0. generalize (Bridge.start cfg).
  induction evs as [|ev evs IH]; intros c H0; [exact H0|].
  cbn [fold_left]. apply IH. now apply bridge_step_inv.
Qed.

Lemma bridge_step_config c ev :
  Bridge.config (Bridge.step blank c ev) = Bridge.config c.
Proof.
  unfold Bridge.step. destruct (Bridge.exited c); [reflexivity|].
  destruct ev as [s|s data|s code reason|s what|text| | | |].
  - unfold Bridge.on_open. destruct (nth_error _ _) as [[]|]; try reflexivity.
    set (c1 := Bridge.set_connected true _).
    assert (G : forall q c0, Bridge.config (Bridge.flush q c0) = Bridge.config c0).
    { induction q as [|m q IHq]; intros c0; [reflexivity|]. cbn [Bridge.flush].
      assert (Sd : Bridge.config (Bridge.send m (Bridge.set_messageQueue q c0))
                   = Bridge.config c0).
      { unfold Bridge.send. cbn [Bridge.ws Bridge.set_messageQueue Bridge.sockets].
        destruct (Bridge.ws c0); [|reflexivity].
        now destruct (nth_error _ _) as [[]|]. }
      destruct (Bridge.exited _); [exact Sd|]. now rewrite IHq. }
    now rewrite G.
  - unfold Bridge.on_message. now destruct (nth_error _ _) as [[]|].
  - unfold Bridge.on_close. destruct (nth_error _ _) as [[]|]; try reflexivity;
      cbn [Bridge.config Bridge.set_ws Bridge.set_connected Bridge.log Bridge.act
           Bridge.set_sockets]; now destruct (Bridge.reconnect _).
  - unfold Bridge.on_error. now destruct (nth_error _ _).
  - unfold Bridge.on_line. cbn [Bridge.connected Bridge.ws Bridge.act].
    destruct (blank text); [reflexivity|].
    destruct (Bridge.connected c); [|reflexivity].
    destruct (Bridge.ws c) eqn:W; [|reflexivity].
    unfold Bridge.send. cbn [Bridge.ws Bridge.act Bridge.sockets]. rewrite W.
    now destruct (nth_error _ _) as [[]|].
  - unfold Bridge.leave, Bridge.close_ws. cbn [Bridge.ws Bridge.log Bridge.act].
    destruct (Bridge.ws c); [|reflexivity]. cbn [Bridge.sockets].
    now destruct (nth_error _ _) as [[]|].
  - unfold Bridge.leave, Bridge.close_ws. cbn [Bridge.ws Bridge.log Bridge.act].
    destruct (Bridge.ws c); [|reflexivity]. cbn [Bridge.sockets].
    now destruct (nth_error _ _) as [[]|].
  - unfold Bridge.leave, Bridge.close_ws. cbn [Bridge.ws Bridge.log Bridge.act].
    destruct (Bridge.ws c); [|reflexivity]. cbn [Bridge.sockets].
    now destruct (nth_error _ _) as [[]|].
  - now destruct (Bridge.timers c).
Qed.

Lemma bridge_run_config cfg evs : Bridge.config (Bridge.run blank cfg evs) = cfg.
Proof.
  unfold Bridge.run. change cfg with (Bridge.config (Bridge.start cfg)) at 2.
  generalize (Bridge.start cfg). induction evs as [|ev evs IH]; intros c; [reflexivity|].
  cbn [fold_left]. now rewrite IH, bridge_step_config.
Qed.

Lemma bridge_after_exit evs : forall c,
  Bridge.exited c <> None -> fold_left (Bridge.step blank) evs c = c.
Proof.
  induction evs as [|ev evs IH]; intros c X; [reflexivity|].
  cbn [fold_left]. unfold Bridge.step at 2. destruct (Bridge.exited c) eqn:E; [|congruence].
  apply IH. congruence.
Qed.


(** X24: while the bridge runs it holds at most one socket that is not
    closed, the one [ws] names; that socket is open exactly when
    [connected] is set.  A reconnect is armed exactly when there is no
    socket, so there is never more than one.  With reconnecting turned
    off there always is a socket, because its closure ends the process
    with code 1. *)
Theorem bridge_one_socket cfg evs :
  let c := Bridge.run blank cfg evs in
  Bridge.exited c = None ->
  (forall s r, nth_error (Bridge.sockets c) s = Some r -> r <> CLOSED ->
     Bridge.ws c = Some s /\ r = (if Bridge.connected c then OPEN else CONNECTING))
  /\ (forall s, Bridge.ws c = Some s ->
        nth_error (Bridge.sockets c) s
        = Some (if Bridge.connected c then OPEN else CONNECTING)
        /\ Bridge.timers c = 0)
  /\ (Bridge.ws c = None ->
        Bridge.timers c = 1 /\ Bridge.connected c = false /\ Bridge.reconnect cfg = true)
  /\ (Bridge.reconnect cfg = false ->
        forall s r code reason, nth_error (Bridge.sockets c) s = Some r -> r <> CLOSED ->
        Bridge.exited (Bridge.step blank c (Bridge.ws_close s code reason)) = Some 1%Z).
Proof.
  intros c X. destruct (proj2 (bridge_run_inv cfg evs) X) as ((n & So & Wn) & Ti & Wnone).
  fold c in So, Wn, Ti, Wnone.
  assert (Cf : Bridge.config c = cfg) by apply bridge_run_config.
  split; [|split; [|split]].
  - intros s r N K. destruct (bridge_live_socket c n s r So Wn N K) as (W & -> & E).
    now split.
  - intros s W. rewrite Ti, W. split; [|reflexivity].
    rewrite So. unfold Bridge.live. rewrite W, (Wn s W).
    clear. induction n; cbn; [reflexivity|assumption].
  - intros W. rewrite Ti, W, <- Cf. destruct (Wnone W). now repeat split.
  - intros Rc s r code reason N K.
    unfold Bridge.step. rewrite X. unfold Bridge.on_close. rewrite N.
    cbn [Bridge.config Bridge.set_ws Bridge.set_connected Bridge.log Bridge.act
         Bridge.set_sockets]. rewrite Cf, Rc.
    destruct r; try reflexivity. now elim K.
Qed.

(** X25: when standard input closes, or on SIGINT or SIGTERM, the
    bridge closes its socket with code 1000 and exits with code 0 at
    once: the queue is not flushed, so the lines queued while the socket
    was connecting or while a reconnect was pending are never sent, and
    nothing that comes later changes anything. *)
Theorem bridge_exit_keeps_queue cfg evs ev evs' :
  Bridge.leaves ev = true ->
  let c := Bridge.run blank cfg evs in
  let c' := Bridge.run blank cfg (evs ++ ev :: evs') in
  Bridge.exited c = None ->
  Bridge.exited c' = Some 0%Z
  /\ Bridge.messageQueue c' = Bridge.messageQueue c
  /\ Bridge.sent (Bridge.trace c') = Bridge.sent (Bridge.trace c)
  /\ (forall s, Bridge.ws c = Some s ->
        In (Bridge.Close s 1000 "Client closing") (Bridge.trace c')).
Proof.
  intros L c c' X.
  assert (E : exists why, Bridge.step blank c ev = Bridge.leave why c).
  { unfold Bridge.step. rewrite X. destruct ev; try discriminate L; eexists; reflexivity. }
  destruct E as (why & E).
  destruct (bridge_leave why c) as (X' & Q & _ & l & T & L1 & _ & _ & _ & _ & _ & Cl).
  assert (E' : c' = Bridge.leave why c).
  { unfold c', Bridge.run. rewrite fold_left_app. cbn [fold_left].
    fold (Bridge.run blank cfg evs). fold c. rewrite E.
    apply bridge_after_exit. congruence. }
  rewrite E'. split; [exact X'|]. split; [exact Q|]. split.
  - now rewrite T, bridge_sent_app, L1, app_nil_r.
  - intros s W. rewrite T. apply in_or_app. right. now apply Cl.
Qed.

End BridgeRuns.

(** A line typed before the socket opens is queued and sent when it
    opens; a blank line is dropped; a frame goes to standard output. *)
Example bridge_session :
  let cfg := {| Bridge.host := "192.168.1.100"; Bridge.port := Bridge.Int 8765;
                Bridge.reconnect := true; Bridge.reconnectInterval := Bridge.Int 3000 |} in
  let c := Bridge.run Bridge.ascii_blank cfg
             [Bridge.line "a"; Bridge.line "  "; Bridge.ws_open 0; Bridge.line "b";
              Bridge.ws_message 0 "r"; Bridge.ws_close 0 1006 "gone"; Bridge.line "c";
              Bridge.timer; Bridge.ws_open 1] in
  Bridge.sent (Bridge.trace c) = ["a"; "b"; "c"]
  /\ Bridge.stdout (Bridge.trace c) = [("r" ++ String "010" EmptyString)%string]
  /\ Bridge.ws c = Some 1 /\ Bridge.sockets c = [CLOSED; OPEN].
Proof. vm_compute. repeat split; reflexivity. Qed.

(** X24, witness: the bridge after its socket opened. *)
Lemma bridge_one_socket_witness :
  let cfg := {| Bridge.host := "192.168.1.100"; Bridge.port := Bridge.Int 8765;
                Bridge.reconnect := true; Bridge.reconnectInterval := Bridge.Int 3000 |} in
  let c := Bridge.run Bridge.ascii_blank cfg [Bridge.line "a"; Bridge.ws_open 0] in
  Bridge.exited c = None /\ Bridge.ws c = Some 0 /\ Bridge.timers c = 0.
Proof.
  cbv zeta. split; [reflexivity|]. split; [reflexivity|].
  exact (proj2 (proj1 (proj2 (bridge_one_socket Bridge.ascii_blank
                                {| Bridge.host := "192.168.1.100"; Bridge.port := Bridge.Int 8765;
                                   Bridge.reconnect := true;
                                   Bridge.reconnectInterval := Bridge.Int 3000 |}
                                [Bridge.line "a"; Bridge.ws_open 0] eq_refl)) 0 eq_refl)).
Defined.

(** X25, witness: standard input closes before the socket opened. *)
Lemma bridge_exit_keeps_queue_witness :
  let cfg := {| Bridge.host := "192.168.1.100"; Bridge.port := Bridge.Int 8765;
                Bridge.reconnect := true; Bridge.reconnectInterval := Bridge.Int 3000 |} in
  let c' := Bridge.run Bridge.ascii_blank cfg
              [Bridge.line "a"; Bridge.stdin_close; Bridge.ws_open 0] in
  Bridge.leaves Bridge.stdin_close = true
  /\ Bridge.exited c' = Some 0%Z /\ Bridge.messageQueue c' = ["a"]
  /\ Bridge.sent (Bridge.trace c') = [].
Proof.
  cbv zeta. split; [reflexivity|].
  destruct (bridge_exit_keeps_queue Bridge.ascii_blank
              {| Bridge.host := "192.168.1.100"; Bridge.port := Bridge.Int 8765;
                 Bridge.reconnect := true; Bridge.reconnectInterval := Bridge.Int 3000 |}
              [Bridge.line "a"] Bridge.stdin_close [Bridge.ws_open 0] eq_refl eq_refl)
    as (X & Q & S & _).
  split; [exact X|]. split; [exact Q | exact S].
Defined.

(** ** The cached server descriptor *)

Lemma server_emit e c : server (emit e c) = server c.
Proof. now rewrite emit_eq. Qed.

Lemma server_setState s c : server (setState s c) = server c.
Proof. rewrite setState_eq. now destruct (state_eqb _ _). Qed.

Lemma server_connect_catch cp e c : server (connect_catch cp e c) = server c.
Proof.
  unfold connect_catch, settle, log.
  change (server (emit (on_error e) (setState error c)) = server c).
  now rewrite server_emit, server_setState.
Qed.

Lemma server_connect c : server (connect c) = server c.
Proof.
  unfold connect. cbn [_state new_promise set_promise_count].
  destruct (state_eqb (_state c) connected); [reflexivity|].
  destruct (transport _); unfold connectWebSocket, connectHttpSse;
    change (server (setState connecting (new_promise c)) = server c);
    now rewrite server_setState.
Qed.

Lemma server_scheduleReconnect c : server (scheduleReconnect c) = server c.
Proof. unfold scheduleReconnect. now destruct (reconnectTimer c). Qed.

Lemma server_handleDisconnect reason c : server (handleDisconnect reason c) = server c.
Proof.
  unfold handleDisconnect. destruct (autoReconnect _);
    now rewrite ?server_scheduleReconnect, server_emit, server_setState.
Qed.

Section Server.
Variable JSON_parse : js -> option js.

Lemma server_rejected rp k e c :
  server (settle_request JSON_parse rp k (Rejected e) c) = server c.
Proof.
  unfold settle_request, resume. destruct k as [|tp|cp]; [reflexivity..|].
  cbn [connect_resume_initialize]. now rewrite server_connect_catch.
Qed.

Lemma server_request k method params c :
  server (request JSON_parse k method params c) = server c.
Proof.
  unfold request. cbn [transport config set_requestId log set_trace new_promise
                       set_promise_count ws].
  destruct (transport (config c)); [|reflexivity].
  destruct (ws c) as [s|].
  - destruct (is_open s _); [reflexivity|]. now rewrite server_rejected.
  - now rewrite server_rejected.
Qed.

Lemma server_connect_resume_transport cp o c :
  server (connect_resume_transport JSON_parse cp o c) = server c.
Proof.
  destruct o; cbn [connect_resume_transport].
  - unfold initialize. exact (server_request _ _ _ _).
  - apply server_connect_catch.
Qed.

Lemma server_rejections_resumed l : forall c,
  server (fold_left (resume_rejected JSON_parse) l c) = server c.
Proof.
  induction l as [|x l IH]; intros c; [reflexivity|]. cbn [fold_left]. rewrite IH.
  unfold resume_rejected, disconnected_error, resume.
  destruct (p_awaiter (snd x)); [reflexivity..|].
  cbn [connect_resume_initialize]. apply server_connect_catch.
Qed.

Lemma server_reject_pending l : forall c, server (fold_left reject_pending l c) = server c.
Proof. induction l as [|x l IH]; intros c; [reflexivity|]. cbn [fold_left]. now rewrite IH. Qed.

Lemma server_closing c :
  server (stopReconnectTimer c) = server c
  /\ (forall s code reason, server (ws_close_call s code reason c) = server c)
  /\ (forall e, server (es_close_call e c) = server c).
Proof.
  split; [|split].
  - unfold stopReconnectTimer. now destruct (reconnectTimer c).
  - intros s code reason. unfold ws_close_call.
    now destruct (nth_error (sockets c) s) as [[[] ?]|].
  - intros e. unfold es_close_call. now destruct (nth_error (sources c) e).
Qed.

Lemma server_disconnect c : server (disconnect JSON_parse c) = server c.
Proof.
  unfold disconnect. rewrite !server_rejections_resumed. unfold settle, log.
  match goal with |- server (set_trace _ ?x) = _ => change (server x = server c) end.
  rewrite server_emit, server_setState.
  match goal with |- server (set_pendingRequests _ ?x) = _ => change (server x = server c) end.
  rewrite server_reject_pending.
  set (c1 := stopReconnectTimer (new_promise c)).
  assert (H1 : server c1 = server c) by apply (proj1 (server_closing (new_promise c))).
  clearbody c1.
  set (c2 := match ws c1 with Some s => _ | None => c1 end).
  assert (H2 : server c2 = server c).
  { unfold c2. destruct (ws c1) as [s|]; [|exact H1].
    rewrite <- H1. exact (proj1 (proj2 (server_closing c1)) s _ _). }
  clearbody c2.
  destruct (eventSource c2) as [e|]; [|exact H2].
  rewrite <- H2. exact (proj2 (proj2 (server_closing c2)) e).
Qed.

(** X26: the server descriptor and the capabilities cached by the
    handshake are null on a new instance and change only when an answer
    of the server is handled: no call of a method, no closure, no error,
    no timer and no failed POST clears or changes them, so after
    [disconnect], or after the connection was lost, [server] still
    returns the descriptor of the last session. *)
Theorem server_is_kept :
  (forall cfg, server (new_client cfg) = (JNull, JNull))
  /\ (forall c ev, carries_answer ev = false -> server (step JSON_parse c ev) = server c).
Proof.
  split; [reflexivity|]. intros c ev A.
  destruct ev; try discriminate A; cbn [step].
  - apply server_connect.
  - apply server_disconnect.
  - apply server_request.
  - unfold callTool. exact (server_request _ _ _ _).
  - reflexivity.
  - reflexivity.
  - unfold ws_on_open, set_readyState, ws_settle_opener, ready.
    destruct (nth_error (sockets c) s) as [[[] o]|] eqn:N; try reflexivity.
    cbn [option_map readyState sockets set_sockets ws_opener].
    rewrite nth_error_list_set, Nat.eqb_refl, N. cbn [option_map].
    destruct o; [|reflexivity]. now rewrite server_connect_resume_transport.
  - unfold ws_on_error, ws_settle_opener.
    destruct (nth_error (sockets c) s) as [[r [cp|]]|]; try reflexivity.
    now rewrite server_connect_resume_transport.
  - unfold ws_on_close, set_readyState, ready.
    destruct (nth_error (sockets c) s) as [[[] o]|]; try reflexivity;
      cbn [option_map readyState]; now rewrite server_handleDisconnect.
  - unfold es_on_open, es_settle_opener.
    destruct (nth_error (sources c) e) as [[[] [cp|]]|]; try reflexivity.
    now rewrite server_connect_resume_transport.
  - unfold es_on_error, es_settle_opener.
    destruct (nth_error (sources c) e) as [[[] [cp|]]|]; try reflexivity.
    now rewrite server_connect_resume_transport.
  - unfold timer_fires. destruct (timer_get t (timers c)) as [[id rp k|]|]; try reflexivity.
    + now rewrite server_rejected.
    + now rewrite server_connect.
  - unfold fetch_settles. destruct (fetch_get f (fetches c)) as [[rp k]|]; [|reflexivity].
    now rewrite server_rejected.
Qed.

End Server.

(** X26, witness: the sample session after [disconnect]. *)
Lemma server_is_kept_witness :
  let c := run Json.parse Sample.handshake (new_client Sample.cfg) in
  carries_answer call_disconnect = false
  /\ _state (step Json.parse c call_disconnect) = disconnected
  /\ serverInfo (step Json.parse c call_disconnect)
     = JObj [("name", JStr "anode"); ("version", JStr "1.0.0")].
Proof.
  cbv zeta. split; [reflexivity|]. split; [vm_compute; reflexivity|].
  pose proof (proj2 (server_is_kept Json.parse)
                (run Json.parse Sample.handshake (new_client Sample.cfg))
                call_disconnect eq_refl) as H.
  apply (f_equal fst) in H. cbn [fst server] in H. rewrite H. vm_compute. reflexivity.
Defined.
